(** * A shallow embedding of the block editor store

    The development follows the TypeScript sources of the editor:
    - [types/richText.ts], [types/block.ts], [types/editor.ts]: the data model;
    - [utils/blockUtils.ts], [utils/richText.ts]: block factories and the
      plain-text projection;
    - [store/editorStore.ts]: the Zustand store and its five block actions
      (the spread-based variant is module [Store], the Immer-based variant is
      module [ImmerStore]);
    - [createHistorySlice] ([store/history.ts] in the technical
      specification of the editor): the undo/redo history with typing
      batches (module [History]).

    JavaScript values are embedded as follows.  Strings are [string]; a
    character stands for a UTF-16 code unit, the unit in which [length] and
    [slice] count.  Numbers that hold offsets, indices and timestamps are
    [Z], arrays are [list], the [Record<BlockId, Block>] object is a
    [gmap string _], and the [undefined] result of a lookup is [None].  [Date.now()] and [nanoid()] are read from an
    explicit environment [Env], indexed by the number of the call inside the
    action that is running. *)

From Stdlib Require Import ZArith String Ascii List Bool Lia.
From stdpp Require Import base tactics option list gmap strings pretty.

Local Open Scope string_scope.
Local Open Scope list_scope.
Local Open Scope Z_scope.

(** ** JavaScript library functions used by the sources *)

Module JS.

(** [String.prototype.slice] and [Array.prototype.slice] turn a relative
    index into an absolute one: negative indices count from the end, and
    the result is clamped to [0, len]. *)
Definition relativeIndex (len i : Z) : Z :=
  if i <? 0 then Z.max (len + i) 0 else Z.min i len.

Fixpoint strTake (n : nat) (s : string) : string :=
  match n, s with
  | O, _ => EmptyString
  | S _, EmptyString => EmptyString
  | S n', String c s' => String c (strTake n' s')
  end.

Fixpoint strDrop (n : nat) (s : string) : string :=
  match n, s with
  | O, _ => s
  | S _, EmptyString => EmptyString
  | S n', String _ s' => strDrop n' s'
  end.

Definition strLength (s : string) : Z := Z.of_nat (String.length s).

(** [s.slice(start, end)]; [end_ = None] is the one-argument call. *)
Definition slice (s : string) (start : Z) (end_ : option Z) : string :=
  let len := strLength s in
  let from := relativeIndex len start in
  let to := match end_ with
            | None => len
            | Some e => relativeIndex len e
            end in
  strTake (Z.to_nat (Z.max (to - from) 0)) (strDrop (Z.to_nat from) s).

(** [arr.slice(start, end)] on arrays. *)
Definition arraySlice {A} (l : list A) (start : Z) (end_ : option Z) : list A :=
  let len := Z.of_nat (List.length l) in
  let from := relativeIndex len start in
  let to := match end_ with
            | None => len
            | Some e => relativeIndex len e
            end in
  take (Z.to_nat (Z.max (to - from) 0)) (drop (Z.to_nat from) l).

(** [arr.join(sep)] on an array of strings. *)
Fixpoint join (sep : string) (l : list string) : string :=
  match l with
  | [] => EmptyString
  | [x] => x
  | x :: xs => x +:+ sep +:+ join sep xs
  end.

(** [arr.indexOf(x)]: the first index holding [x], or [-1]. *)
Fixpoint indexOf (l : list string) (x : string) : Z :=
  match l with
  | [] => -1
  | y :: l' =>
      if decide (y = x) then 0
      else let r := indexOf l' x in
           if r =? -1 then -1 else r + 1
  end.

(** [arr[i]] for a number [i]; [None] is [undefined]. *)
Definition at_ {A} (l : list A) (i : Z) : option A :=
  if i <? 0 then None else l !! Z.to_nat i.

(** [arr.splice(start, 0, x)] and [arr.splice(start, 1)] for the
    non-negative [start] the sources pass. *)
Definition spliceInsert {A} (l : list A) (start : Z) (x : A) : list A :=
  let from := Z.to_nat (relativeIndex (Z.of_nat (List.length l)) start) in
  take from l ++ x :: drop from l.

Definition spliceDelete1 {A} (l : list A) (start : Z) : list A :=
  let from := Z.to_nat (relativeIndex (Z.of_nat (List.length l)) start) in
  take from l ++ drop (S from) l.

(** A string is truthy when it is not empty. *)
Definition truthy (s : string) : bool :=
  match s with EmptyString => false | _ => true end.

(** [s.startsWith(p)]. *)
Definition startsWith (s p : string) : bool := String.prefix p s.

(** [s.replace(p, "")] for a string [s] that starts with [p]: the first
    occurrence is the prefix itself. *)
Definition removePrefix (p s : string) : string :=
  strDrop (String.length p) s.

Definition isDigit (c : ascii) : bool :=
  let n := nat_of_ascii c in (48 <=? n)%nat && (n <=? 57)%nat.

Fixpoint digitsValue (acc : option nat) (s : string) : option nat :=
  match s with
  | EmptyString => acc
  | String c s' =>
      if isDigit c
      then digitsValue (Some (10 * default 0%nat acc + (nat_of_ascii c - 48))%nat) s'
      else acc
  end.

(** [parseInt(s)] on strings that begin with their decimal digits (no
    leading blanks, sign or radix prefix): the value of the longest prefix
    of digits, [None] standing for [NaN]. *)
Definition parseInt (s : string) : option nat := digitsValue None s.

(** The text a template literal gives for a number. *)
Definition numberToString (n : option nat) : string :=
  match n with
  | None => "NaN"
  | Some k => pretty k
  end.

(** The names of the members of [Object.prototype].  A property read
    [o[key]] on an object written as a literal or a spread gives the own
    property [key] when [o] has one; when it has none, it gives the
    inherited member for these names, and [undefined] for every other
    string. *)
Definition objectPrototypeKeys : list string :=
  [ "constructor"; "hasOwnProperty"; "isPrototypeOf"; "propertyIsEnumerable";
    "toLocaleString"; "toString"; "valueOf"; "__proto__";
    "__defineGetter__"; "__defineSetter__";
    "__lookupGetter__"; "__lookupSetter__" ].

(** [key] names a member that every object literal inherits. *)
Definition inherited (key : string) : bool :=
  existsb (String.eqb key) objectPrototypeKeys.

End JS.

(** ** The environment of an action: clock and identifier generator *)

(** [dateNow env n] is what the [n]-th call of [Date.now()] returns while the
    action runs, [createId env n] what the [n]-th call of [createId()] (that
    is, [nanoid()]) returns; both count from [0]. *)
Record Env := mkEnv {
  dateNow : nat -> Z;
  createId : nat -> string
}.

(** The environment seen after [c] clock readings and [i] identifiers. *)
Definition after (c i : nat) (env : Env) : Env :=
  {| dateNow := fun n => dateNow env (c + n);
     createId := fun n => createId env (i + n) |}.

(** ** Data model: [types/richText.ts], [types/block.ts], [types/editor.ts] *)

Module Mark.

Inductive kind := bold | italic | underline | strikethrough | code | link.

Record attrs_t := mkAttrs { href : option string }.

Record t := mk {
  type : kind;
  attrs : option attrs_t
}.

End Mark.

Module RichText.

Record t := mk {
  text : string;
  marks : list Mark.t
}.

End RichText.

Abbreviation BlockId := string (only parsing).

Module Block.

(** The [type] field is kept as the string it is at run time; the declared
    union is ["paragraph" | "heading1" | "heading2" | "heading3"]. *)
Record t := mk {
  id : BlockId;
  type : string;
  content : list RichText.t;
  children : list BlockId;
  createdAt : Z;
  updatedAt : Z
}.

(** [{ ...block, content, updatedAt }] *)
Definition withContent (block : t) (content' : list RichText.t) (updatedAt' : Z) : t :=
  {| id := id block;
     type := type block;
     content := content';
     children := children block;
     createdAt := createdAt block;
     updatedAt := updatedAt' |}.

(** The guard the store writes before it touches [content]:
    [block.type === "paragraph" || block.type.startsWith("heading")]. *)
Definition hasContent (block : t) : bool :=
  String.eqb (type block) "paragraph" || JS.startsWith (type block) "heading".

End Block.

Module Document.

Record t := mk {
  id : string;
  title : string;
  rootBlockIds : list BlockId;
  blocks : gmap string Block.t;
  createdAt : Z;
  updatedAt : Z
}.

(** [{ ...document, blocks, rootBlockIds, updatedAt }] *)
Definition update (document : t) (blocks' : gmap string Block.t)
    (rootBlockIds' : list BlockId) (updatedAt' : Z) : t :=
  {| id := id document;
     title := title document;
     rootBlockIds := rootBlockIds';
     blocks := blocks';
     createdAt := createdAt document;
     updatedAt := updatedAt' |}.

End Document.

Module Selection.

Inductive kind := caret | range.

Record t := mk {
  type : kind;
  anchorBlockId : BlockId;
  anchorOffset : Z;
  focusBlockId : BlockId;
  focusOffset : Z
}.

End Selection.

Module UIState.

Record t := mk { focusedBlockId : option BlockId }.

End UIState.

Module EditorState.

Record t := mk {
  document : Document.t;
  selection : option Selection.t;
  ui : UIState.t
}.

(** [{ ...state, document }] *)
Definition withDocument (state : t) (document' : Document.t) : t :=
  {| document := document'; selection := selection state; ui := ui state |}.

End EditorState.

(** The declared type of the [type] argument of [createBlock],
    [Block["type"]]. *)
Inductive BlockType := paragraph | heading1 | heading2 | heading3.

Definition typeName (ty : BlockType) : string :=
  match ty with
  | paragraph => "paragraph"
  | heading1 => "heading1"
  | heading2 => "heading2"
  | heading3 => "heading3"
  end.

(** ** [utils/richText.ts] *)

Definition richTextToPlainText (content : list RichText.t) : string :=
  JS.join "" (map RichText.text content).

Definition plainTextToRichText (text : string) : list RichText.t :=
  if JS.truthy text then [RichText.mk text []] else [].

(** ** [utils/blockUtils.ts] *)

(** [text ? [{ text, marks: [] }] : []] for the optional argument [text]. *)
Definition initialContent (text : option string) : list RichText.t :=
  match text with
  | Some s => if JS.truthy s then [RichText.mk s []] else []
  | None => []
  end.

Definition createParagraphBlock (env : Env) (text : option string) : Block.t :=
  let now := dateNow env 0 in
  {| Block.id := createId env 0;
     Block.type := "paragraph";
     Block.content := initialContent text;
     Block.children := [];
     Block.createdAt := now;
     Block.updatedAt := now |}.

Definition createHeadingBlock (env : Env) (level : option nat) (text : option string)
    : Block.t :=
  let now := dateNow env 0 in
  let type := "heading" +:+ JS.numberToString level in
  {| Block.id := createId env 0;
     Block.type := type;
     Block.content := initialContent text;
     Block.children := [];
     Block.createdAt := now;
     Block.updatedAt := now |}.

(** [createEmptyDocument]: one empty paragraph. *)
Definition createEmptyDocument (env : Env) : Document.t :=
  let now := dateNow env 0 in
  let initialBlock := createParagraphBlock (after 1 0 env) None in
  {| Document.id := createId env 1;
     Document.title := "Untitled";
     Document.rootBlockIds := [Block.id initialBlock];
     Document.blocks := {[ Block.id initialBlock := initialBlock ]};
     Document.createdAt := now;
     Document.updatedAt := now |}.

(** The later revision of [createEmptyDocument], which fills the document
    with four sample blocks to test rendering. *)
Definition createSampleDocument (env : Env) : Document.t :=
  let now := dateNow env 0 in
  let block1 :=
    createParagraphBlock (after 1 0 env)
      (Some "This is a test paragraph to verify Milestone 4 rendering works correctly.") in
  let block2 := createHeadingBlock (after 2 1 env) (Some 1%nat) (Some "Heading 1 Test") in
  let block3 := createHeadingBlock (after 3 2 env) (Some 2%nat) (Some "Heading 2 Test") in
  let block4 := createParagraphBlock (after 4 3 env) (Some "Another paragraph block.") in
  {| Document.id := createId env 4;
     Document.title := "Untitled";
     Document.rootBlockIds :=
       [Block.id block1; Block.id block2; Block.id block3; Block.id block4];
     Document.blocks :=
       <[Block.id block4 := block4]>
         (<[Block.id block3 := block3]>
            (<[Block.id block2 := block2]>
               {[ Block.id block1 := block1 ]}));
     Document.createdAt := now;
     Document.updatedAt := now |}.

(** ** How a call of an action completes *)

(** The error kinds of the specification.  An action either returns a value
    or signals one of them (in the sources: by throwing or by returning an
    error value). *)
Inductive ErrorKind :=
  NotFound | Rejected | CycleDetected | DepthExceeded | NotTextBearing.

Inductive Completion (A : Type) :=
| Returns (value : A)
| Signals (error : ErrorKind).
Arguments Returns {A} value.
Arguments Signals {A} error.

(** The state the store holds after a call, and how the call completed. *)
Definition Outcome (A : Type) : Type := EditorState.t * Completion A.

Definition stateOf {A} (o : Outcome A) : EditorState.t := fst o.
Definition completionOf {A} (o : Outcome A) : Completion A := snd o.
Definition documentOf {A} (o : Outcome A) : Document.t :=
  EditorState.document (stateOf o).

(** ** [store/editorStore.ts], written with spread operators *)

Module Store.

Import EditorState.

(** Zustand's [set(fn)]: the updater's result becomes the state of the
    store, and [set] itself returns nothing. *)
Definition set_ (fn : EditorState.t -> EditorState.t) (state : EditorState.t)
    : EditorState.t := fn state.

Definition updateBlockContent (env : Env) (blockId : BlockId)
    (content : list RichText.t) (state : EditorState.t) : Outcome unit :=
  (set_ (fun state =>
     match Document.blocks (document state) !! blockId with
     | None => state
     | Some block =>
         if Block.hasContent block then
           let block' := Block.withContent block content (dateNow env 0) in
           withDocument state
             (Document.update (document state)
                (<[blockId := block']> (Document.blocks (document state)))
                (Document.rootBlockIds (document state))
                (dateNow env 1))
         else state
     end) state,
   Returns tt).

(** The block [createBlock] builds for a [type]. *)
Definition newBlockOfType (env : Env) (type : BlockType) : Block.t :=
  let type := typeName type in
  if String.eqb type "paragraph" then createParagraphBlock env None
  else if JS.startsWith type "heading" then
    let level := JS.parseInt (JS.removePrefix "heading" type) in
    createHeadingBlock env level None
  else createParagraphBlock env None.

Definition createBlock (env : Env) (afterBlockId : option BlockId)
    (type : BlockType) (state : EditorState.t) : Outcome BlockId :=
  let newBlock := newBlockOfType env type in
  let newBlockId := Block.id newBlock in
  (set_ (fun state =>
     let rootBlockIds := Document.rootBlockIds (document state) in
     let newRootBlockIds :=
       match afterBlockId with
       | None => rootBlockIds ++ [newBlockId]
       | Some afterBlockId =>
           let index := JS.indexOf rootBlockIds afterBlockId in
           if negb (index =? -1) then
             JS.arraySlice rootBlockIds 0 (Some (index + 1))
               ++ [newBlockId]
               ++ JS.arraySlice rootBlockIds (index + 1) None
           else rootBlockIds ++ [newBlockId]
       end in
     withDocument state
       (Document.update (document state)
          (<[newBlockId := newBlock]> (Document.blocks (document state)))
          newRootBlockIds
          (dateNow env 1))) state,
   Returns newBlockId).

Definition deleteBlock (env : Env) (blockId : BlockId) (state : EditorState.t)
    : Outcome unit :=
  (set_ (fun state =>
     let rootBlockIds := Document.rootBlockIds (document state) in
     if Z.of_nat (length rootBlockIds) <=? 1 then state
     else
       let remainingBlocks := delete blockId (Document.blocks (document state)) in
       let newRootBlockIds := filter (fun id => id <> blockId) rootBlockIds in
       withDocument state
         (Document.update (document state) remainingBlocks newRootBlockIds
            (dateNow env 0))) state,
   Returns tt).

Definition mergeBlockWithPrevious (env : Env) (blockId : BlockId)
    (state : EditorState.t) : Outcome unit :=
  (set_ (fun state =>
     let rootBlockIds := Document.rootBlockIds (document state) in
     let blocks := Document.blocks (document state) in
     let currentIndex := JS.indexOf rootBlockIds blockId in
     if currentIndex <=? 0 then state
     else
       (* an index out of range would give [undefined], which as a
          property key reads ["undefined"] *)
       let previousBlockId :=
         default "undefined" (JS.at_ rootBlockIds (currentIndex - 1)) in
       match blocks !! previousBlockId, blocks !! blockId with
       | Some previousBlock, Some currentBlock =>
           if Block.hasContent previousBlock && Block.hasContent currentBlock then
             let blocksWithoutCurrent := delete blockId blocks in
             let updatedPreviousBlock :=
               Block.withContent previousBlock
                 (Block.content previousBlock ++ Block.content currentBlock)
                 (dateNow env 0) in
             let newRootBlockIds := filter (fun id => id <> blockId) rootBlockIds in
             withDocument state
               (Document.update (document state)
                  (<[previousBlockId := updatedPreviousBlock]> blocksWithoutCurrent)
                  newRootBlockIds
                  (dateNow env 1))
           else state
       | _, _ => state
       end) state,
   Returns tt).

Definition splitBlock (env : Env) (blockId : BlockId) (offset : Z)
    (state : EditorState.t) : Outcome BlockId :=
  match Document.blocks (document state) !! blockId with
  | None => (state, Returns "")
  | Some block =>
      if negb (Block.hasContent block) then (state, Returns "")
      else
        let fullText := JS.join "" (map RichText.text (Block.content block)) in
        let beforeText := JS.slice fullText 0 (Some offset) in
        let afterText := JS.slice fullText offset None in
        let newBlock := createParagraphBlock env (Some afterText) in
        let newBlockId := Block.id newBlock in
        (set_ (fun state =>
           let rootBlockIds := Document.rootBlockIds (document state) in
           let currentIndex := JS.indexOf rootBlockIds blockId in
           if currentIndex =? -1 then state
           else
             let updatedBlock :=
               Block.withContent block
                 (if JS.truthy beforeText
                  then [RichText.mk beforeText []] else [])
                 (dateNow env 1) in
             let newRootBlockIds :=
               JS.arraySlice rootBlockIds 0 (Some (currentIndex + 1))
                 ++ [newBlockId]
                 ++ JS.arraySlice rootBlockIds (currentIndex + 1) None in
             withDocument state
               (Document.update (document state)
                  (<[newBlockId := newBlock]>
                     (<[blockId := updatedBlock]>
                        (Document.blocks (document state))))
                  newRootBlockIds
                  (dateNow env 2))) state,
         Returns newBlockId)
  end.

Definition setFocusedBlock (blockId : option BlockId) (state : EditorState.t)
    : Outcome unit :=
  (set_ (fun state =>
     {| document := document state;
        selection := selection state;
        ui := {| UIState.focusedBlockId := blockId |} |}) state,
   Returns tt).

(** The state the store is created with. *)
Definition initialState (env : Env) : EditorState.t :=
  {| document := createEmptyDocument env;
     selection := None;
     ui := {| UIState.focusedBlockId := None |} |}.

End Store.

(** ** [store/editorStore.ts], written with the Immer middleware

    The updater receives a draft and assigns to it; the state of the store
    after the call is the draft with these assignments applied, in order. *)

Module ImmerStore.

Import EditorState.

(** The draft after [draft.document.blocks = blocks; .rootBlockIds = ids]. *)
Definition assign (draft : EditorState.t) (blocks' : gmap string Block.t)
    (rootBlockIds' : list BlockId) (updatedAt' : Z) : EditorState.t :=
  withDocument draft
    (Document.update (document draft) blocks' rootBlockIds' updatedAt').

Definition updateBlockContent (env : Env) (blockId : BlockId)
    (content : list RichText.t) (draft : EditorState.t) : Outcome unit :=
  (match Document.blocks (document draft) !! blockId with
   | None => draft
   | Some block =>
       if Block.hasContent block then
         let block' := Block.withContent block content (dateNow env 0) in
         assign draft (<[blockId := block']> (Document.blocks (document draft)))
           (Document.rootBlockIds (document draft)) (dateNow env 1)
       else draft
   end,
   Returns tt).

Definition createBlock (env : Env) (afterBlockId : option BlockId)
    (type : BlockType) (draft : EditorState.t) : Outcome BlockId :=
  let newBlock := Store.newBlockOfType env type in
  let newBlockId := Block.id newBlock in
  let blocks := <[newBlockId := newBlock]> (Document.blocks (document draft)) in
  let rootBlockIds := Document.rootBlockIds (document draft) in
  let rootBlockIds' :=
    match afterBlockId with
    | None => rootBlockIds ++ [newBlockId]
    | Some afterBlockId =>
        let index := JS.indexOf rootBlockIds afterBlockId in
        if negb (index =? -1)
        then JS.spliceInsert rootBlockIds (index + 1) newBlockId
        else rootBlockIds ++ [newBlockId]
    end in
  (assign draft blocks rootBlockIds' (dateNow env 1), Returns newBlockId).

Definition deleteBlock (env : Env) (blockId : BlockId) (draft : EditorState.t)
    : Outcome unit :=
  let rootBlockIds := Document.rootBlockIds (document draft) in
  (if Z.of_nat (length rootBlockIds) <=? 1 then draft
   else
     let blocks := delete blockId (Document.blocks (document draft)) in
     let index := JS.indexOf rootBlockIds blockId in
     let rootBlockIds' :=
       if negb (index =? -1) then JS.spliceDelete1 rootBlockIds index
       else rootBlockIds in
     assign draft blocks rootBlockIds' (dateNow env 0),
   Returns tt).

Definition mergeBlockWithPrevious (env : Env) (blockId : BlockId)
    (draft : EditorState.t) : Outcome unit :=
  let rootBlockIds := Document.rootBlockIds (document draft) in
  let blocks := Document.blocks (document draft) in
  let currentIndex := JS.indexOf rootBlockIds blockId in
  (if currentIndex <=? 0 then draft
   else
     let previousBlockId :=
       default "undefined" (JS.at_ rootBlockIds (currentIndex - 1)) in
     match blocks !! previousBlockId, blocks !! blockId with
     | Some previousBlock, Some currentBlock =>
         if Block.hasContent previousBlock && Block.hasContent currentBlock then
           let previousBlock' :=
             Block.withContent previousBlock
               (Block.content previousBlock ++ Block.content currentBlock)
               (dateNow env 0) in
           let blocks' := delete blockId (<[previousBlockId := previousBlock']> blocks) in
           assign draft blocks' (JS.spliceDelete1 rootBlockIds currentIndex)
             (dateNow env 1)
         else draft
     | _, _ => draft
     end,
   Returns tt).

Definition splitBlock (env : Env) (blockId : BlockId) (offset : Z)
    (state : EditorState.t) : Outcome BlockId :=
  match Document.blocks (document state) !! blockId with
  | None => (state, Returns "")
  | Some block =>
      if negb (Block.hasContent block) then (state, Returns "")
      else
        let fullText := JS.join "" (map RichText.text (Block.content block)) in
        let beforeText := JS.slice fullText 0 (Some offset) in
        let afterText := JS.slice fullText offset None in
        let newBlock := createParagraphBlock env (Some afterText) in
        let newBlockId := Block.id newBlock in
        let draft := state in
        let rootBlockIds := Document.rootBlockIds (document draft) in
        let currentIndex := JS.indexOf rootBlockIds blockId in
        (if currentIndex =? -1 then draft
         else
           match Document.blocks (document draft) !! blockId with
           | None => draft
           | Some currentBlock =>
               let blocks1 :=
                 if Block.hasContent currentBlock then
                   <[blockId :=
                       Block.withContent currentBlock
                         (if JS.truthy beforeText
                          then [RichText.mk beforeText []] else [])
                         (dateNow env 1)]> (Document.blocks (document draft))
                 else Document.blocks (document draft) in
               assign draft (<[newBlockId := newBlock]> blocks1)
                 (JS.spliceInsert rootBlockIds (currentIndex + 1) newBlockId)
                 (dateNow env 2)
           end,
         Returns newBlockId)
  end.

End ImmerStore.

(** The texts [beforeText] and [afterText] that [splitBlock] computes for a
    block and an offset, named for the statements about it. *)
Definition beforeText (block : Block.t) (offset : Z) : string :=
  JS.slice (richTextToPlainText (Block.content block)) 0 (Some offset).

Definition afterText (block : Block.t) (offset : Z) : string :=
  JS.slice (richTextToPlainText (Block.content block)) offset None.

(** ** [createHistorySlice]: snapshots, typing batches, undo and redo

    The slice lives in the same store as the editor state.  The only
    asynchronous element is [setTimeout]: the event loop below keeps the
    logical time, the timers that are scheduled, and fires the due ones when
    time elapses.  Every callback the slice schedules is
    [() => get().commitBatch()], so a timer is its handle and its due time.
    [structuredClone] of an immutable value is the value. *)

Module History.

Record HistoryEntry := mkEntry {
  entryDocument : Document.t;
  timestamp : Z;
  entryOperationType : string
}.

Record HistoryState := mkHistory {
  entries : list HistoryEntry;
  currentIndex : Z;
  maxEntries : Z
}.

Record PendingBatch := mkBatch {
  timeoutId : nat;
  blockId : string;
  operationType : string
}.

(** The optional argument [{ batch?: boolean; blockId?: string }]. *)
Record Options := mkOptions {
  batch : option bool;
  optBlockId : option string
}.

Record Timers := mkTimers {
  clock : Z;
  scheduled : list (nat * Z);
  nextHandle : nat
}.

(** The store (editor state and history slice) and the event loop. *)
Record t := mk {
  editor : EditorState.t;
  history : HistoryState;
  pendingBatch : option PendingBatch;
  timers : Timers
}.

Definition document (s : t) : Document.t := EditorState.document (editor s).

Definition BATCH_TIMEOUT : Z := 500.

(** [setTimeout(callback, delay)]: the new handle and the event loop. *)
Definition setTimeout (delay : Z) (tm : Timers) : nat * Timers :=
  (nextHandle tm,
   {| clock := clock tm;
      scheduled := scheduled tm ++ [(nextHandle tm, clock tm + delay)];
      nextHandle := S (nextHandle tm) |}).

Definition clearTimeout (handle : nat) (tm : Timers) : Timers :=
  {| clock := clock tm;
     scheduled := filter (fun p => fst p <> handle) (scheduled tm);
     nextHandle := nextHandle tm |}.

(** [set({ history })], [set({ pendingBatch })], [set({ document })] *)
Definition setHistory (h : HistoryState) (s : t) : t :=
  {| editor := editor s; history := h;
     pendingBatch := pendingBatch s; timers := timers s |}.

Definition setPendingBatch (b : option PendingBatch) (s : t) : t :=
  {| editor := editor s; history := history s;
     pendingBatch := b; timers := timers s |}.

Definition setDocument (d : Document.t) (s : t) : t :=
  {| editor := EditorState.withDocument (editor s) d; history := history s;
     pendingBatch := pendingBatch s; timers := timers s |}.

Definition setTimers (tm : Timers) (s : t) : t :=
  {| editor := editor s; history := history s;
     pendingBatch := pendingBatch s; timers := tm |}.

(** [{ ...history, entries, currentIndex }] *)
Definition withEntries (h : HistoryState) (entries' : list HistoryEntry)
    (currentIndex' : Z) : HistoryState :=
  {| entries := entries'; currentIndex := currentIndex';
     maxEntries := maxEntries h |}.

Definition commitBatch (s : t) : t :=
  match pendingBatch s with
  | None => s
  | Some pending =>
      let s := setTimers (clearTimeout (timeoutId pending) (timers s)) s in
      let newEntry :=
        {| entryDocument := document s;
           timestamp := clock (timers s);
           entryOperationType := operationType pending |} in
      let entries' :=
        JS.arraySlice (entries (history s)) 0 (Some (currentIndex (history s) + 1))
          ++ [newEntry] in
      setPendingBatch None
        (setHistory
           (withEntries (history s) entries' (Z.of_nat (length entries') - 1)) s)
  end.

(** [options?.batch && options?.blockId], with the block identifier when
    the test succeeds. *)
Definition batchKey (options : option Options) : option string :=
  match options with
  | Some {| batch := Some true; optBlockId := Some b |} =>
      if JS.truthy b then Some b else None
  | _ => None
  end.

(** [setTimeout(() => get().commitBatch(), BATCH_TIMEOUT)] followed by
    [set({ pendingBatch })] with the new handle. *)
Definition schedule (blockId' operationType' : string) (s : t) : t :=
  let '(handle, tm) := setTimeout BATCH_TIMEOUT (timers s) in
  setPendingBatch
    (Some {| timeoutId := handle; blockId := blockId';
             operationType := operationType' |})
    (setTimers tm s).

Definition pushHistory (operationType' : string) (options : option Options)
    (s : t) : t :=
  (* [const { history, pendingBatch, document } = get()] *)
  let history0 := history s in
  let pendingBatch0 := pendingBatch s in
  let document0 := document s in
  match batchKey options with
  | Some blockId' =>
      match pendingBatch0 with
      | Some pending =>
          if String.eqb (blockId pending) blockId'
             && String.eqb (operationType pending) operationType'
          then
            let s := setTimers (clearTimeout (timeoutId pending) (timers s)) s in
            schedule (blockId pending) (operationType pending) s
          else schedule blockId' operationType' (commitBatch s)
      | None => schedule blockId' operationType' s
      end
  | None =>
      let s := match pendingBatch0 with
               | Some _ => commitBatch s
               | None => s
               end in
      let newEntry :=
        {| entryDocument := document0;
           timestamp := clock (timers s);
           entryOperationType := operationType' |} in
      (* the entries are taken from [history] as it was read on entry *)
      let entries1 :=
        JS.arraySlice (entries history0) 0 (Some (currentIndex history0 + 1))
          ++ [newEntry] in
      let entries2 :=
        if maxEntries history0 <? Z.of_nat (length entries1)
        then tail entries1 else entries1 in
      setHistory (withEntries history0 entries2 (Z.of_nat (length entries2) - 1)) s
  end.

Definition undo (s : t) : t :=
  let history0 := history s in
  let s := match pendingBatch s with
           | Some _ => commitBatch s
           | None => s
           end in
  if currentIndex history0 <=? 0 then s
  else
    let newIndex := currentIndex history0 - 1 in
    match JS.at_ (entries history0) newIndex with
    | Some entry =>
        setHistory (withEntries history0 (entries history0) newIndex)
          (setDocument (entryDocument entry) s)
    | None => s (* reading [entry.document] of [undefined] throws *)
    end.

Definition redo (s : t) : t :=
  let history0 := history s in
  if Z.of_nat (length (entries history0)) - 1 <=? currentIndex history0 then s
  else
    let newIndex := currentIndex history0 + 1 in
    match JS.at_ (entries history0) newIndex with
    | Some entry =>
        setHistory (withEntries history0 (entries history0) newIndex)
          (setDocument (entryDocument entry) s)
    | None => s
    end.

Definition canUndo (s : t) : bool := 0 <? currentIndex (history s).

Definition canRedo (s : t) : bool :=
  currentIndex (history s) <? Z.of_nat (length (entries (history s))) - 1.

(** The timer that is due first (the earlier handle on a tie). *)
Fixpoint earliest (l : list (nat * Z)) : option (nat * Z) :=
  match l with
  | [] => None
  | p :: l' =>
      match earliest l' with
      | Some q => if snd q <? snd p then Some q else Some p
      | None => Some p
      end
  end.

(** Time advances to [target]; the timers due by then fire in order, each
    running [commitBatch].  No callback schedules a timer, so as many rounds
    as there are timers suffice. *)
Fixpoint fireDue (rounds : nat) (target : Z) (s : t) : t :=
  match rounds with
  | O => s
  | S rounds' =>
      match earliest (scheduled (timers s)) with
      | Some (handle, due) =>
          if due <=? target then
            let tm := {| clock := Z.max (clock (timers s)) due;
                         scheduled :=
                           filter (fun p => fst p <> handle) (scheduled (timers s));
                         nextHandle := nextHandle (timers s) |} in
            fireDue rounds' target (commitBatch (setTimers tm s))
          else s
      | None => s
      end
  end.

Definition elapse (ms : Z) (s : t) : t :=
  let target := clock (timers s) + ms in
  let s := fireDue (length (scheduled (timers s))) target s in
  setTimers {| clock := target;
               scheduled := scheduled (timers s);
               nextHandle := nextHandle (timers s) |} s.

(** What happens to the store, one event at a time. *)
Inductive Event :=
| Edit (action : EditorState.t -> EditorState.t)
| PushHistory (operationType' : string) (options : option Options)
| CommitBatch
| Undo
| Redo
| Elapse (ms : Z).

Definition step (s : t) (e : Event) : t :=
  match e with
  | Edit action =>
      {| editor := action (editor s); history := history s;
         pendingBatch := pendingBatch s; timers := timers s |}
  | PushHistory operationType' options => pushHistory operationType' options s
  | CommitBatch => commitBatch s
  | Undo => undo s
  | Redo => redo s
  | Elapse ms => elapse ms s
  end.

Definition run (events : list Event) (s : t) : t := fold_left step events s.

(** The slice as [createHistorySlice] creates it, over an editor state. *)
Definition init (e : EditorState.t) : t :=
  {| editor := e;
     history := {| entries := []; currentIndex := -1; maxEntries := 100 |};
     pendingBatch := None;
     timers := {| clock := 0; scheduled := []; nextHandle := 0 |} |}.

(** A text-edit commit on a block: [pushHistory("typing", { batch: true, blockId })]. *)
Definition typing (b : string) : Event :=
  PushHistory "typing" (Some {| batch := Some true; optBlockId := Some b |}).

End History.

(** ** Notions of the specification the statements below compare the code with *)

Module Spec.

#[global] Instance mark_kind_eq_dec : EqDecision Mark.kind.
Proof. solve_decision. Defined.

#[global] Instance mark_attrs_eq_dec : EqDecision Mark.attrs_t.
Proof. solve_decision. Defined.

#[global] Instance mark_eq_dec : EqDecision Mark.t.
Proof. solve_decision. Defined.

(** Two runs carry identical format-sets: the same marks, whatever their
    order in the array. *)
Definition sameFormatSet (m1 m2 : list Mark.t) : bool :=
  forallb (fun m => bool_decide (m ∈ m2)) m1
  && forallb (fun m => bool_decide (m ∈ m1)) m2.

Fixpoint noAdjacentSameFormat (runs : list RichText.t) : bool :=
  match runs with
  | a :: (b :: _) as rest =>
      negb (sameFormatSet (RichText.marks a) (RichText.marks b))
      && noAdjacentSameFormat rest
  | _ => true
  end.

(** The run-sequence invariant of the data model: maximal merge, and no
    run with empty text. *)
Definition noEmptyRun (runs : list RichText.t) : bool :=
  forallb (fun r => JS.truthy (RichText.text r)) runs.

Definition normalized (runs : list RichText.t) : bool :=
  noEmptyRun runs && noAdjacentSameFormat runs.

(** Every block of the document holds a normalized run sequence. *)
Definition documentNormalized (d : Document.t) : Prop :=
  forall id block, Document.blocks d !! id = Some block ->
    normalized (Block.content block) = true.

(** [splitAt(runs, offset)] of the mark algebra: the runs before and after
    [offset], a run that contains the offset being cut in two parts that
    keep its marks. *)
Fixpoint splitAt (runs : list RichText.t) (offset : nat)
    : list RichText.t * list RichText.t :=
  match runs with
  | [] => ([], [])
  | r :: rest =>
      let n := String.length (RichText.text r) in
      match offset with
      | O => ([], runs)
      | _ =>
          if (n <=? offset)%nat then
            let '(before, after_) := splitAt rest (offset - n) in
            (r :: before, after_)
          else
            ([RichText.mk (JS.strTake offset (RichText.text r)) (RichText.marks r)],
             RichText.mk (JS.strDrop offset (RichText.text r)) (RichText.marks r)
               :: rest)
      end
  end.

(** A document with its timestamps blanked, to compare documents up to the
    clock. *)
Definition blockWithoutTimes (b : Block.t) : Block.t :=
  {| Block.id := Block.id b; Block.type := Block.type b;
     Block.content := Block.content b; Block.children := Block.children b;
     Block.createdAt := 0; Block.updatedAt := 0 |}.

Definition withoutTimes (d : Document.t) : Document.t :=
  {| Document.id := Document.id d; Document.title := Document.title d;
     Document.rootBlockIds := Document.rootBlockIds d;
     Document.blocks := blockWithoutTimes <$> Document.blocks d;
     Document.createdAt := 0; Document.updatedAt := 0 |}.

(** Two environments that generate the same identifiers. *)
Definition sameIds (env1 env2 : Env) : Prop :=
  forall n, createId env1 n = createId env2 n.

(** The plain text a block of the document shows, if the block exists. *)
Definition plainTextAt (d : Document.t) (id : BlockId) : option string :=
  (fun b => richTextToPlainText (Block.content b)) <$> Document.blocks d !! id.

End Spec.

(** ** Sample states *)

Module Sample.

Definition env0 : Env :=
  {| dateNow := fun n => 1000 + Z.of_nat n; createId := fun n => "new" +:+ pretty n |}.

Definition env1 : Env :=
  {| dateNow := fun n => 2000 + Z.of_nat n; createId := fun n => "new" +:+ pretty n |}.

(** The environment of the call that creates the store. *)
Definition envInit : Env :=
  {| dateNow := fun n => Z.of_nat n; createId := fun n => "init" +:+ pretty n |}.

Definition block (id type text : string) (children : list BlockId) : Block.t :=
  {| Block.id := id; Block.type := type;
     Block.content := [RichText.mk text []];
     Block.children := children; Block.createdAt := 1; Block.updatedAt := 1 |}.

Definition state (rootBlockIds : list BlockId) (blocks : list Block.t) : EditorState.t :=
  {| EditorState.document :=
       {| Document.id := "doc"; Document.title := "Untitled";
          Document.rootBlockIds := rootBlockIds;
          Document.blocks := list_to_map (map (fun b => (Block.id b, b)) blocks);
          Document.createdAt := 1; Document.updatedAt := 1 |};
     EditorState.selection := None;
     EditorState.ui := {| UIState.focusedBlockId := None |} |}.

(** One paragraph holding "hello world". *)
Definition hello : EditorState.t :=
  state ["b1"] [block "b1" "paragraph" "hello world" []].

(** Two paragraphs. *)
Definition two : EditorState.t :=
  state ["b1"; "b2"]
    [block "b1" "paragraph" "hello" []; block "b2" "paragraph" " world" []].

(** A paragraph followed by a paragraph that has a child. *)
Definition nested : EditorState.t :=
  state ["b1"; "b2"]
    [block "b1" "paragraph" "hello" [];
     block "b2" "paragraph" " world" ["c1"];
     block "c1" "paragraph" "child" []].

(** A paragraph whose single run is bold. *)
Definition boldState : EditorState.t :=
  {| EditorState.document :=
       {| Document.id := "doc"; Document.title := "Untitled";
          Document.rootBlockIds := ["b1"];
          Document.blocks :=
            {[ "b1" :=
                 {| Block.id := "b1"; Block.type := "paragraph";
                    Block.content := [RichText.mk "ab" [Mark.mk Mark.bold None]];
                    Block.children := []; Block.createdAt := 1;
                    Block.updatedAt := 1 |} ]};
          Document.createdAt := 1; Document.updatedAt := 1 |};
     EditorState.selection := None;
     EditorState.ui := {| UIState.focusedBlockId := None |} |}.

(** The store after "hello world" is typed into the first block and the
    block is split at offset 5, and after the new block is merged back. *)
Definition typed : EditorState.t :=
  stateOf (Store.updateBlockContent env0 "init0"
             [RichText.mk "hello world" []]
             (Store.initialState envInit)).

Definition typedSplit : EditorState.t :=
  stateOf (Store.splitBlock env0 "init0" 5 typed).

Definition typedSplitMerged : EditorState.t :=
  stateOf (Store.mergeBlockWithPrevious env1 "new0" typedSplit).

End Sample.

(** ** The batching scenario: three text edits on one block, one on another *)

Module Scenario.

Import History.

(** The store while no batch is open and no timer is scheduled ([Idle]). *)
Definition idle (e : EditorState.t) (h : HistoryState) (c : Z) (n : nat) : History.t :=
  {| editor := e; history := h; pendingBatch := None;
     timers := {| clock := c; scheduled := []; nextHandle := n |} |}.

(** The store while a batch on block [b] is open, with its timer [k] due
    at [due] ([BatchOpen]). *)
Definition batchOpen (e : EditorState.t) (h : HistoryState) (b op : string)
    (k : nat) (due c : Z) (n : nat) : History.t :=
  {| editor := e; history := h;
     pendingBatch := Some {| timeoutId := k; blockId := b; operationType := op |};
     timers := {| clock := c; scheduled := [(k, due)]; nextHandle := n |} |}.

Definition batchOptions (b : string) : option Options :=
  Some {| batch := Some true; optBlockId := Some b |}.

(** The history after a flush: it is cut after the pointer, the snapshot
    of the live document is appended, and the pointer is on it. *)
Definition flushed (h : HistoryState) (d : Document.t) (time : Z) (op : string)
    : HistoryState :=
  let entries' :=
    JS.arraySlice (entries h) 0 (Some (currentIndex h + 1))
      ++ [{| entryDocument := d; timestamp := time; entryOperationType := op |}] in
  withEntries h entries' (Z.of_nat (length entries') - 1).

(** Three text-edit commits on [b1], [g1] and [g2] apart, a commit on [b2]
    after [g3] more, and then [g4] of quiet.  The edits themselves are
    arbitrary actions on the editor state; one may run before each commit
    ([e1] ... [e4]) and one after it ([e1'] ... [e4']), so that both "edit,
    then commit" and "commit, then edit" are instances. *)
Definition batching (b1 b2 : string)
    (e1 e1' e2 e2' e3 e3' e4 e4' : EditorState.t -> EditorState.t)
    (g1 g2 g3 g4 : Z) : list Event :=
  [ Edit e1; typing b1; Edit e1'; Elapse g1;
    Edit e2; typing b1; Edit e2'; Elapse g2;
    Edit e3; typing b1; Edit e3'; Elapse g3;
    Edit e4; typing b2; Edit e4'; Elapse g4 ].

(** A keystroke: the text of a block is replaced. *)
Definition keystroke (b text : string) : EditorState.t -> EditorState.t :=
  fun e => stateOf (Store.updateBlockContent Sample.env0 b [RichText.mk text []] e).

Definition unchanged : EditorState.t -> EditorState.t := fun e => e.

(** "a", "ab", "abc" typed into "b1", then "x" into "b2"; every edit is
    followed by its commit. *)
Definition editThenCommit : list Event :=
  batching "b1" "b2"
    (keystroke "b1" "a") unchanged (keystroke "b1" "ab") unchanged
    (keystroke "b1" "abc") unchanged (keystroke "b2" "x") unchanged
    100 100 100 500.

(** The same edits, every one preceded by its commit. *)
Definition commitThenEdit : list Event :=
  batching "b1" "b2"
    unchanged (keystroke "b1" "a") unchanged (keystroke "b1" "ab")
    unchanged (keystroke "b1" "abc") unchanged (keystroke "b2" "x")
    100 100 100 500.

End Scenario.

(** ** [store/selectors.ts] *)

Module Selectors.

Definition selectDocument (state : EditorState.t) : Document.t :=
  EditorState.document state.

Definition selectBlockById (id : BlockId) (state : EditorState.t) : option Block.t :=
  Document.blocks (EditorState.document state) !! id.

Definition selectRootBlockIds (state : EditorState.t) : list BlockId :=
  Document.rootBlockIds (EditorState.document state).

Definition selectFocusedBlockId (state : EditorState.t) : option BlockId :=
  UIState.focusedBlockId (EditorState.ui state).

Definition selectSelection (state : EditorState.t) : option Selection.t :=
  EditorState.selection state.

Definition selectBlocks (state : EditorState.t) : gmap string Block.t :=
  Document.blocks (EditorState.document state).

Definition selectDocumentTitle (state : EditorState.t) : string :=
  Document.title (EditorState.document state).

End Selectors.

(** ** [hooks/useBlock.ts] and the components that render the document

    A hook or a component either gives its value or throws an [Error] with
    a message; a component that renders a list stops at the first child
    that throws (there is no error boundary). *)

Inductive Thrown (A : Type) :=
| Value (value : A)
| Throws (message : string).
Arguments Value {A} value.
Arguments Throws {A} message.

(** What a block component renders: an element with its tag and class
    names, whose only child is a text. *)
Record Element := mkElement {
  tag : string;
  className : string;
  text : string
}.

(** What [Editor] renders: a [div] with its class names and, for every
    block, the element of the block under its key. *)
Record View := mkView {
  viewClassName : string;
  viewChildren : list (BlockId * Element)
}.

Module Hooks.

(** The double-quote character of the message. *)
Definition quote : string := String (ascii_of_nat 34) EmptyString.

Definition notFound (id : BlockId) : string :=
  "Block with id " +:+ quote +:+ id +:+ quote +:+ " not found".

Definition useBlock (id : BlockId) (state : EditorState.t) : Thrown Block.t :=
  match Selectors.selectBlockById id state with
  | None => Throws (notFound id)
  | Some block => Value block
  end.

End Hooks.

Module Components.

Definition renderRichText (content : list RichText.t) : string :=
  richTextToPlainText content.

Definition Paragraph (block : Block.t) : Element :=
  {| tag := "p";
     className := "my-1 py-1 text-base leading-relaxed";
     text := renderRichText (Block.content block) |}.

Definition Heading (block : Block.t) : Element :=
  let Tag :=
    if String.eqb (Block.type block) "heading1" then "h1"
    else if String.eqb (Block.type block) "heading2" then "h2"
    else "h3" in
  let className :=
    if String.eqb (Block.type block) "heading1"
    then "mb-2 mt-6 text-3xl font-bold leading-tight"
    else if String.eqb (Block.type block) "heading2"
    then "mb-2 mt-4 text-2xl font-semibold leading-snug"
    else "mb-2 mt-3 text-xl font-semibold leading-normal" in
  {| tag := Tag; className := className;
     text := renderRichText (Block.content block) |}.

(** [<Block id={id} />] *)
Definition Block_ (id : BlockId) (state : EditorState.t) : Thrown Element :=
  match Hooks.useBlock id state with
  | Throws message => Throws message
  | Value block =>
      if String.eqb (Block.type block) "paragraph"
      then Value (Paragraph block)
      else Value (Heading block)
  end.

(** [rootBlockIds.map((id) => <Block key={id} id={id} />)], rendered from
    the first to the last. *)
Fixpoint renderBlocks (ids : list BlockId) (state : EditorState.t)
    : Thrown (list (BlockId * Element)) :=
  match ids with
  | [] => Value []
  | id :: ids' =>
      match Block_ id state with
      | Throws message => Throws message
      | Value element =>
          match renderBlocks ids' state with
          | Throws message => Throws message
          | Value elements => Value ((id, element) :: elements)
          end
      end
  end.

Definition Editor (state : EditorState.t) : Thrown View :=
  match renderBlocks (Selectors.selectRootBlockIds state) state with
  | Throws message => Throws message
  | Value elements =>
      Value {| viewClassName :=
                 "mx-auto max-w-3xl px-5 py-15 font-sans leading-relaxed text-gray-800";
               viewChildren := elements |}
  end.

End Components.

(** ** The documents the store goes through *)

Module Reach.

(** The shape the actions keep: the root order has no duplicate, it lists
    exactly the identifiers of the store, every block is stored under its
    own identifier, has one of the four declared types and no children. *)
Record wellFormed (d : Document.t) : Prop := mkWellFormed {
  wf_nodup : NoDup (Document.rootBlockIds d);
  wf_resolves :
    forall id, id ∈ Document.rootBlockIds d <-> is_Some (Document.blocks d !! id);
  wf_keys :
    forall id block, Document.blocks d !! id = Some block -> Block.id block = id;
  wf_types :
    forall id block, Document.blocks d !! id = Some block ->
      exists type, Block.type block = typeName type;
  wf_flat :
    forall id block, Document.blocks d !! id = Some block ->
      Block.children block = []
}.

(** An identifier the generator may return: it is neither in the root
    order nor in the store. *)
Definition fresh (id : BlockId) (state : EditorState.t) : Prop :=
  (id ∉ Document.rootBlockIds (EditorState.document state))
  /\ Document.blocks (EditorState.document state) !! id = None.

(** One call of an action of the store. *)
Inductive step : EditorState.t -> EditorState.t -> Prop :=
| step_updateBlockContent env blockId content state :
    step state (stateOf (Store.updateBlockContent env blockId content state))
| step_createBlock env afterBlockId type state :
    fresh (createId env 0) state ->
    step state (stateOf (Store.createBlock env afterBlockId type state))
| step_deleteBlock env blockId state :
    step state (stateOf (Store.deleteBlock env blockId state))
| step_mergeBlockWithPrevious env blockId state :
    step state (stateOf (Store.mergeBlockWithPrevious env blockId state))
| step_splitBlock env blockId offset state :
    fresh (createId env 0) state ->
    step state (stateOf (Store.splitBlock env blockId offset state))
| step_setFocusedBlock blockId state :
    step state (stateOf (Store.setFocusedBlock blockId state)).

(** The states of the store: the initial one, and those an action leads to. *)
Inductive reachable : EditorState.t -> Prop :=
| reachable_initial env : reachable (Store.initialState env)
| reachable_step state state' :
    reachable state -> step state state' -> reachable state'.

End Reach.

(** ** The history slice driven by the keyboard, and longer typing bursts *)

Module Keyboard.

Import History.

(** [useEditorKeyboardShortcuts]: Cmd+Z runs [if (canUndo()) undo()],
    Cmd+Shift+Z and Cmd+Y run [if (canRedo()) redo()]. *)
Definition onUndoKey (s : History.t) : History.t :=
  if canUndo s then undo s else s.

Definition onRedoKey (s : History.t) : History.t :=
  if canRedo s then redo s else s.

(** A structural commit: [pushHistory(operationType)] without options. *)
Definition structural (operationType' : string) : Event :=
  PushHistory operationType' None.

(** A typing burst on one block: each keystroke is an edit followed by its
    commit, and by the time until the next event. *)
Fixpoint burst (b : string) (keys : list ((EditorState.t -> EditorState.t) * Z))
    : list Event :=
  match keys with
  | [] => []
  | (edit, gap) :: keys' => Edit edit :: typing b :: Elapse gap :: burst b keys'
  end.

(** The editor state after the edits of a burst. *)
Definition edited (keys : list ((EditorState.t -> EditorState.t) * Z))
    (e : EditorState.t) : EditorState.t :=
  fold_left (fun e key => fst key e) keys e.

(** The time a burst takes. *)
Definition duration (keys : list ((EditorState.t -> EditorState.t) * Z)) : Z :=
  fold_right (fun key total => snd key + total) 0 keys.

(** At most one timer is scheduled, and it is the timer of the open batch. *)
Definition oneTimer (s : History.t) : Prop :=
  match pendingBatch s with
  | None => scheduled (timers s) = []
  | Some pending => exists due, scheduled (timers s) = [(timeoutId pending, due)]
  end.

(** The pointer is on an entry, or before the first one. *)
Definition pointerInRange (s : History.t) : Prop :=
  -1 <= currentIndex (history s) < Z.of_nat (length (entries (history s))).

End Keyboard.

(** ** The text of a document *)

Module Texts.

(** The plain texts of the blocks of the root order, in that order: what
    [App] and [Editor] show, block after block. *)
Definition blockTexts (d : Document.t) : list string :=
  omap (Spec.plainTextAt d) (Document.rootBlockIds d).

(** All the text of the document, from the first block to the last. *)
Definition documentText (d : Document.t) : string :=
  JS.join "" (blockTexts d).

End Texts.

(** * Properties *)

(** ** Facts about the JavaScript library functions *)

Module JSFacts.

Import JS.

Lemma str_app_cons (c : ascii) (s t : string) :
  String c s +:+ t = String c (s +:+ t).
Proof. reflexivity. Qed.

Lemma str_app_empty_r (s : string) : s +:+ "" = s.
Proof.
  induction s as [|c s IH]; [reflexivity|]. by rewrite str_app_cons, IH.
Qed.

Lemma str_app_assoc (a b c : string) : (a +:+ b) +:+ c = a +:+ (b +:+ c).
Proof.
  induction a as [|x a IH]; [reflexivity|]. by rewrite !str_app_cons, IH.
Qed.

Lemma strTake_strDrop (n : nat) (s : string) : strTake n s +:+ strDrop n s = s.
Proof.
  revert s. induction n as [|n IH]; intros [|c s]; simpl; try reflexivity.
  by rewrite str_app_cons, IH.
Qed.

Lemma strTake_all (n : nat) (s : string) :
  (String.length s <= n)%nat -> strTake n s = s.
Proof.
  revert s. induction n as [|n IH]; intros [|c s]; simpl; intros Hle;
    try reflexivity; try lia.
  rewrite IH; [reflexivity | lia].
Qed.

Lemma strDrop_length (n : nat) (s : string) :
  String.length (strDrop n s) = (String.length s - n)%nat.
Proof.
  revert s. induction n as [|n IH]; intros [|c s]; simpl; try reflexivity.
  apply IH.
Qed.

Lemma relativeIndex_range (len i : Z) :
  0 <= len -> 0 <= relativeIndex len i <= len.
Proof. unfold relativeIndex. intros Hlen. destruct (i <? 0) eqn:E; lia. Qed.

Lemma relativeIndex_in_range (len i : Z) :
  0 <= i <= len -> relativeIndex len i = i.
Proof. unfold relativeIndex. intros Hi. destruct (i <? 0) eqn:E; lia. Qed.

(** [s.slice(0, k)] is a prefix of [s], of the clamped length. *)
Lemma slice_before (s : string) (k : Z) :
  slice s 0 (Some k) = strTake (Z.to_nat (relativeIndex (strLength s) k)) s.
Proof.
  unfold slice.
  assert (H0 : relativeIndex (strLength s) 0 = 0).
  { apply relativeIndex_in_range. unfold strLength. lia. }
  rewrite H0. simpl.
  pose proof (relativeIndex_range (strLength s) k ltac:(unfold strLength; lia)).
  f_equal. lia.
Qed.

(** [s.slice(k)] is the rest of [s] after that prefix. *)
Lemma slice_after (s : string) (k : Z) :
  slice s k None = strDrop (Z.to_nat (relativeIndex (strLength s) k)) s.
Proof.
  unfold slice.
  pose proof (relativeIndex_range (strLength s) k ltac:(unfold strLength; lia)) as Hr.
  apply strTake_all. rewrite strDrop_length. unfold strLength in *. lia.
Qed.

(** Cutting a string at any offset and gluing the two parts gives the
    string back. *)
Lemma slice_glue (s : string) (k : Z) :
  slice s 0 (Some k) +:+ slice s k None = s.
Proof. rewrite slice_before, slice_after. apply strTake_strDrop. Qed.

Lemma join_cons (x : string) (xs : list string) :
  join "" (x :: xs) = x +:+ join "" xs.
Proof.
  destruct xs as [|y ys]; [|reflexivity].
  change (x = x +:+ ""). by rewrite str_app_empty_r.
Qed.

Lemma join_app (l1 l2 : list string) :
  join "" (l1 ++ l2) = join "" l1 +:+ join "" l2.
Proof.
  induction l1 as [|x l1 IH]; [reflexivity|].
  rewrite <- app_comm_cons, !join_cons, IH. by rewrite str_app_assoc.
Qed.

Lemma indexOf_lower (l : list string) (x : string) : -1 <= indexOf l x.
Proof.
  induction l as [|y l IH]; simpl; [lia|].
  case_decide; [lia|]. destruct (indexOf l x =? -1) eqn:E; lia.
Qed.

Lemma indexOf_absent (l : list string) (x : string) :
  x ∉ l -> indexOf l x = -1.
Proof.
  induction l as [|y l IH]; simpl; intros Hnot; [reflexivity|].
  apply not_elem_of_cons in Hnot as [Hne Hnot].
  case_decide; [congruence|]. rewrite IH by done. reflexivity.
Qed.

(** The index of the first occurrence. *)
Lemma indexOf_first (l1 l2 : list string) (x : string) :
  x ∉ l1 -> indexOf (l1 ++ x :: l2) x = Z.of_nat (length l1).
Proof.
  induction l1 as [|y l1 IH]; simpl; intros Hnot.
  - case_decide; [reflexivity | congruence].
  - apply not_elem_of_cons in Hnot as [Hne Hnot].
    case_decide; [congruence|]. rewrite IH by done.
    destruct (Z.of_nat (length l1) =? -1) eqn:E; lia.
Qed.

Lemma indexOf_present (l : list string) (x : string) :
  x ∈ l -> exists l1 l2, l = l1 ++ x :: l2 /\ x ∉ l1.
Proof.
  induction l as [|y l IH]; intros Hin; [by apply elem_of_nil in Hin|].
  destruct (decide (y = x)) as [->|Hne].
  - exists [], l. split; [reflexivity | apply not_elem_of_nil].
  - apply elem_of_cons in Hin as [->|Hin]; [congruence|].
    destruct (IH Hin) as (l1 & l2 & -> & Hnot).
    exists (y :: l1), l2. split; [reflexivity|].
    apply not_elem_of_cons. split; [congruence | done].
Qed.

Lemma indexOf_found (l : list string) (x : string) :
  indexOf l x <> -1 -> x ∈ l.
Proof.
  intros Hidx. destruct (decide (x ∈ l)) as [Hin|Hnot]; [done|].
  by apply indexOf_absent in Hnot.
Qed.

Lemma arraySlice_prefix {A} (l : list A) (n : nat) :
  arraySlice l 0 (Some (Z.of_nat n)) = take n l.
Proof.
  unfold arraySlice, relativeIndex. simpl.
  replace (Z.min 0 (Z.of_nat (length l))) with 0 by lia. simpl.
  destruct (Z.ltb_spec (Z.of_nat n) 0) as [Hneg|_]; [exfalso; lia|].
  destruct (decide (n <= length l)%nat).
  - simpl. rewrite drop_0. f_equal. lia.
  - simpl. rewrite drop_0, !take_ge by lia. reflexivity.
Qed.

Lemma arraySlice_suffix {A} (l : list A) (n : nat) :
  arraySlice l (Z.of_nat n) None = drop n l.
Proof.
  unfold arraySlice, relativeIndex.
  destruct (Z.ltb_spec (Z.of_nat n) 0) as [Hneg|_]; [exfalso; lia|].
  destruct (decide (n <= length l)%nat).
  - replace (Z.to_nat (Z.min (Z.of_nat n) (Z.of_nat (length l)))) with n by lia.
    apply take_ge. rewrite length_drop. lia.
  - replace (Z.to_nat (Z.min (Z.of_nat n) (Z.of_nat (length l))))
      with (length l) by lia.
    rewrite !drop_ge by lia. by rewrite take_nil.
Qed.

(** Inserting after the first occurrence of [x], as the spread of two
    slices writes it. *)
Lemma insert_after_first (l1 l2 : list string) (x y : string) :
  x ∉ l1 ->
  let l := l1 ++ x :: l2 in
  arraySlice l 0 (Some (indexOf l x + 1)) ++ [y]
    ++ arraySlice l (indexOf l x + 1) None
  = l1 ++ x :: y :: l2.
Proof.
  intros Hnot l. subst l. rewrite indexOf_first by done.
  replace (Z.of_nat (length l1) + 1) with (Z.of_nat (S (length l1))) by lia.
  rewrite arraySlice_prefix, arraySlice_suffix.
  rewrite take_app_ge, drop_app_ge by lia.
  replace (S (length l1) - length l1)%nat with 1%nat by lia.
  simpl. rewrite take_0, drop_0. by rewrite <- app_assoc.
Qed.

Lemma filter_absent (l : list string) (x : string) :
  x ∉ l -> filter (fun id => id <> x) l = l.
Proof.
  induction l as [|y l IH]; intros Hnot; [reflexivity|].
  apply not_elem_of_cons in Hnot as [Hne Hnot].
  rewrite filter_cons_True by congruence. by rewrite IH.
Qed.

Lemma filter_removes (l : list string) (x : string) :
  x ∉ filter (fun id => id <> x) l.
Proof. intros Hin. apply list_elem_of_filter in Hin as [Hne _]. congruence. Qed.

End JSFacts.

(** ** The actions of the store, case by case *)

Module StoreFacts.

Import JS JSFacts EditorState Spec.

Lemma plainText_of_plainTextToRichText (text : string) :
  richTextToPlainText (plainTextToRichText text) = text.
Proof. unfold plainTextToRichText. by destruct text. Qed.

Lemma initialContent_Some (text : string) :
  initialContent (Some text) = plainTextToRichText text.
Proof. reflexivity. Qed.

Lemma plainText_app (c1 c2 : list RichText.t) :
  richTextToPlainText (c1 ++ c2)
  = richTextToPlainText c1 +:+ richTextToPlainText c2.
Proof. unfold richTextToPlainText. by rewrite map_app, join_app. Qed.

Lemma hasContent_withContent (b : Block.t) c t :
  Block.hasContent (Block.withContent b c t) = Block.hasContent b.
Proof. reflexivity. Qed.

Lemma hasContent_paragraph (env : Env) (text : option string) :
  Block.hasContent (createParagraphBlock env text) = true.
Proof. reflexivity. Qed.

Lemma before_after (block : Block.t) (offset : Z) :
  beforeText block offset +:+ afterText block offset
  = richTextToPlainText (Block.content block).
Proof. apply slice_glue. Qed.

Section SplitCases.

Variables (env : Env) (state : EditorState.t) (blockId : BlockId)
  (block : Block.t) (offset : Z).

Hypothesis Hblock : Document.blocks (document state) !! blockId = Some block.
Hypothesis Htext : Block.hasContent block = true.

(** The block is in the root order: the split is carried out. *)
Lemma splitBlock_applied (l1 l2 : list BlockId) :
  Document.rootBlockIds (document state) = l1 ++ blockId :: l2 ->
  blockId ∉ l1 ->
  Store.splitBlock env blockId offset state =
    (withDocument state
       (Document.update (document state)
          (<[createId env 0 := createParagraphBlock env (Some (afterText block offset))]>
             (<[blockId :=
                  Block.withContent block
                    (plainTextToRichText (beforeText block offset))
                    (dateNow env 1)]>
                (Document.blocks (document state))))
          (l1 ++ blockId :: createId env 0 :: l2)
          (dateNow env 2)),
     Returns (createId env 0)).
Proof.
  intros Hroot Hfirst. unfold Store.splitBlock, Store.set_.
  rewrite Hblock, Htext. simpl negb. cbv iota.
  rewrite Hroot.
  assert (Hidx : (indexOf (l1 ++ blockId :: l2) blockId =? -1) = false).
  { rewrite indexOf_first by done. apply Z.eqb_neq. lia. }
  rewrite Hidx.
  pose proof (insert_after_first l1 l2 blockId (createId env 0) Hfirst) as Hins.
  cbv zeta in Hins. simpl Block.id. rewrite Hins. reflexivity.
Qed.

(** The block is in the store but not in the root order: nothing is
    written, and the identifier of the block that was prepared is returned. *)
Lemma splitBlock_not_in_root :
  blockId ∉ Document.rootBlockIds (document state) ->
  Store.splitBlock env blockId offset state = (state, Returns (createId env 0)).
Proof.
  intros Hnot. unfold Store.splitBlock, Store.set_.
  rewrite Hblock, Htext. simpl negb. cbv iota.
  rewrite (indexOf_absent _ _ Hnot). reflexivity.
Qed.

End SplitCases.

Section MergeCases.

Variables (env : Env) (state : EditorState.t) (blockId : BlockId).

(** The block has a preceding sibling and both hold content: the merge is
    carried out. *)
Lemma mergeBlockWithPrevious_applied (l1 l2 : list BlockId) (previousId : BlockId)
    (previousBlock currentBlock : Block.t) :
  Document.rootBlockIds (document state) = l1 ++ previousId :: blockId :: l2 ->
  blockId ∉ l1 ->
  blockId <> previousId ->
  Document.blocks (document state) !! previousId = Some previousBlock ->
  Document.blocks (document state) !! blockId = Some currentBlock ->
  Block.hasContent previousBlock = true ->
  Block.hasContent currentBlock = true ->
  Store.mergeBlockWithPrevious env blockId state =
    (withDocument state
       (Document.update (document state)
          (<[previousId :=
               Block.withContent previousBlock
                 (Block.content previousBlock ++ Block.content currentBlock)
                 (dateNow env 0)]>
             (delete blockId (Document.blocks (document state))))
          (filter (fun id => id <> blockId)
             (Document.rootBlockIds (document state)))
          (dateNow env 1)),
     Returns tt).
Proof.
  intros Hroot Hfirst Hne Hprev Hcur Hp Hc.
  unfold Store.mergeBlockWithPrevious, Store.set_.
  assert (Hidx : indexOf (Document.rootBlockIds (document state)) blockId
                 = Z.of_nat (length l1) + 1).
  { rewrite Hroot.
    change (l1 ++ previousId :: blockId :: l2)
      with (l1 ++ [previousId] ++ blockId :: l2).
    rewrite (assoc_L (++)), indexOf_first.
    - rewrite length_app. simpl. lia.
    - intros Hin. apply elem_of_app in Hin as [Hin|Hin]; [done|].
      apply list_elem_of_singleton in Hin. done. }
  rewrite Hidx.
  destruct (Z.leb_spec (Z.of_nat (length l1) + 1) 0) as [Hle|_]; [lia|].
  assert (Hat : at_ (Document.rootBlockIds (document state))
                  (Z.of_nat (length l1) + 1 - 1) = Some previousId).
  { unfold at_. destruct (Z.ltb_spec (Z.of_nat (length l1) + 1 - 1) 0); [lia|].
    replace (Z.to_nat (Z.of_nat (length l1) + 1 - 1)) with (length l1) by lia.
    rewrite Hroot. by rewrite list_lookup_middle. }
  rewrite Hat. simpl default. rewrite Hprev, Hcur, Hp, Hc. reflexivity.
Qed.

(** The block is the first of the root order, or not in it: no change. *)
Lemma mergeBlockWithPrevious_no_previous :
  indexOf (Document.rootBlockIds (document state)) blockId <= 0 ->
  Store.mergeBlockWithPrevious env blockId state = (state, Returns tt).
Proof.
  intros Hidx. unfold Store.mergeBlockWithPrevious, Store.set_.
  destruct (Z.leb_spec
              (indexOf (Document.rootBlockIds (document state)) blockId) 0);
    [reflexivity | lia].
Qed.

End MergeCases.

End StoreFacts.

(** ** Splitting a block and merging it back *)

Module SplitMerge.

Import JS JSFacts EditorState Spec StoreFacts.

#[local] Arguments richTextToPlainText : simpl never.
#[local] Arguments plainTextToRichText : simpl never.
#[local] Arguments initialContent : simpl never.

Lemma filter_after_insert (l1 l2 : list BlockId) (x y : BlockId) :
  y ∉ l1 ++ x :: l2 ->
  filter (fun id => id <> y) (l1 ++ x :: y :: l2) = l1 ++ x :: l2.
Proof.
  intros Hnot.
  apply not_elem_of_app in Hnot as [Hl1 Hrest].
  apply not_elem_of_cons in Hrest as [Hne Hl2].
  rewrite filter_app, filter_absent by done.
  rewrite filter_cons_True by congruence.
  rewrite filter_cons_False by (intros Hc; by apply Hc).
  by rewrite filter_absent.
Qed.

(** The state after [splitBlock] then [mergeBlockWithPrevious] on the new
    block, when the block that is split is in the root order. *)
Lemma split_then_merge (env1 env2 : Env) (state : EditorState.t)
    (blockId : BlockId) (block : Block.t) (offset : Z) (l1 l2 : list BlockId) :
  Document.blocks (document state) !! blockId = Some block ->
  Block.hasContent block = true ->
  Document.rootBlockIds (document state) = l1 ++ blockId :: l2 ->
  blockId ∉ l1 ->
  createId env1 0 ∉ Document.rootBlockIds (document state) ->
  documentOf
    (Store.mergeBlockWithPrevious env2 (createId env1 0)
       (stateOf (Store.splitBlock env1 blockId offset state)))
  = Document.update (document state)
      (<[blockId :=
           Block.withContent block
             (plainTextToRichText (beforeText block offset)
                ++ plainTextToRichText (afterText block offset))
             (dateNow env2 0)]>
         (delete (createId env1 0)
            (<[createId env1 0 :=
                 createParagraphBlock env1 (Some (afterText block offset))]>
               (<[blockId :=
                    Block.withContent block
                      (plainTextToRichText (beforeText block offset))
                      (dateNow env1 1)]>
                  (Document.blocks (document state))))))
      (l1 ++ blockId :: l2)
      (dateNow env2 1).
Proof.
  intros Hblock Htext Hroot Hfirst Hfresh.
  rewrite (splitBlock_applied env1 state blockId block offset Hblock Htext l1 l2
             Hroot Hfirst).
  unfold stateOf. simpl fst.
  assert (Hne : createId env1 0 <> blockId).
  { intros Heq. apply Hfresh. rewrite Hroot, Heq.
    apply elem_of_app. right. apply elem_of_cons. by left. }
  assert (Hl1 : createId env1 0 ∉ l1).
  { intros Hin. apply Hfresh. rewrite Hroot. apply elem_of_app. by left. }
  erewrite (mergeBlockWithPrevious_applied env2 _ (createId env1 0) l1 l2 blockId);
    [ | reflexivity | exact Hl1 | exact Hne
      | simpl; rewrite lookup_insert_ne by done; apply lookup_insert_eq
      | simpl; apply lookup_insert_eq
      | exact Htext
      | reflexivity ].
  unfold documentOf, stateOf. simpl.
  rewrite filter_after_insert by (by rewrite <- Hroot).
  reflexivity.
Qed.

(** C1 — Split/merge inverse law.  For every state, every block of the store
    that holds content (plain text [T]) and every offset, [splitBlock]
    followed by [mergeBlockWithPrevious] on the block that the split created
    gives back the root order and a block with plain text [T] under the same
    identifier, hence at the same position; timestamps are not compared.
    The identifier the split generates is fresh for the root order.  In
    particular, for plain text "hello world" and offset 5 the split leaves
    "hello" in the block and " world" in a new sibling right after it, and
    the merge restores "hello world". *)
Theorem split_merge_inverse (env1 env2 : Env) (state : EditorState.t)
    (blockId : BlockId) (block : Block.t) (offset : Z) :
  Document.blocks (document state) !! blockId = Some block ->
  Block.hasContent block = true ->
  createId env1 0 ∉ Document.rootBlockIds (document state) ->
  Document.rootBlockIds
    (documentOf
       (Store.mergeBlockWithPrevious env2 (createId env1 0)
          (stateOf (Store.splitBlock env1 blockId offset state))))
  = Document.rootBlockIds (document state)
  /\ plainTextAt
       (documentOf
          (Store.mergeBlockWithPrevious env2 (createId env1 0)
             (stateOf (Store.splitBlock env1 blockId offset state))))
       blockId
     = Some (richTextToPlainText (Block.content block))
  /\ (blockId ∈ Document.rootBlockIds (document state) ->
      richTextToPlainText (Block.content block) = "hello world" ->
      offset = 5 ->
      completionOf (Store.splitBlock env1 blockId offset state)
        = Returns (createId env1 0)
      /\ plainTextAt (documentOf (Store.splitBlock env1 blockId offset state))
           blockId = Some "hello"
      /\ plainTextAt (documentOf (Store.splitBlock env1 blockId offset state))
           (createId env1 0) = Some " world"
      /\ (exists l1 l2,
            Document.rootBlockIds (document state) = l1 ++ blockId :: l2
            /\ (blockId ∉ l1)
            /\ Document.rootBlockIds
                 (documentOf (Store.splitBlock env1 blockId offset state))
               = l1 ++ blockId :: createId env1 0 :: l2)
      /\ plainTextAt
           (documentOf
              (Store.mergeBlockWithPrevious env2 (createId env1 0)
                 (stateOf (Store.splitBlock env1 blockId offset state))))
           blockId
         = Some "hello world").
Proof.
  intros Hblock Htext Hfresh.
  assert (Hround :
    Document.rootBlockIds
      (documentOf
         (Store.mergeBlockWithPrevious env2 (createId env1 0)
            (stateOf (Store.splitBlock env1 blockId offset state))))
    = Document.rootBlockIds (document state)
    /\ plainTextAt
         (documentOf
            (Store.mergeBlockWithPrevious env2 (createId env1 0)
               (stateOf (Store.splitBlock env1 blockId offset state))))
         blockId
       = Some (richTextToPlainText (Block.content block))).
  { destruct (decide (blockId ∈ Document.rootBlockIds (document state)))
      as [Hin|Hnot].
    - destruct (indexOf_present _ _ Hin) as (l1 & l2 & Hroot & Hfirst).
      rewrite (split_then_merge env1 env2 state blockId block offset l1 l2)
        by done.
      split; [by rewrite Hroot|].
      unfold plainTextAt. simpl. rewrite lookup_insert_eq. simpl.
      by rewrite plainText_app, !plainText_of_plainTextToRichText, before_after.
    - rewrite (splitBlock_not_in_root env1 state blockId block offset) by done.
      unfold stateOf. simpl fst.
      rewrite mergeBlockWithPrevious_no_previous
        by (rewrite indexOf_absent by done; lia).
      split; [reflexivity|].
      unfold plainTextAt, documentOf, stateOf. simpl. by rewrite Hblock. }
  destruct Hround as [Hroots Htexts].
  split; [exact Hroots|]. split; [exact Htexts|].
  intros Hin HT ->. rewrite HT in Htexts.
  destruct (indexOf_present _ _ Hin) as (l1 & l2 & Hroot & Hfirst).
  assert (Hne : createId env1 0 <> blockId).
  { intros Heq. apply Hfresh. by rewrite Heq. }
  refine (conj _ (conj _ (conj _ (conj _ Htexts))));
    rewrite (splitBlock_applied env1 state blockId block 5 Hblock Htext l1 l2
               Hroot Hfirst);
    unfold completionOf, documentOf, stateOf, plainTextAt; simpl.
  - reflexivity.
  - rewrite lookup_insert_ne by done. rewrite lookup_insert_eq. simpl.
    rewrite plainText_of_plainTextToRichText. unfold beforeText.
    by rewrite HT.
  - rewrite lookup_insert_eq. simpl.
    change (initialContent (Some (afterText block 5)))
      with (plainTextToRichText (afterText block 5)).
    rewrite plainText_of_plainTextToRichText. unfold afterText.
    by rewrite HT.
  - exists l1, l2. by rewrite Hroot.
Qed.

(** The law at work on the one-paragraph document "hello world". *)
Lemma split_merge_inverse_witness :
  plainTextAt
    (documentOf
       (Store.mergeBlockWithPrevious Sample.env1 "new0"
          (stateOf (Store.splitBlock Sample.env0 "b1" 5 Sample.hello))))
    "b1"
  = Some "hello world".
Proof.
  refine (proj1 (proj2
    (split_merge_inverse Sample.env0 Sample.env1 Sample.hello "b1"
       (Sample.block "b1" "paragraph" "hello world" []) 5 _ _ _))).
  - reflexivity.
  - reflexivity.
  - vm_compute. intros Hin. apply list_elem_of_In in Hin. simpl in Hin.
    destruct Hin as [Heq|[]]. discriminate Heq.
Defined.

End SplitMerge.

(** ** What [splitBlock] writes *)

Module Split.

Import JS JSFacts EditorState Spec StoreFacts.

#[local] Arguments richTextToPlainText : simpl never.
#[local] Arguments plainTextToRichText : simpl never.
#[local] Arguments initialContent : simpl never.

Lemma strTake_app_short (n : nat) (a b : string) :
  (n <= String.length a)%nat -> strTake n (a +:+ b) = strTake n a.
Proof.
  revert a. induction n as [|n IH]; intros a Hn; [by destruct a|].
  destruct a as [|c a]; simpl in Hn; [lia|].
  rewrite str_app_cons. simpl. rewrite IH by lia. reflexivity.
Qed.

Lemma strTake_app_long (n : nat) (a b : string) :
  (String.length a <= n)%nat ->
  strTake n (a +:+ b) = a +:+ strTake (n - String.length a) b.
Proof.
  revert n. induction a as [|c a IH]; intros n Hn.
  - simpl. by rewrite Nat.sub_0_r.
  - destruct n as [|n]; simpl in Hn; [lia|].
    rewrite !str_app_cons. simpl. rewrite IH by lia. reflexivity.
Qed.

Lemma strDrop_app_short (n : nat) (a b : string) :
  (n <= String.length a)%nat -> strDrop n (a +:+ b) = strDrop n a +:+ b.
Proof.
  revert a. induction n as [|n IH]; intros a Hn; [by destruct a|].
  destruct a as [|c a]; simpl in Hn; [lia|].
  rewrite str_app_cons. simpl. apply IH. lia.
Qed.

Lemma strDrop_app_long (n : nat) (a b : string) :
  (String.length a <= n)%nat ->
  strDrop n (a +:+ b) = strDrop (n - String.length a) b.
Proof.
  revert n. induction a as [|c a IH]; intros n Hn.
  - simpl. by rewrite Nat.sub_0_r.
  - destruct n as [|n]; simpl in Hn; [lia|].
    rewrite str_app_cons. simpl. apply IH. lia.
Qed.

Lemma plainText_cons (r : RichText.t) (runs : list RichText.t) :
  richTextToPlainText (r :: runs) = RichText.text r +:+ richTextToPlainText runs.
Proof. unfold richTextToPlainText. simpl map. apply join_cons. Qed.

(** The plain text of the two parts [splitAt] gives is the plain text cut at
    the offset. *)
Lemma splitAt_plainText (runs : list RichText.t) (offset : nat) :
  richTextToPlainText (fst (splitAt runs offset))
    = strTake offset (richTextToPlainText runs)
  /\ richTextToPlainText (snd (splitAt runs offset))
    = strDrop offset (richTextToPlainText runs).
Proof.
  revert offset. induction runs as [|r runs IH]; intros offset.
  - by destruct offset.
  - destruct offset as [|k]; [split; reflexivity|].
    cbn [splitAt].
    destruct (Nat.leb_spec (String.length (RichText.text r)) (S k)) as [Hle|Hlt].
    + destruct (IH (S k - String.length (RichText.text r))%nat) as [IHb IHa].
      destruct (splitAt runs (S k - String.length (RichText.text r))) as [b a].
      cbn [fst snd] in *. rewrite !plainText_cons, IHb, IHa.
      by rewrite strTake_app_long, strDrop_app_long.
    + cbn [fst snd]. rewrite !plainText_cons.
      rewrite strTake_app_short, strDrop_app_short by lia.
      cbn [RichText.text]. split; [|reflexivity].
      unfold richTextToPlainText. simpl. apply str_app_empty_r.
Qed.

(** C10 — [splitBlock] flattens rich text.  Whatever marks the runs of a
    block carry, after a split that is carried out both the block and the
    new block hold at most one run, and no run of theirs has a mark: the
    new block holds the plain text after the offset, and the original block
    (when the generated identifier is not its own) the plain text before
    it. *)
Theorem splitBlock_flattens_marks (env : Env) (state : EditorState.t)
    (blockId : BlockId) (block : Block.t) (offset : Z) :
  Document.blocks (document state) !! blockId = Some block ->
  Block.hasContent block = true ->
  blockId ∈ Document.rootBlockIds (document state) ->
  let blocks' :=
    Document.blocks (documentOf (Store.splitBlock env blockId offset state)) in
  (exists original,
      blocks' !! blockId = Some original
      /\ (length (Block.content original) <= 1)%nat
      /\ Forall (fun r => RichText.marks r = []) (Block.content original)
      /\ (createId env 0 <> blockId ->
          Block.content original
          = plainTextToRichText (beforeText block offset)))
  /\ (exists sibling,
      blocks' !! createId env 0 = Some sibling
      /\ (length (Block.content sibling) <= 1)%nat
      /\ Forall (fun r => RichText.marks r = []) (Block.content sibling)
      /\ Block.content sibling = plainTextToRichText (afterText block offset)).
Proof.
  intros Hblock Htext Hin blocks'.
  destruct (indexOf_present _ _ Hin) as (l1 & l2 & Hroot & Hfirst).
  subst blocks'.
  rewrite (splitBlock_applied env state blockId block offset Hblock Htext l1 l2
             Hroot Hfirst).
  unfold documentOf, stateOf. simpl.
  assert (Hflat : forall s : string,
            (length (plainTextToRichText s) <= 1)%nat
            /\ Forall (fun r => RichText.marks r = []) (plainTextToRichText s)).
  { intros s. unfold plainTextToRichText.
    destruct (truthy s); simpl; split; try lia; repeat constructor. }
  split.
  - destruct (decide (createId env 0 = blockId)) as [Heq|Hne].
    + eexists. rewrite Heq, lookup_insert_eq. split; [reflexivity|].
      cbn [Block.content createParagraphBlock].
      change (initialContent (Some (afterText block offset)))
        with (plainTextToRichText (afterText block offset)).
      destruct (Hflat (afterText block offset)) as [Hlen Hmarks].
      repeat split; done.
    + eexists. rewrite lookup_insert_ne, lookup_insert_eq by done.
      split; [reflexivity|]. cbn [Block.content Block.withContent].
      destruct (Hflat (beforeText block offset)) as [Hlen Hmarks].
      repeat split; done.
  - eexists. rewrite lookup_insert_eq. split; [reflexivity|].
    cbn [Block.content createParagraphBlock].
    change (initialContent (Some (afterText block offset)))
      with (plainTextToRichText (afterText block offset)).
    destruct (Hflat (afterText block offset)) as [Hlen Hmarks].
    repeat split; done.
Qed.

(** A bold run is split: neither part is bold afterwards. *)
Lemma splitBlock_flattens_marks_witness :
  exists original sibling,
    Document.blocks (documentOf (Store.splitBlock Sample.env0 "b1" 1 Sample.boldState))
      !! "b1" = Some original
    /\ Document.blocks (documentOf (Store.splitBlock Sample.env0 "b1" 1 Sample.boldState))
      !! "new0" = Some sibling
    /\ Forall (fun r => RichText.marks r = []) (Block.content original)
    /\ Forall (fun r => RichText.marks r = []) (Block.content sibling).
Proof.
  destruct (splitBlock_flattens_marks Sample.env0 Sample.boldState "b1"
              {| Block.id := "b1"; Block.type := "paragraph";
                 Block.content := [RichText.mk "ab" [Mark.mk Mark.bold None]];
                 Block.children := []; Block.createdAt := 1;
                 Block.updatedAt := 1 |} 1)
    as [(original & Ho & _ & Hmo & _) (sibling & Hs & _ & Hms & _)].
  - reflexivity.
  - reflexivity.
  - apply list_elem_of_In. simpl. by left.
  - exists original, sibling. repeat split; assumption.
Defined.

(** C4 (as stated, refuted) — the original block does not keep the "before"
    runs: splitting the bold run "ab" at offset 1 leaves the run "a" without
    its mark, where the "before" runs of the mark algebra are the bold run
    "a". *)
Lemma splitBlock_before_runs_lose_marks :
  Block.content <$>
    (Document.blocks
       (documentOf (Store.splitBlock Sample.env0 "b1" 1 Sample.boldState))
     !! "b1")
  = Some [RichText.mk "a" []]
  /\ fst (splitAt [RichText.mk "ab" [Mark.mk Mark.bold None]] 1)
     = [RichText.mk "a" [Mark.mk Mark.bold None]]
  /\ Block.content <$>
       (Document.blocks
          (documentOf (Store.splitBlock Sample.env0 "b1" 1 Sample.boldState))
        !! "b1")
     <> Some (fst (splitAt [RichText.mk "ab" [Mark.mk Mark.bold None]] 1)).
Proof.
  split; [reflexivity|]. split; [reflexivity|].
  vm_compute. intros Heq. discriminate Heq.
Qed.

(** C4 (amended) — for every block of the root order that holds content and
    every offset within its plain text, [splitBlock] leaves in the block one
    run without marks that holds the plain text of the "before" runs (no run
    when that text is empty), creates a paragraph that holds the plain text
    of the "after" runs in the same way, whatever the kind of the original,
    places it right after the original in the root order, leaves the other
    blocks as they are, and returns the identifier of the new block. *)
Theorem splitBlock_plain_text_split (env : Env) (state : EditorState.t)
    (blockId : BlockId) (block : Block.t) (offset : Z) (l1 l2 : list BlockId) :
  Document.blocks (document state) !! blockId = Some block ->
  Block.hasContent block = true ->
  Document.rootBlockIds (document state) = l1 ++ blockId :: l2 ->
  blockId ∉ l1 ->
  createId env 0 <> blockId ->
  0 <= offset <= strLength (richTextToPlainText (Block.content block)) ->
  completionOf (Store.splitBlock env blockId offset state)
    = Returns (createId env 0)
  /\ Document.rootBlockIds (documentOf (Store.splitBlock env blockId offset state))
     = l1 ++ blockId :: createId env 0 :: l2
  /\ Document.blocks (documentOf (Store.splitBlock env blockId offset state))
       !! blockId
     = Some (Block.withContent block
               (plainTextToRichText
                  (richTextToPlainText
                     (fst (splitAt (Block.content block) (Z.to_nat offset)))))
               (dateNow env 1))
  /\ Document.blocks (documentOf (Store.splitBlock env blockId offset state))
       !! createId env 0
     = Some {| Block.id := createId env 0;
               Block.type := "paragraph";
               Block.content :=
                 plainTextToRichText
                   (richTextToPlainText
                      (snd (splitAt (Block.content block) (Z.to_nat offset))));
               Block.children := [];
               Block.createdAt := dateNow env 0;
               Block.updatedAt := dateNow env 0 |}
  /\ (forall id, id <> blockId -> id <> createId env 0 ->
        Document.blocks (documentOf (Store.splitBlock env blockId offset state))
          !! id
        = Document.blocks (document state) !! id).
Proof.
  intros Hblock Htext Hroot Hfirst Hne Hrange.
  rewrite (splitBlock_applied env state blockId block offset Hblock Htext l1 l2
             Hroot Hfirst).
  unfold completionOf, documentOf, stateOf. simpl.
  destruct (splitAt_plainText (Block.content block) (Z.to_nat offset))
    as [Hbefore Hafter].
  rewrite Hbefore, Hafter.
  assert (Hb : beforeText block offset
               = strTake (Z.to_nat offset)
                   (richTextToPlainText (Block.content block))).
  { unfold beforeText. rewrite slice_before.
    by rewrite relativeIndex_in_range. }
  assert (Ha : afterText block offset
               = strDrop (Z.to_nat offset)
                   (richTextToPlainText (Block.content block))).
  { unfold afterText. rewrite slice_after.
    by rewrite relativeIndex_in_range. }
  split; [reflexivity|]. split; [reflexivity|]. split.
  { rewrite lookup_insert_ne, lookup_insert_eq by done. by rewrite Hb. }
  split.
  { rewrite lookup_insert_eq. unfold createParagraphBlock.
    change (initialContent (Some (afterText block offset)))
      with (plainTextToRichText (afterText block offset)).
    by rewrite Ha. }
  intros id Hid Hnew. by rewrite !lookup_insert_ne.
Qed.

(** Splitting "hello world" at offset 5. *)
Lemma splitBlock_plain_text_split_witness :
  Document.rootBlockIds
    (documentOf (Store.splitBlock Sample.env0 "b1" 5 Sample.hello))
  = ["b1"; "new0"].
Proof.
  refine (proj1 (proj2
    (splitBlock_plain_text_split Sample.env0 Sample.hello "b1"
       (Sample.block "b1" "paragraph" "hello world" []) 5 [] [] _ _ _ _ _ _))).
  - reflexivity.
  - reflexivity.
  - reflexivity.
  - apply not_elem_of_nil.
  - discriminate.
  - vm_compute. split; discriminate.
Defined.


End Split.

(** ** What [mergeBlockWithPrevious] writes *)

Module Merge.

Import JS JSFacts EditorState Spec StoreFacts.

(** The action reads and writes [content] only.  On a document built by
    hand in which block "b2" lists the child "c1" (no action of the store
    builds one: they leave [children] empty), [mergeBlockWithPrevious "b2"]
    leaves the previous sibling "b1" without child; "c1" is still in the
    store, and neither the root order nor any block lists it. *)
Lemma mergeBlockWithPrevious_drops_children :
  Block.children <$> (Document.blocks (document Sample.nested) !! "b2")
    = Some ["c1"]
  /\ Block.children <$>
       (Document.blocks
          (documentOf (Store.mergeBlockWithPrevious Sample.env0 "b2" Sample.nested))
        !! "b1")
     = Some []
  /\ is_Some
       (Document.blocks
          (documentOf (Store.mergeBlockWithPrevious Sample.env0 "b2" Sample.nested))
        !! "c1")
  /\ ("c1" ∉ Document.rootBlockIds
               (documentOf (Store.mergeBlockWithPrevious Sample.env0 "b2" Sample.nested)))
  /\ map_Forall (fun _ b => "c1" ∉ Block.children b)
       (Document.blocks
          (documentOf (Store.mergeBlockWithPrevious Sample.env0 "b2" Sample.nested))).
Proof.
  split; [reflexivity|]. split; [reflexivity|].
  split; [vm_compute; eauto|].
  split; [apply (bool_decide_unpack _); by vm_compute|].
  apply (bool_decide_unpack _); by vm_compute.
Qed.

(** On every state, when the first occurrence of the block in the root
    order has an immediate predecessor and both hold content,
    [mergeBlockWithPrevious] appends its runs to the runs of the
    predecessor, removes it from the store and removes every occurrence of
    it from the root order, and leaves every other block, and the list of
    children of the predecessor, as they were.  When the block is the first
    of the root order, or is not in it, the state is left unchanged. *)
Theorem mergeBlockWithPrevious_concatenates (env : Env) (state : EditorState.t)
    (blockId : BlockId) :
  (forall (l1 l2 : list BlockId) (previousId : BlockId)
          (previousBlock currentBlock : Block.t),
      Document.rootBlockIds (document state) = l1 ++ previousId :: blockId :: l2 ->
      blockId ∉ l1 ->
      blockId <> previousId ->
      Document.blocks (document state) !! previousId = Some previousBlock ->
      Document.blocks (document state) !! blockId = Some currentBlock ->
      Block.hasContent previousBlock = true ->
      Block.hasContent currentBlock = true ->
      Document.blocks
        (documentOf (Store.mergeBlockWithPrevious env blockId state)) !! previousId
      = Some {| Block.id := Block.id previousBlock;
                Block.type := Block.type previousBlock;
                Block.content :=
                  Block.content previousBlock ++ Block.content currentBlock;
                Block.children := Block.children previousBlock;
                Block.createdAt := Block.createdAt previousBlock;
                Block.updatedAt := dateNow env 0 |}
      /\ Document.blocks
           (documentOf (Store.mergeBlockWithPrevious env blockId state)) !! blockId
         = None
      /\ Document.rootBlockIds
           (documentOf (Store.mergeBlockWithPrevious env blockId state))
         = filter (fun id => id <> blockId) (Document.rootBlockIds (document state))
      /\ (blockId ∉ Document.rootBlockIds
                      (documentOf (Store.mergeBlockWithPrevious env blockId state)))
      /\ (forall id, id <> previousId -> id <> blockId ->
            Document.blocks
              (documentOf (Store.mergeBlockWithPrevious env blockId state)) !! id
            = Document.blocks (document state) !! id))
  /\ (blockId ∉ Document.rootBlockIds (document state)
      \/ (exists l, Document.rootBlockIds (document state) = blockId :: l) ->
      Store.mergeBlockWithPrevious env blockId state = (state, Returns tt)).
Proof.
  split.
  - intros l1 l2 previousId previousBlock currentBlock
      Hroot Hfirst Hne Hprev Hcur Hp Hc.
    rewrite (mergeBlockWithPrevious_applied env state blockId l1 l2 previousId
               previousBlock currentBlock) by done.
    unfold documentOf, stateOf. simpl.
    split; [by rewrite lookup_insert_eq|].
    split; [by rewrite lookup_insert_ne, lookup_delete_eq|].
    split; [reflexivity|].
    split; [apply filter_removes|].
    intros id Hid1 Hid2. by rewrite lookup_insert_ne, lookup_delete_ne.
  - intros [Hnot|[l Hroot]]; apply mergeBlockWithPrevious_no_previous.
    + rewrite indexOf_absent by done. lia.
    + rewrite Hroot. simpl. case_decide; [lia | congruence].
Qed.

(** Merging the second of two paragraphs, and merging the first. *)
Lemma mergeBlockWithPrevious_concatenates_witness :
  Document.rootBlockIds
    (documentOf (Store.mergeBlockWithPrevious Sample.env0 "b2" Sample.two))
  = ["b1"]
  /\ Store.mergeBlockWithPrevious Sample.env0 "b1" Sample.two
     = (Sample.two, Returns tt).
Proof.
  destruct (mergeBlockWithPrevious_concatenates Sample.env0 Sample.two "b2")
    as [Happlied _].
  destruct (mergeBlockWithPrevious_concatenates Sample.env0 Sample.two "b1")
    as [_ Hnoop].
  split.
  - destruct (Happlied [] [] "b1"
                (Sample.block "b1" "paragraph" "hello" [])
                (Sample.block "b2" "paragraph" " world" []))
      as (_ & _ & Hroots & _).
    + reflexivity.
    + apply not_elem_of_nil.
    + discriminate.
    + reflexivity.
    + reflexivity.
    + reflexivity.
    + reflexivity.
    + rewrite Hroots. reflexivity.
  - apply Hnoop. right. by exists ["b2"].
Defined.

End Merge.

(** ** [deleteBlock] *)

Module Delete.

Import JS JSFacts EditorState Spec StoreFacts.

Lemma filter_loses_at_most_one (l : list BlockId) (x : BlockId) :
  NoDup l -> (length l <= S (length (filter (fun id => id <> x) l)))%nat.
Proof.
  induction 1 as [|y l Hy Hnd IH]; [simpl; lia|].
  destruct (decide (y = x)) as [->|Hne].
  - rewrite filter_cons_False by (intros Hc; by apply Hc).
    rewrite filter_absent by done. simpl. lia.
  - rewrite filter_cons_True by done. simpl. lia.
Qed.

(** No path of an action signals an error: every call returns. *)
Lemma actions_return (env : Env) (state : EditorState.t) (blockId : BlockId)
    (content : list RichText.t) (afterBlockId : option BlockId)
    (type : BlockType) (offset : Z) :
  completionOf (Store.updateBlockContent env blockId content state) = Returns tt
  /\ (exists id, completionOf (Store.createBlock env afterBlockId type state)
                 = Returns id)
  /\ completionOf (Store.deleteBlock env blockId state) = Returns tt
  /\ completionOf (Store.mergeBlockWithPrevious env blockId state) = Returns tt
  /\ (exists id, completionOf (Store.splitBlock env blockId offset state)
                 = Returns id).
Proof.
  repeat split; try (eexists; reflexivity).
  unfold Store.splitBlock.
  destruct (Document.blocks (document state) !! blockId) as [block|];
    [destruct (Block.hasContent block)|]; eexists; reflexivity.
Qed.

(** C2 (as stated, refuted) — [deleteBlock] on the only root block does not
    signal [Rejected]: the state is left as it is, and the call returns like
    any other. *)
Lemma deleteBlock_last_root_not_rejected :
  ~ (stateOf (Store.deleteBlock Sample.env0 "b1" Sample.hello) = Sample.hello
     /\ completionOf (Store.deleteBlock Sample.env0 "b1" Sample.hello)
        = Signals Rejected).
Proof. intros [_ Hsignal]. discriminate Hsignal. Qed.

(** C2 (amended) — when the root order has at most one entry, [deleteBlock]
    leaves the state unchanged and returns without signalling anything, in
    both variants of the store; [deleteBlock] never signals an error; and a
    root order without duplicates that is not empty is not empty after
    [deleteBlock]. *)
Theorem deleteBlock_last_root_silent (env : Env) (state : EditorState.t)
    (blockId : BlockId) :
  ((length (Document.rootBlockIds (document state)) <= 1)%nat ->
     Store.deleteBlock env blockId state = (state, Returns tt)
     /\ ImmerStore.deleteBlock env blockId state = (state, Returns tt))
  /\ completionOf (Store.deleteBlock env blockId state) = Returns tt
  /\ (NoDup (Document.rootBlockIds (document state)) ->
      Document.rootBlockIds (document state) <> [] ->
      Document.rootBlockIds (documentOf (Store.deleteBlock env blockId state))
        <> []).
Proof.
  split; [|split; [reflexivity|]].
  - intros Hlen. unfold Store.deleteBlock, ImmerStore.deleteBlock, Store.set_.
    destruct (Z.leb_spec
                (Z.of_nat (length (Document.rootBlockIds (document state)))) 1);
      [split; reflexivity | lia].
  - intros Hnd Hne. unfold Store.deleteBlock, Store.set_, documentOf, stateOf.
    simpl.
    destruct (Z.leb_spec
                (Z.of_nat (length (Document.rootBlockIds (document state)))) 1)
      as [Hle|Hgt]; [exact Hne|].
    simpl. intros Hnil.
    pose proof (filter_loses_at_most_one _ blockId Hnd) as Hcount.
    rewrite Hnil in Hcount. simpl in Hcount. lia.
Qed.

(** Deleting the only block of a document. *)
Lemma deleteBlock_last_root_silent_witness :
  Store.deleteBlock Sample.env0 "b1" Sample.hello = (Sample.hello, Returns tt).
Proof.
  refine (proj1 (proj1 (deleteBlock_last_root_silent Sample.env0 Sample.hello "b1") _)).
  simpl. lia.
Defined.

(** [deleteBlock] of an identifier that nothing resolves, in a document with
    two root blocks or more: the store and the root order keep their
    contents, and the document is stamped with the clock. *)
Lemma deleteBlock_unresolved (env : Env) (state : EditorState.t)
    (blockId : BlockId) :
  (2 <= length (Document.rootBlockIds (document state)))%nat ->
  blockId ∉ Document.rootBlockIds (document state) ->
  Document.blocks (document state) !! blockId = None ->
  documentOf (Store.deleteBlock env blockId state)
  = Document.update (document state) (Document.blocks (document state))
      (Document.rootBlockIds (document state)) (dateNow env 0).
Proof.
  intros Hlen Hroot Hstore.
  unfold Store.deleteBlock, Store.set_, documentOf, stateOf. simpl.
  destruct (Z.leb_spec
              (Z.of_nat (length (Document.rootBlockIds (document state)))) 1);
    [lia|].
  simpl. by rewrite delete_id, filter_absent.
Qed.

(** The actions that do not apply and leave the state untouched. *)
Lemma not_applied_unchanged (env : Env) (state : EditorState.t)
    (blockId : BlockId) (offset : Z) :
  ((length (Document.rootBlockIds (document state)) <= 1)%nat ->
     stateOf (Store.deleteBlock env blockId state) = state)
  /\ (indexOf (Document.rootBlockIds (document state)) blockId <= 0 ->
     stateOf (Store.mergeBlockWithPrevious env blockId state) = state)
  /\ (Document.blocks (document state) !! blockId = None ->
     Store.splitBlock env blockId offset state = (state, Returns "")).
Proof.
  split; [|split].
  - intros Hlen. unfold Store.deleteBlock, Store.set_, stateOf. simpl.
    destruct (Z.leb_spec
                (Z.of_nat (length (Document.rootBlockIds (document state)))) 1);
      [reflexivity | lia].
  - intros Hidx. by rewrite mergeBlockWithPrevious_no_previous.
  - intros Hnone. unfold Store.splitBlock. by rewrite Hnone.
Qed.

(** C7 — all-or-nothing fails for [deleteBlock] of an unknown identifier.
    In the document with the two root blocks "b1" and "b2", whose
    [updatedAt] is 1, [deleteBlock "ghost"] at clock 1000 removes nothing
    (the store and the root order are what they were) and yet returns a
    document whose [updatedAt] is 1000, in both variants of the store. *)
Theorem deleteBlock_unknown_id_stamps_document :
  Document.blocks (document Sample.two) !! "ghost" = None
  /\ ("ghost" ∉ Document.rootBlockIds (document Sample.two))
  /\ Document.blocks (documentOf (Store.deleteBlock Sample.env0 "ghost" Sample.two))
     = Document.blocks (document Sample.two)
  /\ Document.rootBlockIds
       (documentOf (Store.deleteBlock Sample.env0 "ghost" Sample.two))
     = Document.rootBlockIds (document Sample.two)
  /\ Document.updatedAt (document Sample.two) = 1
  /\ Document.updatedAt
       (documentOf (Store.deleteBlock Sample.env0 "ghost" Sample.two))
     = 1000
  /\ documentOf (Store.deleteBlock Sample.env0 "ghost" Sample.two)
     <> document Sample.two
  /\ Document.updatedAt
       (documentOf (ImmerStore.deleteBlock Sample.env0 "ghost" Sample.two))
     = 1000.
Proof.
  assert (Hnone : Document.blocks (document Sample.two) !! "ghost" = None)
    by reflexivity.
  assert (Hroot : "ghost" ∉ Document.rootBlockIds (document Sample.two)).
  { apply (bool_decide_unpack _). by vm_compute. }
  pose proof (deleteBlock_unresolved Sample.env0 Sample.two "ghost"
                ltac:(simpl; lia) Hroot Hnone) as Hdoc.
  rewrite Hdoc.
  repeat split; done.
Qed.

End Delete.

(** ** [createBlock] *)

Module Create.

Import JS JSFacts EditorState Spec StoreFacts.

(** The block built for a type has that type, the generated identifier, no
    content and no children. *)
Lemma newBlockOfType_spec (env : Env) (type : BlockType) :
  Store.newBlockOfType env type
  = {| Block.id := createId env 0;
       Block.type := typeName type;
       Block.content := [];
       Block.children := [];
       Block.createdAt := dateNow env 0;
       Block.updatedAt := dateNow env 0 |}.
Proof. destruct type; reflexivity. Qed.

(** C3 (as stated, refuted) — [createBlock] after an identifier that nothing
    resolves does not fail: in the document whose only block is "b1",
    [createBlock "ghost"] returns the identifier of a new block, which is
    then in the store and at the end of the root order. *)
Lemma createBlock_unresolved_inserts :
  Document.blocks (document Sample.hello) !! "ghost" = None
  /\ completionOf (Store.createBlock Sample.env0 (Some "ghost") paragraph Sample.hello)
     = Returns "new0"
  /\ Document.rootBlockIds
       (documentOf (Store.createBlock Sample.env0 (Some "ghost") paragraph Sample.hello))
     = ["b1"; "new0"]
  /\ is_Some
       (Document.blocks
          (documentOf (Store.createBlock Sample.env0 (Some "ghost") paragraph Sample.hello))
        !! "new0")
  /\ ~ (completionOf (Store.createBlock Sample.env0 (Some "ghost") paragraph Sample.hello)
        = Signals NotFound
        /\ documentOf (Store.createBlock Sample.env0 (Some "ghost") paragraph Sample.hello)
           = document Sample.hello).
Proof.
  split; [reflexivity|]. split; [reflexivity|]. split; [reflexivity|].
  split; [vm_compute; eauto|].
  intros [Hsignal _]. discriminate Hsignal.
Qed.

(** C3 (amended) — when [afterBlockId] is not in the root order (in
    particular when it resolves to no block), [createBlock] adds the new
    block to the store, appends its identifier to the end of the root
    order, and returns that identifier; both variants of the store do so. *)
Theorem createBlock_unresolved_appends (env : Env) (state : EditorState.t)
    (afterBlockId : BlockId) (type : BlockType) :
  afterBlockId ∉ Document.rootBlockIds (document state) ->
  Store.createBlock env (Some afterBlockId) type state
  = (withDocument state
       (Document.update (document state)
          (<[createId env 0 :=
               {| Block.id := createId env 0;
                  Block.type := typeName type;
                  Block.content := [];
                  Block.children := [];
                  Block.createdAt := dateNow env 0;
                  Block.updatedAt := dateNow env 0 |}]>
             (Document.blocks (document state)))
          (Document.rootBlockIds (document state) ++ [createId env 0])
          (dateNow env 1)),
     Returns (createId env 0))
  /\ ImmerStore.createBlock env (Some afterBlockId) type state
     = Store.createBlock env (Some afterBlockId) type state.
Proof.
  intros Hnot.
  unfold Store.createBlock, ImmerStore.createBlock, ImmerStore.assign, Store.set_.
  rewrite newBlockOfType_spec. simpl Block.id.
  rewrite (indexOf_absent _ _ Hnot). simpl. split; reflexivity.
Qed.

(** Creating a heading after a block that does not exist. *)
Lemma createBlock_unresolved_appends_witness :
  Document.rootBlockIds
    (documentOf (Store.createBlock Sample.env0 (Some "ghost") heading1 Sample.hello))
  = ["b1"; "new0"].
Proof.
  assert (Hghost : "ghost" ∉ Document.rootBlockIds (document Sample.hello)).
  { apply (bool_decide_unpack _). by vm_compute. }
  rewrite (proj1 (createBlock_unresolved_appends Sample.env0 Sample.hello
                    "ghost" heading1 Hghost)).
  reflexivity.
Defined.

End Create.

(** ** Normalization of run sequences *)

Module Normalization.

Import JS JSFacts EditorState Spec StoreFacts.

Lemma normalized_plainTextToRichText (text : string) :
  normalized (plainTextToRichText text) = true.
Proof. unfold plainTextToRichText. by destruct text. Qed.

Lemma noEmptyRun_app (c1 c2 : list RichText.t) :
  noEmptyRun (c1 ++ c2) = noEmptyRun c1 && noEmptyRun c2.
Proof. apply forallb_app. Qed.

Lemma normalized_noEmptyRun (runs : list RichText.t) :
  normalized runs = true -> noEmptyRun runs = true.
Proof. unfold normalized. by intros [H _]%andb_true_iff. Qed.

(** C6 (as stated, refuted) — normalization is not preserved by
    [mergeBlockWithPrevious] and [updateBlockContent].  From the initial
    store, typing "hello world", splitting at 5 and merging the new block
    back goes through normalized documents and ends in a document whose
    first block holds the two adjacent runs "hello" and " world" with the
    same (empty) format-set; and [updateBlockContent] stores a run with
    empty text as it is given. *)
Lemma merge_breaks_normalization :
  documentNormalized (document (Store.initialState Sample.envInit))
  /\ documentNormalized (document Sample.typed)
  /\ documentNormalized (document Sample.typedSplit)
  /\ Block.content <$> (Document.blocks (document Sample.typedSplitMerged) !! "init0")
     = Some [RichText.mk "hello" []; RichText.mk " world" []]
  /\ ~ documentNormalized (document Sample.typedSplitMerged)
  /\ ~ documentNormalized
         (documentOf (Store.updateBlockContent Sample.env0 "init0"
                        [RichText.mk "" []]
                        (Store.initialState Sample.envInit))).
Proof.
  assert (Hdec : forall d : Document.t,
            bool_decide
              (map_Forall (fun _ b => normalized (Block.content b) = true)
                 (Document.blocks d)) = true ->
            documentNormalized d).
  { intros d Hd. apply bool_decide_eq_true in Hd. exact Hd. }
  split; [apply Hdec; by vm_compute|].
  split; [apply Hdec; by vm_compute|].
  split; [apply Hdec; by vm_compute|].
  split; [reflexivity|].
  split.
  - intros Hnorm.
    specialize (Hnorm "init0"
      {| Block.id := "init0"; Block.type := "paragraph";
         Block.content := [RichText.mk "hello" []; RichText.mk " world" []];
         Block.children := []; Block.createdAt := 1; Block.updatedAt := 2000 |}
      eq_refl).
    discriminate Hnorm.
  - intros Hnorm.
    specialize (Hnorm "init0"
      {| Block.id := "init0"; Block.type := "paragraph";
         Block.content := [RichText.mk "" []];
         Block.children := []; Block.createdAt := 1; Block.updatedAt := 1000 |}
      eq_refl).
    discriminate Hnorm.
Qed.

(** C6 (amended) — [splitBlock], [createBlock] and [deleteBlock] preserve
    normalization: when every block of the document holds a normalized run
    sequence, so does every block of the document they return.
    [mergeBlockWithPrevious] concatenates the two run sequences as they
    are, which keeps every run non-empty but does not merge the two runs
    that become adjacent; [updateBlockContent] stores the run sequence it
    is given. *)
Theorem structural_actions_preserve_normalization (env : Env)
    (state : EditorState.t) :
  documentNormalized (document state) ->
  (forall blockId offset,
      documentNormalized (documentOf (Store.splitBlock env blockId offset state)))
  /\ (forall afterBlockId type,
      documentNormalized (documentOf (Store.createBlock env afterBlockId type state)))
  /\ (forall blockId,
      documentNormalized (documentOf (Store.deleteBlock env blockId state)))
  /\ (forall blockId id block,
      Document.blocks
        (documentOf (Store.mergeBlockWithPrevious env blockId state)) !! id
      = Some block ->
      noEmptyRun (Block.content block) = true)
  /\ (forall blockId content,
      Block.content <$>
        (Document.blocks
           (documentOf (Store.updateBlockContent env blockId content state))
         !! blockId)
      = Block.content <$> (Document.blocks (document state) !! blockId)
      \/ Block.content <$>
           (Document.blocks
              (documentOf (Store.updateBlockContent env blockId content state))
            !! blockId)
         = Some content).
Proof.
  intros Hnorm.
  change (map_Forall (fun _ b => normalized (Block.content b) = true)
            (Document.blocks (document state))) in Hnorm.
  split; [|split; [|split; [|split]]].
  - intros blockId offset. unfold Store.splitBlock, Store.set_.
    destruct (Document.blocks (document state) !! blockId) as [block|];
      [|exact Hnorm].
    destruct (Block.hasContent block); [|exact Hnorm]. simpl negb. cbv iota.
    unfold documentOf, stateOf. cbn [fst].
    destruct (indexOf (Document.rootBlockIds (document state)) blockId =? -1);
      [exact Hnorm|].
    cbn [document withDocument Document.blocks Document.update].
    apply map_Forall_insert_2; [apply normalized_plainTextToRichText|].
    apply map_Forall_insert_2; [apply normalized_plainTextToRichText|].
    exact Hnorm.
  - intros afterBlockId type. unfold Store.createBlock, Store.set_.
    unfold documentOf, stateOf.
    cbn [fst document withDocument Document.blocks Document.update].
    apply map_Forall_insert_2; [|exact Hnorm].
    by rewrite Create.newBlockOfType_spec.
  - intros blockId. unfold Store.deleteBlock, Store.set_, documentOf, stateOf.
    cbn [fst].
    destruct (Z.of_nat (length (Document.rootBlockIds (document state))) <=? 1);
      [exact Hnorm|].
    cbn [document withDocument Document.blocks Document.update].
    by apply map_Forall_delete.
  - intros blockId.
    change (map_Forall (fun _ b => noEmptyRun (Block.content b) = true)
              (Document.blocks
                 (documentOf (Store.mergeBlockWithPrevious env blockId state)))).
    assert (Hruns : map_Forall (fun _ b => noEmptyRun (Block.content b) = true)
                      (Document.blocks (document state))).
    { intros id b Hb. apply normalized_noEmptyRun. by apply (Hnorm id). }
    unfold Store.mergeBlockWithPrevious, Store.set_, documentOf, stateOf.
    cbn [fst].
    destruct (indexOf (Document.rootBlockIds (document state)) blockId <=? 0);
      [exact Hruns|].
    destruct (Document.blocks (document state) !! default "undefined" _)
      as [previousBlock|] eqn:Hprev; [|exact Hruns].
    destruct (Document.blocks (document state) !! blockId)
      as [currentBlock|] eqn:Hcur; [|exact Hruns].
    destruct (Block.hasContent previousBlock && Block.hasContent currentBlock);
      [|exact Hruns].
    cbn [document withDocument Document.blocks Document.update].
    apply map_Forall_insert_2; [|by apply map_Forall_delete].
    cbn [Block.content Block.withContent]. rewrite noEmptyRun_app.
    by rewrite (Hruns _ _ Hprev), (Hruns _ _ Hcur).
  - intros blockId content.
    unfold Store.updateBlockContent, Store.set_, documentOf, stateOf.
    cbn [fst].
    destruct (Document.blocks (document state) !! blockId) as [block|] eqn:Hb;
      [|left; by rewrite Hb].
    destruct (Block.hasContent block); [|left; by rewrite Hb].
    right. cbn [document withDocument Document.blocks Document.update].
    by rewrite lookup_insert_eq.
Qed.

(** The document that holds "hello world" stays normalized when split. *)
Lemma structural_actions_preserve_normalization_witness :
  documentNormalized (documentOf (Store.splitBlock Sample.env0 "b1" 5 Sample.hello)).
Proof.
  refine (proj1 (structural_actions_preserve_normalization Sample.env0
                   Sample.hello _) "b1" 5).
  change (map_Forall (fun _ b => normalized (Block.content b) = true)
            (Document.blocks (document Sample.hello))).
  apply (bool_decide_unpack _). by vm_compute.
Defined.

End Normalization.

(** ** Dependence of the actions on the environment *)

Module Determinism.

Import JS JSFacts EditorState Spec StoreFacts.

Lemma withoutTimes_update (d : Document.t) (blocks : gmap string Block.t)
    (rootBlockIds : list BlockId) (t : Z) :
  withoutTimes (Document.update d blocks rootBlockIds t)
  = {| Document.id := Document.id d; Document.title := Document.title d;
       Document.rootBlockIds := rootBlockIds;
       Document.blocks := blockWithoutTimes <$> blocks;
       Document.createdAt := 0; Document.updatedAt := 0 |}.
Proof. reflexivity. Qed.

Lemma blockWithoutTimes_withContent (b : Block.t) (c : list RichText.t) (t1 t2 : Z) :
  blockWithoutTimes (Block.withContent b c t1)
  = blockWithoutTimes (Block.withContent b c t2).
Proof. reflexivity. Qed.

Lemma blockWithoutTimes_paragraph (env1 env2 : Env) (text : option string) :
  createId env1 0 = createId env2 0 ->
  blockWithoutTimes (createParagraphBlock env1 text)
  = blockWithoutTimes (createParagraphBlock env2 text).
Proof.
  intros Hid. unfold createParagraphBlock, blockWithoutTimes. simpl.
  by rewrite Hid.
Qed.

Lemma blockWithoutTimes_newBlock (env1 env2 : Env) (type : BlockType) :
  createId env1 0 = createId env2 0 ->
  blockWithoutTimes (Store.newBlockOfType env1 type)
  = blockWithoutTimes (Store.newBlockOfType env2 type).
Proof.
  intros Hid. rewrite !Create.newBlockOfType_spec.
  unfold blockWithoutTimes. simpl. by rewrite Hid.
Qed.

(** C8 (as stated, refuted) — the document an action returns depends on the
    clock.  Two calls of [updateBlockContent], an action that generates no
    identifier, with the same state and the same arguments return different
    documents when [Date.now()] reads 1000 in one and 2000 in the other. *)
Lemma updateBlockContent_depends_on_clock :
  sameIds Sample.env0 Sample.env1
  /\ documentOf (Store.updateBlockContent Sample.env0 "b1"
                   [RichText.mk "bye" []] Sample.hello)
     <> documentOf (Store.updateBlockContent Sample.env1 "b1"
                      [RichText.mk "bye" []] Sample.hello).
Proof.
  split; [intros n; reflexivity|].
  intros Heq. apply (f_equal Document.updatedAt) in Heq.
  vm_compute in Heq. discriminate Heq.
Qed.

(** C8 (amended) — the actions are deterministic up to identifier
    generation and the clock: two calls with the same state and the same
    arguments, in environments that generate the same identifiers, complete
    in the same way and return documents that are equal once the
    timestamps are blanked, whatever [Date.now()] reads in each. *)
Theorem actions_deterministic_up_to_clock (env1 env2 : Env)
    (state : EditorState.t) :
  sameIds env1 env2 ->
  (forall blockId content,
      withoutTimes (documentOf (Store.updateBlockContent env1 blockId content state))
      = withoutTimes (documentOf (Store.updateBlockContent env2 blockId content state))
      /\ completionOf (Store.updateBlockContent env1 blockId content state)
         = completionOf (Store.updateBlockContent env2 blockId content state))
  /\ (forall afterBlockId type,
      withoutTimes (documentOf (Store.createBlock env1 afterBlockId type state))
      = withoutTimes (documentOf (Store.createBlock env2 afterBlockId type state))
      /\ completionOf (Store.createBlock env1 afterBlockId type state)
         = completionOf (Store.createBlock env2 afterBlockId type state))
  /\ (forall blockId,
      withoutTimes (documentOf (Store.deleteBlock env1 blockId state))
      = withoutTimes (documentOf (Store.deleteBlock env2 blockId state))
      /\ completionOf (Store.deleteBlock env1 blockId state)
         = completionOf (Store.deleteBlock env2 blockId state))
  /\ (forall blockId,
      withoutTimes (documentOf (Store.mergeBlockWithPrevious env1 blockId state))
      = withoutTimes (documentOf (Store.mergeBlockWithPrevious env2 blockId state))
      /\ completionOf (Store.mergeBlockWithPrevious env1 blockId state)
         = completionOf (Store.mergeBlockWithPrevious env2 blockId state))
  /\ (forall blockId offset,
      withoutTimes (documentOf (Store.splitBlock env1 blockId offset state))
      = withoutTimes (documentOf (Store.splitBlock env2 blockId offset state))
      /\ completionOf (Store.splitBlock env1 blockId offset state)
         = completionOf (Store.splitBlock env2 blockId offset state)).
Proof.
  intros Hids. pose proof (Hids 0%nat) as Hid.
  split; [|split; [|split; [|split]]].
  - intros blockId content. split; [|reflexivity].
    unfold Store.updateBlockContent, Store.set_, documentOf, stateOf.
    cbn [fst].
    destruct (Document.blocks (document state) !! blockId) as [block|];
      [|reflexivity].
    destruct (Block.hasContent block); [|reflexivity].
    cbn [document withDocument]. rewrite !withoutTimes_update, !fmap_insert.
    by rewrite (blockWithoutTimes_withContent block content
                  (dateNow env1 0) (dateNow env2 0)).
  - intros afterBlockId type.
    unfold Store.createBlock, Store.set_, documentOf, stateOf, completionOf.
    cbn [fst snd document withDocument].
    rewrite !withoutTimes_update, !fmap_insert.
    rewrite (blockWithoutTimes_newBlock env1 env2 type Hid).
    rewrite !Create.newBlockOfType_spec. cbn [Block.id]. rewrite Hid.
    split; reflexivity.
  - intros blockId. split; [|reflexivity].
    unfold Store.deleteBlock, Store.set_, documentOf, stateOf. cbn [fst].
    destruct (Z.of_nat (length (Document.rootBlockIds (document state))) <=? 1);
      reflexivity.
  - intros blockId. split; [|reflexivity].
    unfold Store.mergeBlockWithPrevious, Store.set_, documentOf, stateOf.
    cbn [fst].
    destruct (indexOf (Document.rootBlockIds (document state)) blockId <=? 0);
      [reflexivity|].
    destruct (Document.blocks (document state) !! default "undefined" _)
      as [previousBlock|]; [|reflexivity].
    destruct (Document.blocks (document state) !! blockId)
      as [currentBlock|]; [|reflexivity].
    destruct (Block.hasContent previousBlock && Block.hasContent currentBlock);
      [|reflexivity].
    cbn [document withDocument]. rewrite !withoutTimes_update, !fmap_insert.
    by rewrite (blockWithoutTimes_withContent previousBlock _
                  (dateNow env1 0) (dateNow env2 0)).
  - intros blockId offset.
    unfold Store.splitBlock, Store.set_, documentOf, stateOf, completionOf.
    destruct (Document.blocks (document state) !! blockId) as [block|];
      [|split; reflexivity].
    destruct (Block.hasContent block); [|split; reflexivity].
    simpl negb. cbv iota. cbn [fst snd].
    cbn [Block.id createParagraphBlock]. rewrite Hid.
    split; [|reflexivity].
    destruct (indexOf (Document.rootBlockIds (document state)) blockId =? -1);
      [reflexivity|].
    cbn [document withDocument]. rewrite !withoutTimes_update, !fmap_insert.
    rewrite (blockWithoutTimes_withContent block _
               (dateNow env1 1) (dateNow env2 1)).
    by rewrite (blockWithoutTimes_paragraph env1 env2 _ Hid).
Qed.

(** Two calls at different times agree once the timestamps are blanked. *)
Lemma actions_deterministic_up_to_clock_witness :
  withoutTimes (documentOf (Store.splitBlock Sample.env0 "b1" 5 Sample.hello))
  = withoutTimes (documentOf (Store.splitBlock Sample.env1 "b1" 5 Sample.hello)).
Proof.
  refine (proj1 (proj2 (proj2 (proj2 (proj2
    (actions_deterministic_up_to_clock Sample.env0 Sample.env1 Sample.hello _))))
    "b1" 5)).
  intros n. reflexivity.
Defined.

End Determinism.

(** ** The history state machine *)

Module HistoryFacts.

Import JS JSFacts History Scenario Spec.

(** Unfold the shapes of the store. *)
Ltac shapes := unfold batchOptions, idle, batchOpen, flushed.

Lemma filter_own_handle (k : nat) (due : Z) :
  filter (fun p : nat * Z => fst p <> k) [(k, due)] = [].
Proof. rewrite filter_cons_False by (intros Hc; by apply Hc). reflexivity. Qed.

(** Idle, text-edit commit: a batch opens. *)
Lemma commit_opens_batch e h c n (b op : string) :
  truthy b = true ->
  pushHistory op (batchOptions b) (idle e h c n)
  = batchOpen e h b op n (c + BATCH_TIMEOUT) c (S n).
Proof.
  intros Hb. shapes. unfold pushHistory, batchKey. rewrite Hb. reflexivity.
Qed.

(** Batch open, text-edit commit on the same block: the deadline moves, no
    entry is pushed. *)
Lemma commit_extends_batch e h c n k due (b op : string) :
  truthy b = true ->
  pushHistory op (batchOptions b) (batchOpen e h b op k due c n)
  = batchOpen e h b op n (c + BATCH_TIMEOUT) c (S n).
Proof.
  intros Hb. shapes. unfold pushHistory, batchKey. rewrite Hb. simpl.
  rewrite !String.eqb_refl. simpl.
  unfold schedule, setTimeout, clearTimeout, setTimers, setPendingBatch. simpl.
  rewrite filter_own_handle. reflexivity.
Qed.

(** Batch open, text-edit commit on another block: the open batch is flushed
    as an entry with the document as it is now, and a batch opens for the
    other block. *)
Lemma commit_switches_batch e h c n k due (b b' op : string) :
  truthy b' = true ->
  b <> b' ->
  pushHistory op (batchOptions b') (batchOpen e h b op k due c n)
  = batchOpen e (flushed h (EditorState.document e) c op)
      b' op n (c + BATCH_TIMEOUT) c (S n).
Proof.
  intros Hb Hne. shapes. unfold pushHistory, batchKey. rewrite Hb. simpl.
  apply String.eqb_neq in Hne. rewrite Hne. simpl.
  unfold schedule, commitBatch, setTimeout, clearTimeout, setTimers,
    setPendingBatch, setHistory. simpl.
  rewrite filter_own_handle. reflexivity.
Qed.

(** Batch open, less time elapses than the deadline needs: nothing fires. *)
Lemma elapse_within_quiet_interval e h c n k due (b op : string) (ms : Z) :
  c + ms < due ->
  elapse ms (batchOpen e h b op k due c n)
  = batchOpen e h b op k due (c + ms) n.
Proof.
  intros Hquiet. shapes. unfold elapse. simpl.
  destruct (Z.leb_spec due (c + ms)) as [Hle|_]; [lia | reflexivity].
Qed.

(** Batch open, the deadline elapses: the batch is flushed as an entry. *)
Lemma elapse_flushes_batch e h c n k due (b op : string) (ms : Z) :
  due <= c + ms ->
  elapse ms (batchOpen e h b op k due c n)
  = idle e (flushed h (EditorState.document e) (Z.max c due) op) (c + ms) n.
Proof.
  intros Hdue. shapes. unfold elapse. simpl.
  destruct (Z.leb_spec due (c + ms)) as [_|Hlt]; [|lia].
  unfold commitBatch, clearTimeout, setTimers, setPendingBatch, setHistory.
  simpl. rewrite ?filter_own_handle. simpl. rewrite ?filter_own_handle.
  reflexivity.
Qed.

(** Idle, undo with an entry before the pointer: the pointer moves back and
    the document of that entry becomes the live document. *)
Lemma undo_restores_previous e h c n (entry : HistoryEntry) :
  0 < currentIndex h ->
  at_ (entries h) (currentIndex h - 1) = Some entry ->
  undo (idle e h c n)
  = idle (EditorState.withDocument e (entryDocument entry))
      (withEntries h (entries h) (currentIndex h - 1)) c n.
Proof.
  intros Hidx Hentry. shapes. unfold undo. simpl.
  destruct (Z.leb_spec (currentIndex h) 0) as [Hle|_]; [lia|].
  rewrite Hentry. reflexivity.
Qed.

(** The steps of the machine, on the two shapes of the store. *)
Lemma step_edit_idle e h c n action :
  step (idle e h c n) (Edit action) = idle (action e) h c n.
Proof. reflexivity. Qed.

Lemma step_edit_batchOpen e h b op k due c n action :
  step (batchOpen e h b op k due c n) (Edit action)
  = batchOpen (action e) h b op k due c n.
Proof. reflexivity. Qed.

Lemma step_typing_idle e h c n (b : string) :
  truthy b = true ->
  step (idle e h c n) (typing b)
  = batchOpen e h b "typing" n (c + BATCH_TIMEOUT) c (S n).
Proof. apply commit_opens_batch. Qed.

Lemma step_typing_same e h c n k due (b : string) :
  truthy b = true ->
  step (batchOpen e h b "typing" k due c n) (typing b)
  = batchOpen e h b "typing" n (c + BATCH_TIMEOUT) c (S n).
Proof. apply commit_extends_batch. Qed.

Lemma step_typing_other e h c n k due (b b' : string) :
  truthy b' = true ->
  b <> b' ->
  step (batchOpen e h b "typing" k due c n) (typing b')
  = batchOpen e (flushed h (EditorState.document e) c "typing")
      b' "typing" n (c + BATCH_TIMEOUT) c (S n).
Proof. apply commit_switches_batch. Qed.

Lemma step_elapse_quiet e h c n k due (b op : string) (ms : Z) :
  c + ms < due ->
  step (batchOpen e h b op k due c n) (Elapse ms)
  = batchOpen e h b op k due (c + ms) n.
Proof. apply elapse_within_quiet_interval. Qed.

Lemma step_elapse_deadline e h c n k due (b op : string) (ms : Z) :
  due <= c + ms ->
  step (batchOpen e h b op k due c n) (Elapse ms)
  = idle e (flushed h (EditorState.document e) (Z.max c due) op) (c + ms) n.
Proof. apply elapse_flushes_batch. Qed.

(** The store at the end of the batching scenario. *)
Lemma batching_final_state (e0 : EditorState.t) (b1 b2 : string)
    (e1 e1' e2 e2' e3 e3' e4 e4' : EditorState.t -> EditorState.t)
    (g1 g2 g3 g4 : Z) :
  truthy b1 = true -> truthy b2 = true -> b1 <> b2 ->
  0 <= g1 < BATCH_TIMEOUT -> 0 <= g2 < BATCH_TIMEOUT ->
  0 <= g3 < BATCH_TIMEOUT -> BATCH_TIMEOUT <= g4 ->
  run (batching b1 b2 e1 e1' e2 e2' e3 e3' e4 e4' g1 g2 g3 g4) (init e0)
  = idle (e4' (e4 (e3' (e3 (e2' (e2 (e1' (e1 e0))))))))
      {| entries :=
           [ {| entryDocument :=
                  EditorState.document (e4 (e3' (e3 (e2' (e2 (e1' (e1 e0)))))));
                timestamp := g1 + g2 + g3;
                entryOperationType := "typing" |};
             {| entryDocument :=
                  EditorState.document
                    (e4' (e4 (e3' (e3 (e2' (e2 (e1' (e1 e0))))))));
                timestamp := g1 + g2 + g3 + BATCH_TIMEOUT;
                entryOperationType := "typing" |} ];
         currentIndex := 1;
         maxEntries := 100 |}
      (g1 + g2 + g3 + g4) 4.
Proof.
  intros Hb1 Hb2 Hne Hg1 Hg2 Hg3 Hg4. unfold BATCH_TIMEOUT in *.
  unfold batching, run. cbn [fold_left].
  change (init e0)
    with (idle e0 {| entries := []; currentIndex := -1; maxEntries := 100 |} 0 0).
  rewrite step_edit_idle, step_typing_idle, step_edit_batchOpen by done.
  rewrite step_elapse_quiet by (unfold BATCH_TIMEOUT; lia).
  rewrite step_edit_batchOpen, step_typing_same, step_edit_batchOpen by done.
  rewrite step_elapse_quiet by (unfold BATCH_TIMEOUT; lia).
  rewrite step_edit_batchOpen, step_typing_same, step_edit_batchOpen by done.
  rewrite step_elapse_quiet by (unfold BATCH_TIMEOUT; lia).
  rewrite step_edit_batchOpen, step_typing_other, step_edit_batchOpen by done.
  rewrite step_elapse_deadline by (unfold BATCH_TIMEOUT; lia).
  unfold flushed, idle, withEntries, BATCH_TIMEOUT. cbn.
  repeat f_equal; lia.
Qed.

(** C9 (as stated, refuted) — after the batching sequence a single undo does
    not restore the document of before the first edit.  "a", "ab", "abc"
    are typed into "b1" and "x" into "b2", within the quiet interval, and
    the deadline elapses: two entries are committed, and after one undo
    "b1" still reads "abc" (it read "hello" before the first edit), whether
    each edit runs before its commit or after it. *)
Lemma undo_after_batching_keeps_edits :
  plainTextAt (document (init Sample.two)) "b1" = Some "hello"
  /\ length (entries (history (run editThenCommit (init Sample.two)))) = 2%nat
  /\ plainTextAt (document (undo (run editThenCommit (init Sample.two)))) "b1"
     = Some "abc"
  /\ document (undo (run editThenCommit (init Sample.two)))
     <> document (init Sample.two)
  /\ length (entries (history (run commitThenEdit (init Sample.two)))) = 2%nat
  /\ plainTextAt (document (undo (run commitThenEdit (init Sample.two)))) "b1"
     = Some "abc"
  /\ document (undo (run commitThenEdit (init Sample.two)))
     <> document (init Sample.two).
Proof.
  assert (Hdiffer : forall d : Document.t,
            plainTextAt d "b1" = Some "abc" -> d <> document (init Sample.two)).
  { intros d Hd Heq. rewrite Heq in Hd. vm_compute in Hd. discriminate Hd. }
  assert (H1 : plainTextAt
                 (document (undo (run editThenCommit (init Sample.two)))) "b1"
               = Some "abc") by (vm_compute; reflexivity).
  assert (H2 : plainTextAt
                 (document (undo (run commitThenEdit (init Sample.two)))) "b1"
               = Some "abc") by (vm_compute; reflexivity).
  split; [vm_compute; reflexivity|].
  split; [vm_compute; reflexivity|].
  split; [exact H1|]. split; [exact (Hdiffer _ H1)|].
  split; [vm_compute; reflexivity|].
  split; [exact H2|]. exact (Hdiffer _ H2).
Qed.

(** C9 (amended) — three consecutive text-edit commits on block [b1], each
    less than the quiet interval (500) after the one before, followed
    within the quiet interval by a commit on block [b2] and by the elapse of
    the deadline, commit exactly two history entries: the first is the
    snapshot of the document as it is at the commit on [b2] (it holds all
    the edits made until then, those on [b1] included), the second the
    snapshot of the document when the deadline elapses.  A single undo
    then makes the first snapshot the live document, and the pointer is on
    the first entry. *)
Theorem batching_commits_two_entries (e0 : EditorState.t) (b1 b2 : string)
    (e1 e1' e2 e2' e3 e3' e4 e4' : EditorState.t -> EditorState.t)
    (g1 g2 g3 g4 : Z) :
  truthy b1 = true -> truthy b2 = true -> b1 <> b2 ->
  0 <= g1 < BATCH_TIMEOUT -> 0 <= g2 < BATCH_TIMEOUT ->
  0 <= g3 < BATCH_TIMEOUT -> BATCH_TIMEOUT <= g4 ->
  map entryDocument
    (entries (history
       (run (batching b1 b2 e1 e1' e2 e2' e3 e3' e4 e4' g1 g2 g3 g4) (init e0))))
  = [ EditorState.document (e4 (e3' (e3 (e2' (e2 (e1' (e1 e0)))))));
      EditorState.document (e4' (e4 (e3' (e3 (e2' (e2 (e1' (e1 e0)))))))) ]
  /\ currentIndex
       (history
          (run (batching b1 b2 e1 e1' e2 e2' e3 e3' e4 e4' g1 g2 g3 g4) (init e0)))
     = 1
  /\ pendingBatch
       (run (batching b1 b2 e1 e1' e2 e2' e3 e3' e4 e4' g1 g2 g3 g4) (init e0))
     = None
  /\ scheduled
       (timers
          (run (batching b1 b2 e1 e1' e2 e2' e3 e3' e4 e4' g1 g2 g3 g4) (init e0)))
     = []
  /\ document
       (undo
          (run (batching b1 b2 e1 e1' e2 e2' e3 e3' e4 e4' g1 g2 g3 g4) (init e0)))
     = EditorState.document (e4 (e3' (e3 (e2' (e2 (e1' (e1 e0)))))))
  /\ currentIndex
       (history
          (undo
             (run (batching b1 b2 e1 e1' e2 e2' e3 e3' e4 e4' g1 g2 g3 g4)
                (init e0))))
     = 0.
Proof.
  intros Hb1 Hb2 Hne Hg1 Hg2 Hg3 Hg4.
  rewrite (batching_final_state e0 b1 b2 e1 e1' e2 e2' e3 e3' e4 e4'
             g1 g2 g3 g4) by done.
  repeat split; reflexivity.
Qed.

(** The scenario with one keystroke before each commit. *)
Lemma batching_commits_two_entries_witness :
  length (entries (history (run editThenCommit (init Sample.two)))) = 2%nat.
Proof.
  assert (Hquiet : 0 <= 100 < BATCH_TIMEOUT) by (unfold BATCH_TIMEOUT; lia).
  assert (Hdeadline : BATCH_TIMEOUT <= 500) by (unfold BATCH_TIMEOUT; lia).
  assert (Hne : "b1" <> "b2") by discriminate.
  pose proof (proj1 (batching_commits_two_entries Sample.two "b1" "b2"
    (keystroke "b1" "a") unchanged (keystroke "b1" "ab") unchanged
    (keystroke "b1" "abc") unchanged (keystroke "b2" "x") unchanged
    100 100 100 500 eq_refl eq_refl Hne Hquiet Hquiet Hquiet Hdeadline)) as Hdocs.
  apply (f_equal (@length _)) in Hdocs. rewrite length_map in Hdocs.
  exact Hdocs.
Defined.

End HistoryFacts.

(** ** The two variants of the store agree *)

Module Variants.

Import JS JSFacts EditorState StoreFacts.

Lemma spliceInsert_slices {A} (l : list A) (i : Z) (x : A) :
  spliceInsert l i x
  = arraySlice l 0 (Some i) ++ [x] ++ arraySlice l i None.
Proof.
  unfold spliceInsert, arraySlice.
  pose proof (relativeIndex_range (Z.of_nat (length l)) i ltac:(lia)) as Hr.
  rewrite (relativeIndex_in_range (Z.of_nat (length l)) 0) by lia.
  set (r := relativeIndex (Z.of_nat (length l)) i) in *.
  simpl. rewrite drop_0.
  replace (Z.to_nat (Z.max (r - 0) 0)) with (Z.to_nat r) by lia.
  f_equal. f_equal. symmetry. apply take_ge. rewrite length_drop. lia.
Qed.

Lemma spliceDelete1_first (l1 l2 : list BlockId) (x : BlockId) :
  x ∉ l1 -> x ∉ l2 ->
  spliceDelete1 (l1 ++ x :: l2) (indexOf (l1 ++ x :: l2) x)
  = filter (fun id => id <> x) (l1 ++ x :: l2).
Proof.
  intros H1 H2. rewrite indexOf_first by done. unfold spliceDelete1.
  rewrite relativeIndex_in_range by (rewrite length_app; simpl; lia).
  rewrite Nat2Z.id.
  rewrite take_app_length.
  rewrite drop_app_ge by lia.
  replace (S (length l1) - length l1)%nat with 1%nat by lia.
  simpl. rewrite drop_0.
  rewrite filter_app, filter_cons_False by (intros Hc; by apply Hc).
  by rewrite !filter_absent.
Qed.

Lemma NoDup_first (l1 l2 : list BlockId) (x : BlockId) :
  NoDup (l1 ++ x :: l2) -> (x ∉ l1) /\ (x ∉ l2).
Proof.
  intros Hnd. apply NoDup_app in Hnd as (_ & Hdisj & Hnd2).
  apply NoDup_cons in Hnd2 as [Hx _]. split; [|done].
  intros Hin. apply (Hdisj x Hin). by left.
Qed.

Lemma updateBlockContent_agree env blockId content state :
  ImmerStore.updateBlockContent env blockId content state
  = Store.updateBlockContent env blockId content state.
Proof. reflexivity. Qed.

Lemma createBlock_agree env afterBlockId type state :
  ImmerStore.createBlock env afterBlockId type state
  = Store.createBlock env afterBlockId type state.
Proof.
  unfold ImmerStore.createBlock, Store.createBlock, ImmerStore.assign, Store.set_.
  destruct afterBlockId as [afterBlockId|]; [|reflexivity].
  destruct (negb _); [|reflexivity].
  by rewrite spliceInsert_slices.
Qed.

Lemma splitBlock_agree env blockId offset state :
  ImmerStore.splitBlock env blockId offset state
  = Store.splitBlock env blockId offset state.
Proof.
  unfold ImmerStore.splitBlock, Store.splitBlock, ImmerStore.assign, Store.set_.
  destruct (Document.blocks (document state) !! blockId) as [block|] eqn:Hb;
    [|reflexivity].
  destruct (Block.hasContent block) eqn:Ht; [|reflexivity].
  simpl negb. cbv iota.
  destruct (_ =? -1); [reflexivity|].
  by rewrite spliceInsert_slices.
Qed.

Lemma deleteBlock_agree env blockId state :
  NoDup (Document.rootBlockIds (document state)) ->
  ImmerStore.deleteBlock env blockId state = Store.deleteBlock env blockId state.
Proof.
  intros Hnd.
  unfold ImmerStore.deleteBlock, Store.deleteBlock, ImmerStore.assign, Store.set_.
  destruct (_ <=? 1); [reflexivity|].
  destruct (decide (blockId ∈ Document.rootBlockIds (document state)))
    as [Hin|Hnot].
  - destruct (indexOf_present _ _ Hin) as (l1 & l2 & Hroot & Hfirst).
    rewrite Hroot in *. destruct (NoDup_first _ _ _ Hnd) as [_ Hl2].
    rewrite spliceDelete1_first by done.
    rewrite indexOf_first by done.
    destruct (Z.eqb_spec (Z.of_nat (length l1)) (-1)); [lia|]. reflexivity.
  - rewrite indexOf_absent, filter_absent by done. reflexivity.
Qed.

Lemma mergeBlockWithPrevious_agree env blockId state :
  NoDup (Document.rootBlockIds (document state)) ->
  ImmerStore.mergeBlockWithPrevious env blockId state
  = Store.mergeBlockWithPrevious env blockId state.
Proof.
  intros Hnd.
  unfold ImmerStore.mergeBlockWithPrevious, Store.mergeBlockWithPrevious,
    ImmerStore.assign, Store.set_.
  destruct (Z.leb_spec
              (indexOf (Document.rootBlockIds (document state)) blockId) 0)
    as [Hle|Hgt]; [reflexivity|].
  assert (Hin : blockId ∈ Document.rootBlockIds (document state)).
  { apply indexOf_found. lia. }
  destruct (indexOf_present _ _ Hin) as (l1 & l2 & Hroot & Hfirst).
  rewrite Hroot in *. destruct (NoDup_first _ _ _ Hnd) as [_ Hl2].
  rewrite spliceDelete1_first by done.
  rewrite indexOf_first in * by done.
  set (previousBlockId :=
         default "undefined"
           (at_ (l1 ++ blockId :: l2) (Z.of_nat (length l1) - 1))).
  assert (Hprev : previousBlockId <> blockId).
  { subst previousBlockId. unfold at_.
    destruct (Z.ltb_spec (Z.of_nat (length l1) - 1) 0); [lia|].
    rewrite lookup_app_l by lia.
    destruct (l1 !! Z.to_nat (Z.of_nat (length l1) - 1)) as [p|] eqn:Hp.
    - simpl. intros ->. apply Hfirst. by eapply list_elem_of_lookup_2.
    - apply lookup_ge_None in Hp. lia. }
  destruct (Document.blocks (document state) !! previousBlockId); [|reflexivity].
  destruct (Document.blocks (document state) !! blockId); [|reflexivity].
  destruct (_ && _); [|reflexivity].
  by rewrite delete_insert_ne.
Qed.

End Variants.

(** ** What each action does to the state, case by case *)

Module Shapes.

Import JS JSFacts EditorState StoreFacts.

(** [updateBlockContent] either leaves the state as it is, or replaces the
    content of a block that holds content. *)
Lemma updateBlockContent_shape env blockId content state :
  stateOf (Store.updateBlockContent env blockId content state) = state
  \/ exists block,
       Document.blocks (document state) !! blockId = Some block
       /\ Block.hasContent block = true
       /\ stateOf (Store.updateBlockContent env blockId content state)
          = withDocument state
              (Document.update (document state)
                 (<[blockId := Block.withContent block content (dateNow env 0)]>
                    (Document.blocks (document state)))
                 (Document.rootBlockIds (document state))
                 (dateNow env 1)).
Proof.
  unfold Store.updateBlockContent, Store.set_, stateOf. cbn [fst].
  destruct (Document.blocks (document state) !! blockId) as [block|];
    [|by left].
  destruct (Block.hasContent block) eqn:Htext; [|by left].
  right. by exists block.
Qed.

(** [createBlock] adds the new block to the store and places its
    identifier at the end of the root order, or right after the first
    occurrence of [afterBlockId]. *)
Lemma createBlock_shape env afterBlockId type state :
  exists rootBlockIds',
    Store.createBlock env afterBlockId type state
    = (withDocument state
         (Document.update (document state)
            (<[createId env 0 := Store.newBlockOfType env type]>
               (Document.blocks (document state)))
            rootBlockIds'
            (dateNow env 1)),
       Returns (createId env 0))
    /\ (rootBlockIds' = Document.rootBlockIds (document state) ++ [createId env 0]
        /\ (forall a, afterBlockId = Some a ->
              a ∉ Document.rootBlockIds (document state))
        \/ exists a l1 l2,
             afterBlockId = Some a
             /\ Document.rootBlockIds (document state) = l1 ++ a :: l2
             /\ (a ∉ l1)
             /\ rootBlockIds' = l1 ++ a :: createId env 0 :: l2).
Proof.
  unfold Store.createBlock, Store.set_.
  rewrite Create.newBlockOfType_spec. cbn [Block.id].
  destruct afterBlockId as [a|].
  - destruct (decide (a ∈ Document.rootBlockIds (document state))) as [Hin|Hnot].
    + destruct (indexOf_present _ _ Hin) as (l1 & l2 & Hroot & Hfirst).
      pose proof (insert_after_first l1 l2 a (createId env 0) Hfirst) as Hins.
      cbv zeta in Hins.
      exists (l1 ++ a :: createId env 0 :: l2). split.
      * rewrite Hroot, Hins, indexOf_first by done.
        destruct (Z.eqb_spec (Z.of_nat (length l1)) (-1)); [lia|].
        reflexivity.
      * right. by exists a, l1, l2.
    + eexists. split.
      * rewrite (indexOf_absent _ _ Hnot). reflexivity.
      * left. split; [reflexivity|]. by intros ? [= <-].
  - eexists. split; [reflexivity|]. left. split; [reflexivity|]. by intros.
Qed.

(** [deleteBlock] either refuses (at most one root block), or removes the
    identifier from the store and all its occurrences from the root order. *)
Lemma deleteBlock_shape env blockId state :
  ((length (Document.rootBlockIds (document state)) <= 1)%nat
   /\ stateOf (Store.deleteBlock env blockId state) = state)
  \/ ((2 <= length (Document.rootBlockIds (document state)))%nat
      /\ stateOf (Store.deleteBlock env blockId state)
         = withDocument state
             (Document.update (document state)
                (delete blockId (Document.blocks (document state)))
                (filter (fun id => id <> blockId)
                   (Document.rootBlockIds (document state)))
                (dateNow env 0))).
Proof.
  unfold Store.deleteBlock, Store.set_, stateOf. cbn [fst].
  destruct (Z.leb_spec
              (Z.of_nat (length (Document.rootBlockIds (document state)))) 1).
  - left. split; [lia | reflexivity].
  - right. split; [lia | reflexivity].
Qed.

(** The element before the first occurrence of [x], when there is one. *)
Lemma previous_of_first (l : list BlockId) (x : BlockId) :
  0 < indexOf l x ->
  exists l1 previousId l2,
    l = l1 ++ previousId :: x :: l2
    /\ (x ∉ l1) /\ x <> previousId
    /\ at_ l (indexOf l x - 1) = Some previousId.
Proof.
  intros Hidx.
  assert (Hin : x ∈ l) by (apply indexOf_found; lia).
  destruct (indexOf_present _ _ Hin) as (l0 & l2 & -> & Hfirst).
  rewrite indexOf_first in * by done.
  induction l0 as [|previousId l1 _] using rev_ind; [simpl in Hidx; lia|].
  exists l1, previousId, l2.
  apply not_elem_of_app in Hfirst as [Hl1 Hp].
  apply not_elem_of_cons in Hp as [Hp _].
  rewrite <- (assoc_L (++)). simpl. repeat split; try done.
  unfold at_. rewrite length_app. simpl.
  destruct (Z.ltb_spec (Z.of_nat (length l1 + 1) - 1) 0); [lia|].
  replace (Z.to_nat (Z.of_nat (length l1 + 1) - 1)) with (length l1) by lia.
  by rewrite list_lookup_middle.
Qed.

(** [mergeBlockWithPrevious] either leaves the state as it is, or appends
    the content of the block to that of the element before its first
    occurrence in the root order, and removes the block. *)
Lemma mergeBlockWithPrevious_shape env blockId state :
  stateOf (Store.mergeBlockWithPrevious env blockId state) = state
  \/ exists l1 l2 previousId previousBlock currentBlock,
       Document.rootBlockIds (document state) = l1 ++ previousId :: blockId :: l2
       /\ (blockId ∉ l1) /\ blockId <> previousId
       /\ Document.blocks (document state) !! previousId = Some previousBlock
       /\ Document.blocks (document state) !! blockId = Some currentBlock
       /\ Block.hasContent previousBlock = true
       /\ Block.hasContent currentBlock = true
       /\ stateOf (Store.mergeBlockWithPrevious env blockId state)
          = withDocument state
              (Document.update (document state)
                 (<[previousId :=
                      Block.withContent previousBlock
                        (Block.content previousBlock ++ Block.content currentBlock)
                        (dateNow env 0)]>
                    (delete blockId (Document.blocks (document state))))
                 (filter (fun id => id <> blockId)
                    (Document.rootBlockIds (document state)))
                 (dateNow env 1)).
Proof.
  destruct (Z.leb_spec
              (indexOf (Document.rootBlockIds (document state)) blockId) 0)
    as [Hle|Hgt].
  { left. by rewrite mergeBlockWithPrevious_no_previous. }
  destruct (previous_of_first _ _ Hgt)
    as (l1 & previousId & l2 & Hroot & Hfirst & Hne & Hat).
  destruct (Document.blocks (document state) !! previousId)
    as [previousBlock|] eqn:Hprev;
    [destruct (Document.blocks (document state) !! blockId)
       as [currentBlock|] eqn:Hcur;
     [destruct (Block.hasContent previousBlock) eqn:Hp;
      [destruct (Block.hasContent currentBlock) eqn:Hc|]|]|].
  - right. exists l1, l2, previousId, previousBlock, currentBlock.
    repeat split; try done.
    by rewrite (mergeBlockWithPrevious_applied env state blockId l1 l2
                  previousId previousBlock currentBlock).
  - left. unfold Store.mergeBlockWithPrevious, Store.set_, stateOf. cbn [fst].
    destruct (Z.leb_spec
                (indexOf (Document.rootBlockIds (document state)) blockId) 0);
      [reflexivity|].
    rewrite Hat. simpl default. by rewrite Hprev, Hcur, Hp, Hc.
  - left. unfold Store.mergeBlockWithPrevious, Store.set_, stateOf. cbn [fst].
    destruct (Z.leb_spec
                (indexOf (Document.rootBlockIds (document state)) blockId) 0);
      [reflexivity|].
    rewrite Hat. simpl default. by rewrite Hprev, Hcur, Hp.
  - left. unfold Store.mergeBlockWithPrevious, Store.set_, stateOf. cbn [fst].
    destruct (Z.leb_spec
                (indexOf (Document.rootBlockIds (document state)) blockId) 0);
      [reflexivity|].
    rewrite Hat. simpl default. by rewrite Hprev, Hcur.
  - left. unfold Store.mergeBlockWithPrevious, Store.set_, stateOf. cbn [fst].
    destruct (Z.leb_spec
                (indexOf (Document.rootBlockIds (document state)) blockId) 0);
      [reflexivity|].
    rewrite Hat. simpl default. by rewrite Hprev.
Qed.

(** [splitBlock] either leaves the state as it is, or rewrites the block
    and inserts the new paragraph right after its first occurrence. *)
Lemma splitBlock_shape env blockId offset state :
  stateOf (Store.splitBlock env blockId offset state) = state
  \/ exists block l1 l2,
       Document.blocks (document state) !! blockId = Some block
       /\ Block.hasContent block = true
       /\ Document.rootBlockIds (document state) = l1 ++ blockId :: l2
       /\ (blockId ∉ l1)
       /\ Store.splitBlock env blockId offset state
          = (withDocument state
               (Document.update (document state)
                  (<[createId env 0 :=
                       createParagraphBlock env (Some (afterText block offset))]>
                     (<[blockId :=
                          Block.withContent block
                            (plainTextToRichText (beforeText block offset))
                            (dateNow env 1)]>
                        (Document.blocks (document state))))
                  (l1 ++ blockId :: createId env 0 :: l2)
                  (dateNow env 2)),
             Returns (createId env 0)).
Proof.
  destruct (Document.blocks (document state) !! blockId) as [block|] eqn:Hb.
  - destruct (Block.hasContent block) eqn:Ht.
    + destruct (decide (blockId ∈ Document.rootBlockIds (document state)))
        as [Hin|Hnot].
      * destruct (indexOf_present _ _ Hin) as (l1 & l2 & Hroot & Hfirst).
        right. exists block, l1, l2. repeat split; try done.
        by apply splitBlock_applied.
      * left. by rewrite (splitBlock_not_in_root env state blockId block).
    + left. unfold Store.splitBlock. by rewrite Hb, Ht.
  - left. unfold Store.splitBlock. by rewrite Hb.
Qed.

End Shapes.

(** ** The shape of the document is kept by every action *)

Module Invariants.

Import JS JSFacts EditorState StoreFacts Shapes Reach.

Lemma NoDup_insert_after (l1 l2 : list BlockId) (a x : BlockId) :
  NoDup (l1 ++ a :: l2) -> x ∉ l1 ++ a :: l2 -> NoDup (l1 ++ a :: x :: l2).
Proof.
  intros Hnd Hx.
  assert (Hperm : l1 ++ a :: x :: l2 ≡ₚ x :: (l1 ++ a :: l2)).
  { change (l1 ++ a :: x :: l2) with (l1 ++ [a] ++ x :: l2).
    change (l1 ++ a :: l2) with (l1 ++ [a] ++ l2).
    rewrite !(assoc_L (++)). by rewrite <- Permutation_middle. }
  rewrite Hperm. by apply NoDup_cons.
Qed.

Lemma elem_of_insert_after (l1 l2 : list BlockId) (a x y : BlockId) :
  y ∈ l1 ++ a :: x :: l2 <-> y = x \/ y ∈ l1 ++ a :: l2.
Proof. rewrite !elem_of_app, !elem_of_cons. tauto. Qed.

Lemma wellFormed_initial (env : Env) :
  wellFormed (document (Store.initialState env)).
Proof.
  split; simpl.
  - apply NoDup_singleton.
  - intros id. rewrite list_elem_of_singleton. split.
    + intros ->. rewrite lookup_singleton_eq. eauto.
    + intros [b Hb]. by apply lookup_singleton_Some in Hb as [-> _].
  - intros id b Hb. by apply lookup_singleton_Some in Hb as [<- <-].
  - intros id b Hb. apply lookup_singleton_Some in Hb as [_ <-].
    by exists paragraph.
  - intros id b Hb. by apply lookup_singleton_Some in Hb as [_ <-].
Qed.

Lemma wellFormed_updateBlockContent env blockId content state :
  wellFormed (document state) ->
  wellFormed (documentOf (Store.updateBlockContent env blockId content state)).
Proof.
  intros [Hnd Hres Hkeys Htypes Hflat]. unfold documentOf.
  destruct (updateBlockContent_shape env blockId content state)
    as [->|(block & Hb & _ & ->)]; [by split|].
  split; simpl.
  - exact Hnd.
  - intros id. rewrite Hres, lookup_insert_is_Some.
    destruct (decide (blockId = id)) as [<-|]; [|tauto].
    rewrite Hb. split; [intros _; by left | eauto].
  - intros id b. rewrite lookup_insert_Some.
    intros [[<- <-]|[_ Hid]]; [simpl; by apply (Hkeys blockId) | by apply Hkeys].
  - intros id b. rewrite lookup_insert_Some.
    intros [[<- <-]|[_ Hid]]; [simpl; by apply (Htypes blockId) | by apply (Htypes id)].
  - intros id b. rewrite lookup_insert_Some.
    intros [[<- <-]|[_ Hid]]; [simpl; by apply (Hflat blockId) | by apply (Hflat id)].
Qed.

Lemma wellFormed_createBlock env afterBlockId type state :
  fresh (createId env 0) state ->
  wellFormed (document state) ->
  wellFormed (documentOf (Store.createBlock env afterBlockId type state)).
Proof.
  intros [Hfroot Hfstore] [Hnd Hres Hkeys Htypes Hflat]. unfold documentOf, stateOf.
  destruct (createBlock_shape env afterBlockId type state)
    as (root' & -> & Hroot').
  assert (Hmem : forall id,
            id ∈ root' <-> id = createId env 0
                           \/ id ∈ Document.rootBlockIds (document state)).
  { intros id. destruct Hroot' as [[-> _]|(a & l1 & l2 & _ & Hroot & _ & ->)].
    - rewrite elem_of_app, list_elem_of_singleton. tauto.
    - rewrite Hroot. apply elem_of_insert_after. }
  assert (Hnd' : NoDup root').
  { destruct Hroot' as [[-> _]|(a & l1 & l2 & _ & Hroot & _ & ->)].
    - apply NoDup_app. split; [done|]. split; [|apply NoDup_singleton].
      intros x Hx Hx'. apply list_elem_of_singleton in Hx' as ->. done.
    - rewrite Hroot in *. by apply NoDup_insert_after. }
  rewrite Create.newBlockOfType_spec.
  split; simpl.
  - exact Hnd'.
  - intros id. rewrite Hmem, lookup_insert_is_Some, Hres.
    destruct (decide (createId env 0 = id)); subst; intuition.
  - intros id b. rewrite lookup_insert_Some.
    intros [[<- <-]|[_ Hid]]; [reflexivity | by apply Hkeys].
  - intros id b. rewrite lookup_insert_Some.
    intros [[<- <-]|[_ Hid]]; [by exists type | by apply (Htypes id)].
  - intros id b. rewrite lookup_insert_Some.
    intros [[<- <-]|[_ Hid]]; [reflexivity | by apply (Hflat id)].
Qed.

Lemma wellFormed_remove (d : Document.t) (blocks' : gmap string Block.t)
    (blockId : BlockId) (t : Z) :
  wellFormed d ->
  (forall id, is_Some (blocks' !! id)
              <-> id <> blockId /\ is_Some (Document.blocks d !! id)) ->
  (forall id b, blocks' !! id = Some b ->
     exists b0, Document.blocks d !! id = Some b0
                /\ Block.id b = Block.id b0 /\ Block.type b = Block.type b0
                /\ Block.children b = Block.children b0) ->
  wellFormed
    (Document.update d blocks'
       (filter (fun id => id <> blockId) (Document.rootBlockIds d)) t).
Proof.
  intros [Hnd Hres Hkeys Htypes Hflat] Hsome Hsame.
  split; simpl.
  - by apply NoDup_filter.
  - intros id. rewrite list_elem_of_filter, Hsome, Hres. tauto.
  - intros id b Hb. destruct (Hsame id b Hb) as (b0 & Hb0 & -> & _).
    by apply Hkeys.
  - intros id b Hb. destruct (Hsame id b Hb) as (b0 & Hb0 & _ & -> & _).
    by apply (Htypes id).
  - intros id b Hb. destruct (Hsame id b Hb) as (b0 & Hb0 & _ & _ & ->).
    by apply (Hflat id).
Qed.

Lemma wellFormed_deleteBlock env blockId state :
  wellFormed (document state) ->
  wellFormed (documentOf (Store.deleteBlock env blockId state)).
Proof.
  intros Hwf. unfold documentOf.
  destruct (deleteBlock_shape env blockId state) as [[_ ->]|[_ ->]]; [done|].
  simpl. apply wellFormed_remove; [done| |].
  - intros id. rewrite lookup_delete_is_Some. intuition congruence.
  - intros id b Hb. apply lookup_delete_Some in Hb as [_ Hb]. by exists b.
Qed.

Lemma wellFormed_mergeBlockWithPrevious env blockId state :
  wellFormed (document state) ->
  wellFormed (documentOf (Store.mergeBlockWithPrevious env blockId state)).
Proof.
  intros Hwf. unfold documentOf.
  destruct (mergeBlockWithPrevious_shape env blockId state)
    as [->|(l1 & l2 & previousId & P & C & Hroot & Hfirst & Hne & HP & HC & _ & _ & ->)];
    [done|].
  simpl. apply wellFormed_remove; [done| |].
  - intros id. rewrite lookup_insert_is_Some, lookup_delete_is_Some.
    destruct (decide (previousId = id)) as [<-|]; [|intuition congruence].
    rewrite HP. split; [intros _; split; [congruence | eauto] | intros _; by left].
  - intros id b. rewrite lookup_insert_Some, lookup_delete_Some.
    intros [[<- <-]|[_ [_ Hid]]]; [by exists P | by exists b].
Qed.

Lemma wellFormed_splitBlock env blockId offset state :
  fresh (createId env 0) state ->
  wellFormed (document state) ->
  wellFormed (documentOf (Store.splitBlock env blockId offset state)).
Proof.
  intros [Hfroot Hfstore] [Hnd Hres Hkeys Htypes Hflat]. unfold documentOf.
  destruct (splitBlock_shape env blockId offset state)
    as [->|(block & l1 & l2 & Hb & _ & Hroot & _ & ->)]; [by split|].
  unfold stateOf. simpl.
  assert (Hne : createId env 0 <> blockId) by (intros Heq; congruence).
  split; simpl.
  - rewrite Hroot in *. by apply NoDup_insert_after.
  - intros id. rewrite elem_of_insert_after, <- Hroot, Hres.
    rewrite !lookup_insert_is_Some.
    destruct (decide (createId env 0 = id)) as [<-|]; [intuition|].
    destruct (decide (blockId = id)) as [<-|]; [|intuition].
    rewrite Hb. intuition eauto.
  - intros id b. rewrite !lookup_insert_Some.
    intros [[<- <-]|[_ [[<- <-]|[_ Hid]]]];
      [reflexivity | simpl; by apply (Hkeys blockId) | by apply Hkeys].
  - intros id b. rewrite !lookup_insert_Some.
    intros [[<- <-]|[_ [[<- <-]|[_ Hid]]]];
      [by exists paragraph | simpl; by apply (Htypes blockId) | by apply (Htypes id)].
  - intros id b. rewrite !lookup_insert_Some.
    intros [[<- <-]|[_ [[<- <-]|[_ Hid]]]];
      [reflexivity | simpl; by apply (Hflat blockId) | by apply (Hflat id)].
Qed.

(** X1 — In every state the store reaches from its initial state through
    its actions (with generated identifiers that are new), the root order
    has no duplicate and lists exactly the identifiers of the store, every
    block is stored under its own identifier, has one of the four declared
    types, and has no children. *)
Theorem reachable_wellFormed (state : EditorState.t) :
  reachable state -> wellFormed (document state).
Proof.
  induction 1 as [env|state state' _ IH Hstep].
  - apply wellFormed_initial.
  - destruct Hstep.
    + by apply wellFormed_updateBlockContent.
    + by apply wellFormed_createBlock.
    + by apply wellFormed_deleteBlock.
    + by apply wellFormed_mergeBlockWithPrevious.
    + by apply wellFormed_splitBlock.
    + exact IH.
Qed.

(** The state after "hello world" is typed and split is reached, hence
    well formed. *)
Lemma reachable_wellFormed_witness :
  wellFormed (document Sample.typedSplit).
Proof.
  apply reachable_wellFormed.
  eapply reachable_step;
    [eapply reachable_step; [apply (reachable_initial Sample.envInit)|]|].
  - apply (step_updateBlockContent Sample.env0 "init0"
             [RichText.mk "hello world" []]).
  - apply (step_splitBlock Sample.env0 "init0" 5).
    split; [apply (bool_decide_unpack _); by vm_compute | reflexivity].
Defined.

End Invariants.

(** ** [mergeBlockWithPrevious] on the documents of the store *)

Module MergeChildren.

Import JS JSFacts EditorState StoreFacts Reach.



End MergeChildren.

(** ** Rendering the document *)

Module Rendering.

Import JS JSFacts EditorState StoreFacts Reach Components Hooks Selectors.

(** The tag a block of a declared type is rendered with. *)
Lemma Block_of_declared_type (id : BlockId) (state : EditorState.t)
    (block : Block.t) (type : BlockType) :
  Document.blocks (document state) !! id = Some block ->
  Block.type block = typeName type ->
  exists element,
    Block_ id state = Value element
    /\ text element = richTextToPlainText (Block.content block)
    /\ tag element = match type with
                     | paragraph => "p"
                     | heading1 => "h1"
                     | heading2 => "h2"
                     | heading3 => "h3"
                     end.
Proof.
  intros Hb Htype. unfold Block_, useBlock, selectBlockById. rewrite Hb.
  unfold Paragraph, Heading. rewrite Htype.
  destruct type; eexists; (split; [reflexivity|]); split; reflexivity.
Qed.

Lemma renderBlocks_wellFormed (ids : list BlockId) (state : EditorState.t) :
  wellFormed (document state) ->
  (forall id, id ∈ ids -> id ∈ Document.rootBlockIds (document state)) ->
  exists elements,
    renderBlocks ids state = Value elements
    /\ map fst elements = ids
    /\ Forall
         (fun child =>
            exists block type,
              Document.blocks (document state) !! fst child = Some block
              /\ Block.type block = typeName type
              /\ text (snd child) = richTextToPlainText (Block.content block)
              /\ tag (snd child) = match type with
                                   | paragraph => "p"
                                   | heading1 => "h1"
                                   | heading2 => "h2"
                                   | heading3 => "h3"
                                   end)
         elements.
Proof.
  intros Hwf. induction ids as [|id ids IH]; intros Hids.
  - exists []. repeat split. constructor.
  - destruct (proj1 (wf_resolves _ Hwf id)) as [block Hb].
    { apply Hids. by left. }
    destruct (wf_types _ Hwf id block Hb) as [type Htype].
    destruct (Block_of_declared_type id state block type Hb Htype)
      as (element & Hel & Htext & Htag).
    destruct IH as (elements & Hels & Hkeys & Hall).
    { intros x Hx. apply Hids. by right. }
    exists ((id, element) :: elements). simpl. rewrite Hel, Hels.
    split; [reflexivity|]. split; [by rewrite Hkeys|].
    constructor; [|exact Hall]. by exists block, type.
Qed.

(** X2 — On every state whose document has the shape the actions keep (in
    particular every state the store reaches), [Editor] renders without
    throwing: it shows one element per identifier of the root order, in that
    order and keyed by it, with the plain text of the block and the tag of
    its type ([p], [h1], [h2] or [h3]). *)
Theorem wellFormed_renders (state : EditorState.t) :
  wellFormed (document state) ->
  exists view,
    Editor state = Value view
    /\ map fst (viewChildren view) = Document.rootBlockIds (document state)
    /\ Forall
         (fun child =>
            exists block type,
              Document.blocks (document state) !! fst child = Some block
              /\ Block.type block = typeName type
              /\ text (snd child) = richTextToPlainText (Block.content block)
              /\ tag (snd child) = match type with
                                   | paragraph => "p"
                                   | heading1 => "h1"
                                   | heading2 => "h2"
                                   | heading3 => "h3"
                                   end)
         (viewChildren view).
Proof.
  intros Hwf.
  destruct (renderBlocks_wellFormed (Document.rootBlockIds (document state))
              state Hwf ltac:(done))
    as (elements & Hels & Hkeys & Hall).
  unfold Editor, selectRootBlockIds. rewrite Hels.
  eexists. split; [reflexivity|]. split; assumption.
Qed.

(** The initial store renders one empty paragraph. *)
Lemma wellFormed_renders_witness :
  exists view,
    Editor (Store.initialState Sample.envInit) = Value view
    /\ map fst (viewChildren view) = ["init0"].
Proof.
  destruct (wellFormed_renders (Store.initialState Sample.envInit)
              (Invariants.wellFormed_initial Sample.envInit))
    as (view & Hview & Hkeys & _).
  exists view. split; [exact Hview | exact Hkeys].
Defined.

(** X3 — [Editor] throws when an identifier of the root order is not in the
    store: the error is that of the first such identifier, "Block with id
    ... not found", whatever follows it.  The identifier is not the name of
    a member of [Object.prototype]: for such a name the read of
    [blocks[id]] gives the inherited member and not [undefined], and
    [useBlock] does not raise this error. *)
Theorem Editor_throws_at_first_missing (state : EditorState.t)
    (l1 l2 : list BlockId) (id : BlockId) :
  Document.rootBlockIds (document state) = l1 ++ id :: l2 ->
  (forall x, x ∈ l1 -> is_Some (Document.blocks (document state) !! x)) ->
  Document.blocks (document state) !! id = None ->
  inherited id = false ->
  Editor state = Throws (notFound id).
Proof.
  intros Hroot Hl1 Hid _. unfold Editor, selectRootBlockIds. rewrite Hroot.
  assert (Hthrow : renderBlocks (l1 ++ id :: l2) state = Throws (notFound id)).
  { clear Hroot. induction l1 as [|x l1 IH]; simpl.
    - unfold Block_, useBlock, selectBlockById. by rewrite Hid.
    - destruct (Hl1 x ltac:(by left)) as [b Hb].
      unfold Block_ at 1, useBlock, selectBlockById. rewrite Hb.
      rewrite IH by (intros y Hy; apply Hl1; by right).
      by destruct (String.eqb (Block.type b) "paragraph"). }
  by rewrite Hthrow.
Qed.

(** A root order whose second identifier is not in the store. *)
Lemma Editor_throws_at_first_missing_witness :
  Editor (Sample.state ["b1"; "gone"; "b2"]
            [Sample.block "b1" "paragraph" "hello" []])
  = Throws (notFound "gone").
Proof.
  apply (Editor_throws_at_first_missing _ ["b1"] ["b2"] "gone").
  - reflexivity.
  - intros x Hx. apply list_elem_of_singleton in Hx as ->. by eexists.
  - reflexivity.
  - reflexivity.
Defined.

(** X25 — The sample document renders as written.  When the four
    identifiers the generator returns for the four blocks are pairwise
    different, the document [createEmptyDocument] fills with sample blocks
    has the shape the actions keep, and [Editor] shows its four blocks in
    order: a paragraph, a first-level and a second-level heading and a
    paragraph, each with its text. *)
Theorem sample_document_renders (env : Env) (state : EditorState.t) :
  NoDup [createId env 0; createId env 1; createId env 2; createId env 3] ->
  wellFormed (createSampleDocument env)
  /\ Editor (withDocument state (createSampleDocument env))
     = Value
         {| viewClassName :=
              "mx-auto max-w-3xl px-5 py-15 font-sans leading-relaxed text-gray-800";
            viewChildren :=
              [ (createId env 0,
                 {| tag := "p";
                    className := "my-1 py-1 text-base leading-relaxed";
                    text := "This is a test paragraph to verify Milestone 4 rendering works correctly." |});
                (createId env 1,
                 {| tag := "h1";
                    className := "mb-2 mt-6 text-3xl font-bold leading-tight";
                    text := "Heading 1 Test" |});
                (createId env 2,
                 {| tag := "h2";
                    className := "mb-2 mt-4 text-2xl font-semibold leading-snug";
                    text := "Heading 2 Test" |});
                (createId env 3,
                 {| tag := "p";
                    className := "my-1 py-1 text-base leading-relaxed";
                    text := "Another paragraph block." |}) ] |}.
Proof.
  intros Hnodup.
  assert (Hne : createId env 0 <> createId env 1
                /\ createId env 0 <> createId env 2
                /\ createId env 0 <> createId env 3
                /\ createId env 1 <> createId env 2
                /\ createId env 1 <> createId env 3
                /\ createId env 2 <> createId env 3).
  { apply NoDup_cons in Hnodup as [H0 Hnodup].
    apply NoDup_cons in Hnodup as [H1 Hnodup].
    apply NoDup_cons in Hnodup as [H2 _].
    apply not_elem_of_cons in H0 as [H01 H0].
    apply not_elem_of_cons in H0 as [H02 H0].
    apply not_elem_of_cons in H0 as [H03 _].
    apply not_elem_of_cons in H1 as [H12 H1].
    apply not_elem_of_cons in H1 as [H13 _].
    apply not_elem_of_cons in H2 as [H23 _].
    done. }
  destruct Hne as (H01 & H02 & H03 & H12 & H13 & H23).
  split.
  - split; unfold createSampleDocument; simpl.
    + exact Hnodup.
    + intros id. rewrite !lookup_insert_is_Some', !elem_of_cons.
      rewrite <- (not_eq_None_Some (_ !! id)), lookup_singleton_None.
      rewrite elem_of_nil.
      destruct (decide (createId env 0 = id)); intuition congruence.
    + intros id block Hlookup.
      repeat (apply lookup_insert_Some in Hlookup
                as [[<- <-]|[_ Hlookup]]; [reflexivity|]).
      by apply lookup_singleton_Some in Hlookup as [<- <-].
    + intros id block Hlookup.
      apply lookup_insert_Some in Hlookup as [[_ <-]|[_ Hlookup]];
        [by exists paragraph|].
      apply lookup_insert_Some in Hlookup as [[_ <-]|[_ Hlookup]];
        [by exists heading2|].
      apply lookup_insert_Some in Hlookup as [[_ <-]|[_ Hlookup]];
        [by exists heading1|].
      apply lookup_singleton_Some in Hlookup as [_ <-]. by exists paragraph.
    + intros id block Hlookup.
      repeat (apply lookup_insert_Some in Hlookup
                as [[_ <-]|[_ Hlookup]]; [reflexivity|]).
      by apply lookup_singleton_Some in Hlookup as [_ <-].
  - unfold Editor, selectRootBlockIds, renderBlocks, Block_, useBlock,
      selectBlockById, withDocument, createSampleDocument.
    cbn [document Document.rootBlockIds Document.blocks Block.id
         createParagraphBlock createHeadingBlock after createId].
    rewrite lookup_insert_eq.
    rewrite (lookup_insert_ne _ (createId env 3) (createId env 2)) by congruence.
    rewrite lookup_insert_eq.
    rewrite (lookup_insert_ne _ (createId env 3) (createId env 1)) by congruence.
    rewrite (lookup_insert_ne _ (createId env 2) (createId env 1)) by congruence.
    rewrite lookup_insert_eq.
    rewrite (lookup_insert_ne _ (createId env 3) (createId env 0)) by congruence.
    rewrite (lookup_insert_ne _ (createId env 2) (createId env 0)) by congruence.
    rewrite (lookup_insert_ne _ (createId env 1) (createId env 0)) by congruence.
    rewrite lookup_singleton_eq.
    reflexivity.
Qed.

Lemma sample_document_renders_witness :
  wellFormed (createSampleDocument Sample.envInit).
Proof.
  apply (sample_document_renders Sample.envInit Sample.hello).
  apply (bool_decide_unpack _). by vm_compute.
Defined.

End Rendering.

(** ** More on the actions of the store *)

Module Actions.

Import JS JSFacts EditorState Spec StoreFacts Shapes Reach Texts.

#[local] Arguments richTextToPlainText : simpl never.
#[local] Arguments plainTextToRichText : simpl never.
#[local] Arguments initialContent : simpl never.

(** X4 — The last write wins.  Two calls of [updateBlockContent] on the
    same block leave the document that the second call alone leaves, up to
    timestamps; and when the block holds content, the text written with
    [plainTextToRichText] is the text [richTextToPlainText] reads back. *)
Theorem updateBlockContent_last_write_wins (env1 env2 env3 : Env)
    (state : EditorState.t) (blockId : BlockId) (content1 content2 : list RichText.t) :
  withoutTimes
    (documentOf
       (Store.updateBlockContent env2 blockId content2
          (stateOf (Store.updateBlockContent env1 blockId content1 state))))
  = withoutTimes (documentOf (Store.updateBlockContent env3 blockId content2 state))
  /\ (forall block text,
        Document.blocks (document state) !! blockId = Some block ->
        Block.hasContent block = true ->
        plainTextAt
          (documentOf
             (Store.updateBlockContent env1 blockId (plainTextToRichText text) state))
          blockId
        = Some text).
Proof.
  split.
  - unfold Store.updateBlockContent, Store.set_, documentOf, stateOf. cbn [fst].
    destruct (Document.blocks (document state) !! blockId) as [block|] eqn:Hb.
    + destruct (Block.hasContent block) eqn:Htext.
      * cbn [document withDocument Document.blocks Document.update].
        rewrite lookup_insert_eq, hasContent_withContent, Htext.
        cbn [document withDocument Document.blocks Document.update
               Document.rootBlockIds].
        unfold withoutTimes. simpl. by rewrite !fmap_insert, insert_insert_eq.
      * by rewrite Hb, Htext.
    + by rewrite Hb.
  - intros block text Hb Htext.
    unfold Store.updateBlockContent, Store.set_, documentOf, stateOf, plainTextAt.
    cbn [fst]. rewrite Hb, Htext. simpl. rewrite lookup_insert_eq. simpl.
    by rewrite plainText_of_plainTextToRichText.
Qed.

(** A witness of the two parts of X4. *)
Lemma updateBlockContent_last_write_wins_witness :
  plainTextAt
    (documentOf
       (Store.updateBlockContent Sample.env0 "b1" (plainTextToRichText "bye")
          Sample.hello))
    "b1"
  = Some "bye".
Proof.
  refine (proj2 (updateBlockContent_last_write_wins Sample.env0 Sample.env0
                   Sample.env0 Sample.hello "b1" [] [])
            (Sample.block "b1" "paragraph" "hello world" []) "bye" _ _).
  - reflexivity.
  - reflexivity.
Defined.

(** The root order [createBlock] leaves, whatever the position. *)
Lemma createBlock_root (env : Env) (afterBlockId : option BlockId)
    (type : BlockType) (state : EditorState.t) :
  createId env 0 ∉ Document.rootBlockIds (document state) ->
  filter (fun id => id <> createId env 0)
    (Document.rootBlockIds
       (documentOf (Store.createBlock env afterBlockId type state)))
  = Document.rootBlockIds (document state)
  /\ length (Document.rootBlockIds
               (documentOf (Store.createBlock env afterBlockId type state)))
     = S (length (Document.rootBlockIds (document state))).
Proof.
  intros Hfresh.
  destruct (createBlock_shape env afterBlockId type state)
    as (root' & -> & Hroot').
  unfold documentOf, stateOf. simpl.
  destruct Hroot' as [[-> Hnot]|(a & l1 & l2 & -> & Hroot & Hfirst & ->)].
  - split; [|rewrite length_app; simpl; lia].
    rewrite filter_app, filter_absent by done.
    rewrite filter_cons_False by (intros Hc; by apply Hc).
    by rewrite app_nil_r.
  - split; [|rewrite Hroot, !length_app; simpl; lia].
    rewrite Hroot in *. by apply SplitMerge.filter_after_insert.
Qed.

(** X5 — [createBlock] with a new identifier returns it, stores under it an
    empty block of the requested type, and inserts it in the root order
    without disturbing the blocks that are there: removing it gives the old
    root order back.  With [afterBlockId] in the root order the new
    identifier comes right after its first occurrence, with [null] it comes
    last. *)
Theorem createBlock_keeps_order (env : Env) (afterBlockId : option BlockId)
    (type : BlockType) (state : EditorState.t) :
  createId env 0 ∉ Document.rootBlockIds (document state) ->
  completionOf (Store.createBlock env afterBlockId type state)
    = Returns (createId env 0)
  /\ Document.blocks (documentOf (Store.createBlock env afterBlockId type state))
       !! createId env 0
     = Some {| Block.id := createId env 0;
               Block.type := typeName type;
               Block.content := [];
               Block.children := [];
               Block.createdAt := dateNow env 0;
               Block.updatedAt := dateNow env 0 |}
  /\ filter (fun id => id <> createId env 0)
       (Document.rootBlockIds
          (documentOf (Store.createBlock env afterBlockId type state)))
     = Document.rootBlockIds (document state)
  /\ length (Document.rootBlockIds
               (documentOf (Store.createBlock env afterBlockId type state)))
     = S (length (Document.rootBlockIds (document state)))
  /\ (afterBlockId = None ->
      Document.rootBlockIds
        (documentOf (Store.createBlock env afterBlockId type state))
      = Document.rootBlockIds (document state) ++ [createId env 0])
  /\ (forall a l1 l2,
        afterBlockId = Some a ->
        Document.rootBlockIds (document state) = l1 ++ a :: l2 ->
        a ∉ l1 ->
        Document.rootBlockIds
          (documentOf (Store.createBlock env afterBlockId type state))
        = l1 ++ a :: createId env 0 :: l2).
Proof.
  intros Hfresh.
  destruct (createBlock_shape env afterBlockId type state)
    as (root' & -> & Hroot').
  unfold completionOf, documentOf, stateOf. simpl.
  rewrite Create.newBlockOfType_spec, lookup_insert_eq.
  split; [reflexivity|]. split; [reflexivity|].
  destruct Hroot' as [[-> Hnot]|(a & l1 & l2 & -> & Hroot & Hfirst & ->)].
  - split.
    { rewrite filter_app, filter_absent by done.
      rewrite filter_cons_False by (intros Hc; by apply Hc).
      by rewrite app_nil_r. }
    split; [rewrite length_app; simpl; lia|].
    split; [done|].
    intros a l1 l2 -> Hroot Hfirst. exfalso. apply (Hnot a eq_refl).
    rewrite Hroot. apply elem_of_app. right. by left.
  - split.
    { rewrite Hroot in *. by apply SplitMerge.filter_after_insert. }
    split; [rewrite Hroot, !length_app; simpl; lia|].
    split; [discriminate|].
    intros a' l1' l2' [= <-] Hroot' Hfirst'.
    rewrite Hroot in Hroot'.
    assert (Hlen : length l1 = length l1').
    { apply Nat2Z.inj.
      rewrite <- (indexOf_first l1 l2 a Hfirst).
      rewrite Hroot'. by apply indexOf_first. }
    apply app_inj_1 in Hroot' as [-> [= ->]]; done.
Qed.

(** A heading is created after the first of two paragraphs. *)
Lemma createBlock_keeps_order_witness :
  Document.rootBlockIds
    (documentOf (Store.createBlock Sample.env0 (Some "b1") heading2 Sample.two))
  = ["b1"; "new0"; "b2"].
Proof.
  assert (Hfresh : createId Sample.env0 0
                   ∉ Document.rootBlockIds (document Sample.two)).
  { apply (bool_decide_unpack _). by vm_compute. }
  refine (proj2 (proj2 (proj2 (proj2 (proj2
    (createBlock_keeps_order Sample.env0 (Some "b1") heading2 Sample.two Hfresh)))))
    "b1" [] ["b2"] eq_refl eq_refl _).
  apply not_elem_of_nil.
Defined.

(** X6 — Creating a block and deleting it again gives back the store and
    the root order, when the generated identifier is new and the document
    had a root block; on a document without root block the deletion is
    refused and the new block stays. *)
Theorem createBlock_then_deleteBlock (env1 env2 : Env)
    (afterBlockId : option BlockId) (type : BlockType) (state : EditorState.t) :
  fresh (createId env1 0) state ->
  (Document.rootBlockIds (document state) <> [] ->
     Document.blocks
       (documentOf
          (Store.deleteBlock env2 (createId env1 0)
             (stateOf (Store.createBlock env1 afterBlockId type state))))
     = Document.blocks (document state)
     /\ Document.rootBlockIds
          (documentOf
             (Store.deleteBlock env2 (createId env1 0)
                (stateOf (Store.createBlock env1 afterBlockId type state))))
        = Document.rootBlockIds (document state))
  /\ (Document.rootBlockIds (document state) = [] ->
      Store.deleteBlock env2 (createId env1 0)
        (stateOf (Store.createBlock env1 afterBlockId type state))
      = (stateOf (Store.createBlock env1 afterBlockId type state), Returns tt)).
Proof.
  intros [Hroot Hstore].
  destruct (createBlock_root env1 afterBlockId type state Hroot)
    as [Hfilter Hlen].
  destruct (createBlock_shape env1 afterBlockId type state)
    as (root' & Hcreate & _).
  rewrite Hcreate in Hfilter, Hlen. rewrite Hcreate.
  unfold documentOf, stateOf in *. cbn [fst] in *.
  cbn [document withDocument Document.rootBlockIds Document.update] in Hfilter, Hlen.
  unfold Store.deleteBlock, Store.set_.
  cbn [fst document withDocument Document.rootBlockIds Document.blocks
         Document.update].
  rewrite Hlen.
  split.
  - intros Hne.
    destruct (Z.leb_spec
                (Z.of_nat (S (length (Document.rootBlockIds (document state))))) 1)
      as [Hle|_].
    + destruct (Document.rootBlockIds (document state)); [done | simpl in Hle; lia].
    + cbn [document withDocument Document.rootBlockIds Document.blocks
             Document.update].
      split; [by rewrite delete_insert_id | exact Hfilter].
  - intros Hnil. rewrite Hnil. reflexivity.
Qed.

(** A paragraph is added to "hello world" and deleted. *)
Lemma createBlock_then_deleteBlock_witness :
  Document.rootBlockIds
    (documentOf
       (Store.deleteBlock Sample.env1 "new0"
          (stateOf (Store.createBlock Sample.env0 None paragraph Sample.hello))))
  = ["b1"].
Proof.
  assert (Hfresh : fresh (createId Sample.env0 0) Sample.hello).
  { split; [apply (bool_decide_unpack _); by vm_compute | reflexivity]. }
  refine (proj2 (proj1 (createBlock_then_deleteBlock Sample.env0 Sample.env1
                          None paragraph Sample.hello Hfresh) _)).
  discriminate.
Defined.

(** X7 — [deleteBlock] of a block of the root order, in a document with two
    root blocks or more and no duplicate, removes exactly that block: the
    identifier leaves the store and the root order, the other identifiers
    keep their order and the other blocks are untouched. *)
Theorem deleteBlock_removes_one (env : Env) (state : EditorState.t)
    (blockId : BlockId) (l1 l2 : list BlockId) :
  Document.rootBlockIds (document state) = l1 ++ blockId :: l2 ->
  NoDup (Document.rootBlockIds (document state)) ->
  l1 ++ l2 <> [] ->
  Document.rootBlockIds (documentOf (Store.deleteBlock env blockId state))
    = l1 ++ l2
  /\ Document.blocks (documentOf (Store.deleteBlock env blockId state)) !! blockId
     = None
  /\ (forall id, id <> blockId ->
        Document.blocks (documentOf (Store.deleteBlock env blockId state)) !! id
        = Document.blocks (document state) !! id).
Proof.
  intros Hroot Hnd Hne. rewrite Hroot in Hnd.
  destruct (Variants.NoDup_first _ _ _ Hnd) as [H1 H2].
  destruct (deleteBlock_shape env blockId state) as [[Hle _]|[_ Hdel]].
  - rewrite Hroot, length_app in Hle. simpl in Hle.
    destruct l1, l2; simpl in *; try done; lia.
  - unfold documentOf. rewrite Hdel. simpl. rewrite Hroot.
    split.
    { rewrite filter_app, filter_cons_False by (intros Hc; by apply Hc).
      by rewrite !filter_absent. }
    split; [apply lookup_delete_eq|].
    intros id Hid. by rewrite lookup_delete_ne.
Qed.

(** The second of two paragraphs is deleted. *)
Lemma deleteBlock_removes_one_witness :
  Document.rootBlockIds (documentOf (Store.deleteBlock Sample.env0 "b2" Sample.two))
  = ["b1"].
Proof.
  refine (proj1 (deleteBlock_removes_one Sample.env0 Sample.two "b2"
                   ["b1"] [] eq_refl _ _)).
  - apply (bool_decide_unpack _). by vm_compute.
  - discriminate.
Defined.

(** X8 — Offsets out of range are clamped, and negative offsets count from
    the end.  Splitting at an offset at or past the end of the text leaves
    the whole text in the block and creates an empty paragraph; splitting at
    an offset at or before minus the length moves the whole text to the new
    paragraph and empties the block; and splitting at a negative offset
    [-k] within the text is splitting at [length - k]. *)
Theorem splitBlock_offset_out_of_range (env : Env) (state : EditorState.t)
    (blockId : BlockId) (block : Block.t) (offset : Z) :
  Document.blocks (document state) !! blockId = Some block ->
  Block.hasContent block = true ->
  blockId ∈ Document.rootBlockIds (document state) ->
  createId env 0 <> blockId ->
  (strLength (richTextToPlainText (Block.content block)) <= offset ->
     plainTextAt (documentOf (Store.splitBlock env blockId offset state)) blockId
       = Some (richTextToPlainText (Block.content block))
     /\ Block.content <$>
          (Document.blocks (documentOf (Store.splitBlock env blockId offset state))
           !! createId env 0)
        = Some [])
  /\ (offset <= - strLength (richTextToPlainText (Block.content block)) ->
      Block.content <$>
        (Document.blocks (documentOf (Store.splitBlock env blockId offset state))
         !! blockId)
      = Some []
      /\ plainTextAt (documentOf (Store.splitBlock env blockId offset state))
           (createId env 0)
         = Some (richTextToPlainText (Block.content block)))
  /\ (- strLength (richTextToPlainText (Block.content block)) <= offset < 0 ->
      Store.splitBlock env blockId offset state
      = Store.splitBlock env blockId
          (strLength (richTextToPlainText (Block.content block)) + offset) state).
Proof.
  intros Hb Htext Hin Hne.
  destruct (indexOf_present _ _ Hin) as (l1 & l2 & Hroot & Hfirst).
  set (T := richTextToPlainText (Block.content block)).
  assert (Hlen : 0 <= strLength T) by (unfold strLength; lia).
  assert (Hwhole : strTake (String.length T) T = T) by (by apply strTake_all).
  assert (Hnone : strDrop (String.length T) T = "").
  { pose proof (strDrop_length (String.length T) T) as Hd.
    rewrite Nat.sub_diag in Hd. by destruct (strDrop (String.length T) T). }
  rewrite !(splitBlock_applied env state blockId block _ Hb Htext l1 l2 Hroot Hfirst).
  unfold documentOf, stateOf, plainTextAt. simpl.
  rewrite lookup_insert_ne, !lookup_insert_eq by done. simpl.
  change (initialContent (Some ?t)) with (plainTextToRichText t).
  rewrite !plainText_of_plainTextToRichText.
  unfold beforeText, afterText. fold T. rewrite !slice_before, !slice_after.
  split; [|split].
  - intros Hpast.
    assert (Hr : relativeIndex (strLength T) offset = strLength T).
    { unfold relativeIndex. destruct (Z.ltb_spec offset 0); lia. }
    rewrite Hr. unfold strLength. rewrite Nat2Z.id, Hwhole, Hnone. done.
  - intros Hbefore.
    assert (Hr : relativeIndex (strLength T) offset = 0).
    { unfold relativeIndex. destruct (Z.ltb_spec offset 0); lia. }
    rewrite Hr. simpl. by destruct T.
  - intros Hneg.
    assert (Hr : relativeIndex (strLength T) offset
                 = relativeIndex (strLength T) (strLength T + offset)).
    { unfold relativeIndex.
      destruct (Z.ltb_spec offset 0), (Z.ltb_spec (strLength T + offset) 0); lia. }
    by rewrite Hr.
Qed.

(** "hello world" is split at offset 99. *)
Lemma splitBlock_offset_out_of_range_witness :
  Block.content <$>
    (Document.blocks (documentOf (Store.splitBlock Sample.env0 "b1" 99 Sample.hello))
     !! "new0")
  = Some [].
Proof.
  refine (proj2 (proj1 (splitBlock_offset_out_of_range Sample.env0 Sample.hello
                          "b1" (Sample.block "b1" "paragraph" "hello world" []) 99
                          eq_refl eq_refl _ _) _)).
  - apply (bool_decide_unpack _). by vm_compute.
  - discriminate.
  - vm_compute. discriminate.
Defined.

Lemma slice_at_boundary (a b : string) :
  slice (a +:+ b) 0 (Some (strLength a)) = a
  /\ slice (a +:+ b) (strLength a) None = b.
Proof.
  assert (Hlen : String.length (a +:+ b) = (String.length a + String.length b)%nat).
  { induction a as [|c a IH]; [reflexivity|].
    rewrite str_app_cons. simpl. by rewrite IH. }
  rewrite slice_before, slice_after.
  rewrite relativeIndex_in_range by (unfold strLength; rewrite Hlen; lia).
  unfold strLength. rewrite Nat2Z.id.
  rewrite Split.strTake_app_short, Split.strDrop_app_short by lia.
  rewrite strTake_all by lia. split; [reflexivity|].
  pose proof (strDrop_length (String.length a) a) as Hd.
  rewrite Nat.sub_diag in Hd.
  by destruct (strDrop (String.length a) a).
Qed.

(** X9 — Merging a block into its predecessor and then splitting the
    predecessor at the length its text had gives the two texts back: the
    predecessor shows its old text, and a new paragraph, which takes the
    place of the merged block in the root order, shows the text of the
    merged block. *)
Theorem mergeBlockWithPrevious_then_splitBlock (env1 env2 : Env)
    (state : EditorState.t) (blockId previousId : BlockId)
    (previousBlock currentBlock : Block.t) (l1 l2 : list BlockId) :
  Document.rootBlockIds (document state) = l1 ++ previousId :: blockId :: l2 ->
  NoDup (Document.rootBlockIds (document state)) ->
  Document.blocks (document state) !! previousId = Some previousBlock ->
  Document.blocks (document state) !! blockId = Some currentBlock ->
  Block.hasContent previousBlock = true ->
  Block.hasContent currentBlock = true ->
  createId env2 0 <> previousId ->
  completionOf
    (Store.splitBlock env2 previousId
       (strLength (richTextToPlainText (Block.content previousBlock)))
       (stateOf (Store.mergeBlockWithPrevious env1 blockId state)))
  = Returns (createId env2 0)
  /\ Document.rootBlockIds
       (documentOf
          (Store.splitBlock env2 previousId
             (strLength (richTextToPlainText (Block.content previousBlock)))
             (stateOf (Store.mergeBlockWithPrevious env1 blockId state))))
     = l1 ++ previousId :: createId env2 0 :: l2
  /\ plainTextAt
       (documentOf
          (Store.splitBlock env2 previousId
             (strLength (richTextToPlainText (Block.content previousBlock)))
             (stateOf (Store.mergeBlockWithPrevious env1 blockId state))))
       previousId
     = Some (richTextToPlainText (Block.content previousBlock))
  /\ plainTextAt
       (documentOf
          (Store.splitBlock env2 previousId
             (strLength (richTextToPlainText (Block.content previousBlock)))
             (stateOf (Store.mergeBlockWithPrevious env1 blockId state))))
       (createId env2 0)
     = Some (richTextToPlainText (Block.content currentBlock)).
Proof.
  intros Hroot Hnd Hprev Hcur Hp Hc Hnew.
  assert (Hnd' := Hnd). rewrite Hroot in Hnd'.
  change (l1 ++ previousId :: blockId :: l2)
    with (l1 ++ [previousId] ++ blockId :: l2) in Hnd'.
  rewrite (assoc_L (++)) in Hnd'.
  destruct (Variants.NoDup_first _ _ _ Hnd') as [Hb1 Hb2].
  apply not_elem_of_app in Hb1 as [Hb1 Hbp].
  assert (Hne : blockId <> previousId).
  { intros ->. apply Hbp. by left. }
  rewrite <- (assoc_L (++)) in Hnd'. simpl in Hnd'.
  destruct (Variants.NoDup_first _ _ _ Hnd') as [Hp1 _].
  rewrite (mergeBlockWithPrevious_applied env1 state blockId l1 l2 previousId
             previousBlock currentBlock) by done.
  unfold stateOf at 1 2 3 4. cbn [fst].
  assert (Hfilter : filter (fun id => id <> blockId)
                      (Document.rootBlockIds (document state))
                    = l1 ++ previousId :: l2).
  { rewrite Hroot, filter_app, filter_absent by done.
    rewrite filter_cons_True by congruence.
    rewrite filter_cons_False by (intros Hx; by apply Hx).
    by rewrite filter_absent. }
  rewrite Hfilter.
  set (merged := Block.withContent previousBlock
                   (Block.content previousBlock ++ Block.content currentBlock)
                   (dateNow env1 0)).
  set (st := withDocument state _).
  assert (Hmerged : Document.blocks (document st) !! previousId = Some merged).
  { subst st. simpl. apply lookup_insert_eq. }
  assert (Hrt : Document.rootBlockIds (document st) = l1 ++ previousId :: l2)
    by reflexivity.
  rewrite (splitBlock_applied env2 st previousId merged _ Hmerged Hp l1 l2 Hrt Hp1).
  unfold completionOf, documentOf, stateOf, plainTextAt. simpl.
  rewrite lookup_insert_ne, !lookup_insert_eq by done. simpl.
  change (initialContent (Some ?t)) with (plainTextToRichText t).
  rewrite !plainText_of_plainTextToRichText.
  unfold beforeText, afterText. simpl Block.content.
  rewrite plainText_app.
  destruct (slice_at_boundary (richTextToPlainText (Block.content previousBlock))
              (richTextToPlainText (Block.content currentBlock))) as [-> ->].
  repeat split; reflexivity.
Qed.

(** The two paragraphs "hello" and " world" are merged, and split again. *)
Lemma mergeBlockWithPrevious_then_splitBlock_witness :
  plainTextAt
    (documentOf
       (Store.splitBlock Sample.env1 "b1" 5
          (stateOf (Store.mergeBlockWithPrevious Sample.env0 "b2" Sample.two))))
    "new0"
  = Some " world".
Proof.
  refine (proj2 (proj2 (proj2
    (mergeBlockWithPrevious_then_splitBlock Sample.env0 Sample.env1 Sample.two
       "b2" "b1" (Sample.block "b1" "paragraph" "hello" [])
       (Sample.block "b2" "paragraph" " world" []) [] []
       eq_refl _ eq_refl eq_refl eq_refl eq_refl _)))).
  - apply (bool_decide_unpack _). by vm_compute.
  - discriminate.
Defined.

(** X10 — The block actions write the document only: none of them changes
    the selection, the focused block, or the identifier, the title and the
    creation time of the document; and [setFocusedBlock] changes the
    focused block only. *)
Theorem actions_leave_the_rest (env : Env) (state : EditorState.t)
    (blockId : BlockId) (content : list RichText.t)
    (afterBlockId : option BlockId) (type : BlockType) (offset : Z)
    (focus : option BlockId) :
  let kept (state' : EditorState.t) :=
    selection state' = selection state
    /\ ui state' = ui state
    /\ Document.id (document state') = Document.id (document state)
    /\ Document.title (document state') = Document.title (document state)
    /\ Document.createdAt (document state') = Document.createdAt (document state) in
  kept (stateOf (Store.updateBlockContent env blockId content state))
  /\ kept (stateOf (Store.createBlock env afterBlockId type state))
  /\ kept (stateOf (Store.deleteBlock env blockId state))
  /\ kept (stateOf (Store.mergeBlockWithPrevious env blockId state))
  /\ kept (stateOf (Store.splitBlock env blockId offset state))
  /\ document (stateOf (Store.setFocusedBlock focus state)) = document state
  /\ selection (stateOf (Store.setFocusedBlock focus state)) = selection state
  /\ Selectors.selectFocusedBlockId (stateOf (Store.setFocusedBlock focus state))
     = focus.
Proof.
  intros kept. subst kept. cbv beta.
  split; [|split; [|split; [|split; [|split]]]].
  - destruct (updateBlockContent_shape env blockId content state)
      as [->|(b & _ & _ & ->)]; repeat split.
  - destruct (createBlock_shape env afterBlockId type state) as (r & -> & _).
    repeat split.
  - destruct (deleteBlock_shape env blockId state) as [[_ ->]|[_ ->]];
      repeat split.
  - destruct (mergeBlockWithPrevious_shape env blockId state)
      as [->|(? & ? & ? & ? & ? & _ & _ & _ & _ & _ & _ & _ & ->)]; repeat split.
  - destruct (splitBlock_shape env blockId offset state)
      as [->|(? & ? & ? & _ & _ & _ & _ & ->)]; repeat split.
  - repeat split.
Qed.

(** X11 — Plain text and rich text.  [plainTextToRichText] followed by
    [richTextToPlainText] gives the text back; the rich text of a text is
    empty exactly when the text is empty, and otherwise one run without
    marks; and the plain text of a concatenation of runs is the
    concatenation of the plain texts, the marks playing no part. *)
Theorem richText_plainText_roundtrip (text : string) (c1 c2 : list RichText.t) :
  richTextToPlainText (plainTextToRichText text) = text
  /\ (plainTextToRichText text = [] <-> text = "")
  /\ (text <> "" -> plainTextToRichText text = [RichText.mk text []])
  /\ richTextToPlainText (c1 ++ c2)
     = richTextToPlainText c1 +:+ richTextToPlainText c2
  /\ richTextToPlainText
       (map (fun r => RichText.mk (RichText.text r) []) c1)
     = richTextToPlainText c1
  /\ Components.renderRichText (plainTextToRichText text) = text.
Proof.
  split; [apply plainText_of_plainTextToRichText|].
  split; [unfold plainTextToRichText; destruct text; simpl; split; done|].
  split; [intros Hne; unfold plainTextToRichText; by destruct text|].
  split; [apply plainText_app|].
  split; [|apply plainText_of_plainTextToRichText].
  unfold richTextToPlainText. by rewrite map_map.
Qed.

Lemma richText_plainText_roundtrip_witness :
  plainTextToRichText "hello" = [RichText.mk "hello" []].
Proof.
  apply (proj1 (proj2 (proj2 (richText_plainText_roundtrip "hello" [] [])))).
  discriminate.
Defined.

Lemma omap_agree {A B} (f g : A -> option B) (l : list A) :
  (forall x, x ∈ l -> f x = g x) -> omap f l = omap g l.
Proof.
  induction l as [|x l IH]; intros Hfg; [reflexivity|].
  change (omap f (x :: l))
    with (match f x with Some y => y :: omap f l | None => omap f l end).
  change (omap g (x :: l))
    with (match g x with Some y => y :: omap g l | None => omap g l end).
  rewrite (Hfg x) by (by left).
  rewrite IH by (intros y Hy; apply Hfg; by right). reflexivity.
Qed.

Lemma omap_cons_Some {A B} (f : A -> option B) (x : A) (y : B) (l : list A) :
  f x = Some y -> omap f (x :: l) = y :: omap f l.
Proof.
  intros Hx.
  change (omap f (x :: l))
    with (match f x with Some y => y :: omap f l | None => omap f l end).
  by rewrite Hx.
Qed.

Lemma join_middle (l1 l2 : list string) (a b : string) :
  join "" (l1 ++ a :: b :: l2) = join "" (l1 ++ (a +:+ b) :: l2).
Proof.
  rewrite !join_app, !join_cons. by rewrite str_app_assoc.
Qed.

(** X12 — Enter and Backspace do not change the text of the document.  On a
    root order without duplicate, the plain texts of the blocks, read in the
    root order one after the other, are the same text before and after
    [splitBlock] (at any offset, the generated identifier being new to the
    root order) and before and after [mergeBlockWithPrevious]. *)
Theorem split_and_merge_keep_documentText (env : Env) (state : EditorState.t)
    (blockId : BlockId) (offset : Z) :
  NoDup (Document.rootBlockIds (document state)) ->
  (createId env 0 ∉ Document.rootBlockIds (document state) ->
     documentText (documentOf (Store.splitBlock env blockId offset state))
     = documentText (document state))
  /\ documentText (documentOf (Store.mergeBlockWithPrevious env blockId state))
     = documentText (document state).
Proof.
  intros Hnd. split.
  - intros Hfresh. unfold documentOf.
    destruct (splitBlock_shape env blockId offset state)
      as [->|(block & l1 & l2 & Hb & _ & Hroot & _ & ->)]; [reflexivity|].
    unfold stateOf, documentText, blockTexts.
    cbn [fst document withDocument Document.rootBlockIds Document.update].
    set (d' := Document.update _ _ _ _).
    rewrite Hroot in *.
    destruct (Variants.NoDup_first _ _ _ Hnd) as [H1 H2].
    apply not_elem_of_app in Hfresh as [Hn1 Hn2].
    apply not_elem_of_cons in Hn2 as [Hne Hn2].
    assert (Hid : plainTextAt d' blockId = Some (beforeText block offset)).
    { unfold plainTextAt. subst d'. simpl.
      rewrite lookup_insert_ne, lookup_insert_eq by done. simpl.
      by rewrite plainText_of_plainTextToRichText. }
    assert (Hnew : plainTextAt d' (createId env 0)
                   = Some (afterText block offset)).
    { unfold plainTextAt. subst d'. simpl. rewrite lookup_insert_eq. simpl.
      change (initialContent (Some ?t)) with (plainTextToRichText t).
      by rewrite plainText_of_plainTextToRichText. }
    assert (Hold : plainTextAt (document state) blockId
                   = Some (richTextToPlainText (Block.content block))).
    { unfold plainTextAt. by rewrite Hb. }
    assert (Hrest : forall x, x <> blockId -> x <> createId env 0 ->
              plainTextAt d' x = plainTextAt (document state) x).
    { intros x Hx1 Hx2. unfold plainTextAt. subst d'. simpl.
      by rewrite !lookup_insert_ne. }
    rewrite !omap_app.
    rewrite (omap_cons_Some _ _ _ _ Hid), (omap_cons_Some _ _ _ _ Hnew),
      (omap_cons_Some _ _ _ _ Hold).
    rewrite (omap_agree (plainTextAt d') (plainTextAt (document state)) l1)
      by (intros x Hx; apply Hrest; intros ->; done).
    rewrite (omap_agree (plainTextAt d') (plainTextAt (document state)) l2)
      by (intros x Hx; apply Hrest; intros ->; done).
    by rewrite join_middle, before_after.
  - unfold documentOf.
    destruct (mergeBlockWithPrevious_shape env blockId state)
      as [->|(l1 & l2 & previousId & P & C & Hroot & _ & Hne & HP & HC & _ & _ & ->)];
      [reflexivity|].
    unfold documentText, blockTexts.
    cbn [fst document withDocument Document.rootBlockIds Document.update].
    set (d' := Document.update _ _ _ _).
    rewrite Hroot in *.
    assert (Hnd' := Hnd).
    change (l1 ++ previousId :: blockId :: l2)
      with (l1 ++ [previousId] ++ blockId :: l2) in Hnd'.
    rewrite (assoc_L (++)) in Hnd'.
    destruct (Variants.NoDup_first _ _ _ Hnd') as [Hb1 Hb2].
    apply not_elem_of_app in Hb1 as [Hb1 _].
    destruct (Variants.NoDup_first _ _ _ Hnd) as [Hp1 Hp2].
    apply not_elem_of_cons in Hp2 as [_ Hp2].
    rewrite filter_app, filter_absent by done.
    rewrite filter_cons_True by congruence.
    rewrite filter_cons_False by (intros Hx; by apply Hx).
    rewrite filter_absent by done.
    assert (Hprev' : plainTextAt d' previousId
                     = Some (richTextToPlainText (Block.content P)
                             +:+ richTextToPlainText (Block.content C))).
    { unfold plainTextAt. subst d'. simpl. rewrite lookup_insert_eq. simpl.
      by rewrite plainText_app. }
    assert (Hprev : plainTextAt (document state) previousId
                    = Some (richTextToPlainText (Block.content P))).
    { unfold plainTextAt. by rewrite HP. }
    assert (Hcur : plainTextAt (document state) blockId
                   = Some (richTextToPlainText (Block.content C))).
    { unfold plainTextAt. by rewrite HC. }
    assert (Hrest : forall x, x <> previousId -> x <> blockId ->
              plainTextAt d' x = plainTextAt (document state) x).
    { intros x Hx1 Hx2. unfold plainTextAt. subst d'. simpl.
      by rewrite lookup_insert_ne, lookup_delete_ne. }
    rewrite !omap_app.
    rewrite (omap_cons_Some _ _ _ _ Hprev'), (omap_cons_Some _ _ _ _ Hprev),
      (omap_cons_Some _ _ _ _ Hcur).
    rewrite (omap_agree (plainTextAt d') (plainTextAt (document state)) l1)
      by (intros x Hx; apply Hrest; intros ->; done).
    rewrite (omap_agree (plainTextAt d') (plainTextAt (document state)) l2)
      by (intros x Hx; apply Hrest; intros ->; done).
    by rewrite join_middle.
Qed.

(** Splitting "hello world" keeps the text "hello world". *)
Lemma split_and_merge_keep_documentText_witness :
  documentText (documentOf (Store.splitBlock Sample.env0 "b1" 5 Sample.hello))
  = "hello world".
Proof.
  assert (Hnd : NoDup (Document.rootBlockIds (document Sample.hello))).
  { apply (bool_decide_unpack _). by vm_compute. }
  assert (Hfresh : createId Sample.env0 0
                   ∉ Document.rootBlockIds (document Sample.hello)).
  { apply (bool_decide_unpack _). by vm_compute. }
  rewrite (proj1 (split_and_merge_keep_documentText Sample.env0 Sample.hello
                    "b1" 5 Hnd) Hfresh).
  reflexivity.
Defined.

(** X22 — What [splitBlock] returns.  It returns the empty string, and
    leaves the state as it is, when the block does not hold content, and
    when the identifier is not in the store and is not the name of a member
    of [Object.prototype] (for such a name the read of [blocks[blockId]]
    gives the inherited member and not [undefined], and the call does not
    return).  For a block of the store that holds content it returns the
    generated identifier, also when the block is not in the root order, in
    which case nothing is inserted and the identifier it returns names no
    block.  The state changes exactly when the block is in the store, holds
    content and is in the root order. *)
Theorem splitBlock_returned_identifier (env : Env) (state : EditorState.t)
    (blockId : BlockId) (offset : Z) :
  ((Document.blocks (document state) !! blockId = None
    /\ inherited blockId = false)
   \/ (exists block, Document.blocks (document state) !! blockId = Some block
                     /\ Block.hasContent block = false) ->
   Store.splitBlock env blockId offset state = (state, Returns ""))
  /\ (forall block,
        Document.blocks (document state) !! blockId = Some block ->
        Block.hasContent block = true ->
        completionOf (Store.splitBlock env blockId offset state)
          = Returns (createId env 0)
        /\ (blockId ∉ Document.rootBlockIds (document state) ->
            stateOf (Store.splitBlock env blockId offset state) = state)
        /\ (blockId ∈ Document.rootBlockIds (document state) ->
            is_Some
              (Document.blocks
                 (documentOf (Store.splitBlock env blockId offset state))
               !! createId env 0)
            /\ createId env 0
               ∈ Document.rootBlockIds
                   (documentOf (Store.splitBlock env blockId offset state))))
  /\ (stateOf (Store.splitBlock env blockId offset state) <> state <->
      exists block,
        Document.blocks (document state) !! blockId = Some block
        /\ Block.hasContent block = true
        /\ blockId ∈ Document.rootBlockIds (document state)).
Proof.
  split; [|split].
  - intros [[Hnone _]|(block & Hb & Ht)]; unfold Store.splitBlock.
    + by rewrite Hnone.
    + by rewrite Hb, Ht.
  - intros block Hb Ht. split; [|split].
    + unfold Store.splitBlock, completionOf. by rewrite Hb, Ht.
    + intros Hnot. by rewrite (splitBlock_not_in_root env state blockId block).
    + intros Hin. destruct (indexOf_present _ _ Hin) as (l1 & l2 & Hroot & Hfirst).
      rewrite (splitBlock_applied env state blockId block offset Hb Ht l1 l2
                 Hroot Hfirst).
      unfold documentOf, stateOf. simpl. rewrite lookup_insert_eq.
      split; [eauto|]. rewrite !elem_of_app, !elem_of_cons. tauto.
  - split.
    + intros Hchanged.
      destruct (splitBlock_shape env blockId offset state)
        as [Hsame|(block & l1 & l2 & Hb & Ht & Hroot & _ & _)]; [done|].
      exists block. repeat split; try done.
      rewrite Hroot. apply elem_of_app. right. by left.
    + intros (block & Hb & Ht & Hin) Hsame.
      destruct (indexOf_present _ _ Hin) as (l1 & l2 & Hroot & Hfirst).
      rewrite (splitBlock_applied env state blockId block offset Hb Ht l1 l2
                 Hroot Hfirst) in Hsame.
      unfold stateOf in Hsame. simpl in Hsame.
      apply (f_equal (fun s => length (Document.rootBlockIds (document s))))
        in Hsame.
      simpl in Hsame. rewrite Hroot, !length_app in Hsame. simpl in Hsame. lia.
Qed.

(** An identifier that is not in the store, and a block that is in the
    store but not in the root order. *)
Lemma splitBlock_returned_identifier_witness :
  Store.splitBlock Sample.env0 "ghost" 2 Sample.two = (Sample.two, Returns "")
  /\ Store.splitBlock Sample.env0 "c1" 2 Sample.nested
     = (Sample.nested, Returns "new0").
Proof.
  split.
  - apply (proj1 (splitBlock_returned_identifier Sample.env0 Sample.two
                    "ghost" 2)).
    left. split; reflexivity.
  - destruct (proj1 (proj2 (splitBlock_returned_identifier Sample.env0
                              Sample.nested "c1" 2))
                (Sample.block "c1" "paragraph" "child" []) eq_refl eq_refl)
      as (Hret & Hsame & _).
    assert (Hnot : "c1" ∉ Document.rootBlockIds (document Sample.nested)).
    { apply (bool_decide_unpack _). by vm_compute. }
    specialize (Hsame Hnot).
    destruct (Store.splitBlock Sample.env0 "c1" 2 Sample.nested) as [st ret].
    unfold completionOf, stateOf in *. simpl in *. by subst.
Defined.

(** X23 — When [mergeBlockWithPrevious] applies.  The state changes exactly
    when the first occurrence of the block in the root order has a
    predecessor, both blocks are in the store and both hold content; in
    every other case, a block that is missing from the store or a type that
    fails the guard included, the state is left as it is. *)
Theorem mergeBlockWithPrevious_applies_iff (env : Env) (state : EditorState.t)
    (blockId : BlockId) :
  stateOf (Store.mergeBlockWithPrevious env blockId state) <> state
  <-> exists l1 l2 previousId previousBlock currentBlock,
        Document.rootBlockIds (document state) = l1 ++ previousId :: blockId :: l2
        /\ (blockId ∉ l1) /\ blockId <> previousId
        /\ Document.blocks (document state) !! previousId = Some previousBlock
        /\ Document.blocks (document state) !! blockId = Some currentBlock
        /\ Block.hasContent previousBlock = true
        /\ Block.hasContent currentBlock = true.
Proof.
  split.
  - intros Hchanged.
    destruct (mergeBlockWithPrevious_shape env blockId state)
      as [Hsame|(l1 & l2 & p & P & C & H1 & H2 & H3 & H4 & H5 & H6 & H7 & _)];
      [done|].
    by exists l1, l2, p, P, C.
  - intros (l1 & l2 & p & P & C & H1 & H2 & H3 & H4 & H5 & H6 & H7) Hsame.
    rewrite (mergeBlockWithPrevious_applied env state blockId l1 l2 p P C)
      in Hsame by done.
    unfold stateOf in Hsame. simpl in Hsame.
    apply (f_equal (fun s => Document.blocks (document s) !! blockId)) in Hsame.
    simpl in Hsame. rewrite lookup_insert_ne, lookup_delete_eq, H5 in Hsame by done.
    discriminate Hsame.
Qed.

(** The second of the two paragraphs that typing and splitting give. *)
Lemma mergeBlockWithPrevious_applies_iff_witness :
  stateOf (Store.mergeBlockWithPrevious Sample.env1 "new0" Sample.typedSplit)
  <> Sample.typedSplit.
Proof.
  apply (proj2 (mergeBlockWithPrevious_applies_iff Sample.env1
                  Sample.typedSplit "new0")).
  assert (Hp : exists previousBlock,
             Document.blocks (document Sample.typedSplit) !! "init0"
             = Some previousBlock
             /\ Block.hasContent previousBlock = true).
  { vm_compute. eexists. split; reflexivity. }
  assert (Hc : exists currentBlock,
             Document.blocks (document Sample.typedSplit) !! "new0"
             = Some currentBlock
             /\ Block.hasContent currentBlock = true).
  { vm_compute. eexists. split; reflexivity. }
  destruct Hp as (previousBlock & Hp & Hpt), Hc as (currentBlock & Hc & Hct).
  exists [], [], "init0", previousBlock, currentBlock.
  repeat split; try done. apply not_elem_of_nil.
Defined.

(** X24 — A document the store reaches is never empty: from the initial
    state on, whatever actions are called (with generated identifiers that
    are new), the root order holds at least one block. *)
Theorem reachable_never_empty (state : EditorState.t) :
  reachable state -> Document.rootBlockIds (document state) <> [].
Proof.
  intros Hreach.
  assert (Hboth : wellFormed (document state)
                  /\ Document.rootBlockIds (document state) <> []).
  { induction Hreach as [env|state state' _ [Hwf Hne] Hstep].
    - split; [apply Invariants.wellFormed_initial | discriminate].
    - destruct Hstep as [env blockId content state
                        |env afterBlockId type state Hfresh
                        |env blockId state
                        |env blockId state
                        |env blockId offset state Hfresh
                        |focus state].
      + split; [by apply Invariants.wellFormed_updateBlockContent|].
        by destruct (updateBlockContent_shape env blockId content state)
          as [->|(b & _ & _ & ->)].
      + split; [by apply Invariants.wellFormed_createBlock|].
        destruct (createBlock_root env afterBlockId type state (proj1 Hfresh))
          as [_ Hlen].
        unfold documentOf in Hlen. intros Hnil. rewrite Hnil in Hlen.
        discriminate Hlen.
      + split; [by apply Invariants.wellFormed_deleteBlock|].
        destruct (deleteBlock_shape env blockId state) as [[_ ->]|[Hlen ->]];
          [done|].
        simpl. intros Hnil.
        pose proof (Delete.filter_loses_at_most_one _ blockId (wf_nodup _ Hwf))
          as Hcount.
        rewrite Hnil in Hcount. simpl in Hcount. lia.
      + split; [by apply Invariants.wellFormed_mergeBlockWithPrevious|].
        destruct (mergeBlockWithPrevious_shape env blockId state)
          as [->|(l1 & l2 & p & P & C & Hroot & _ & Hp & _ & _ & _ & _ & ->)];
          [done|].
        simpl. intros Hnil.
        assert (Hin : p ∈ filter (fun id => id <> blockId)
                          (Document.rootBlockIds (document state))).
        { apply list_elem_of_filter. split; [congruence|].
          rewrite Hroot. apply elem_of_app. right. by left. }
        rewrite Hnil in Hin. by apply elem_of_nil in Hin.
      + split; [by apply Invariants.wellFormed_splitBlock|].
        destruct (splitBlock_shape env blockId offset state)
          as [->|(b & l1 & l2 & _ & _ & _ & _ & ->)]; [done|].
        unfold stateOf. simpl. by destruct l1.
      + split; [exact Hwf | exact Hne]. }
  apply Hboth.
Qed.

(** The two paragraphs that typing and splitting give cannot both be
    deleted. *)
Lemma reachable_never_empty_witness :
  Document.rootBlockIds
    (document
       (stateOf (Store.deleteBlock Sample.env1 "init0"
                   (stateOf (Store.deleteBlock Sample.env1 "new0"
                               Sample.typedSplit)))))
  <> [].
Proof.
  apply reachable_never_empty.
  eapply reachable_step; [eapply reachable_step|].
  - eapply reachable_step;
      [eapply reachable_step; [apply (reachable_initial Sample.envInit)|]|].
    + apply (step_updateBlockContent Sample.env0 "init0"
               [RichText.mk "hello world" []]).
    + apply (step_splitBlock Sample.env0 "init0" 5).
      split; [apply (bool_decide_unpack _); by vm_compute | reflexivity].
  - apply (step_deleteBlock Sample.env1 "new0").
  - apply (step_deleteBlock Sample.env1 "init0").
Defined.

End Actions.

(** ** Invariants of the history slice *)

Module HistoryInvariants.

Import JS JSFacts History Scenario Keyboard.

(** Expose the fields of a store. *)
Ltac fields s :=
  destruct s as [?e ?h [[?k ?b ?op]|] [?c ?sch ?n]];
  unfold oneTimer, pointerInRange in *; simpl in *.

Lemma oneTimer_commitBatch (s : History.t) :
  oneTimer s -> oneTimer (commitBatch s).
Proof.
  fields s; [|done]. intros [due ->].
  unfold commitBatch. simpl. by rewrite HistoryFacts.filter_own_handle.
Qed.

Lemma commitBatch_pending (s : History.t) : pendingBatch (commitBatch s) = None.
Proof. by fields s. Qed.

Lemma oneTimer_schedule (b op : string) (s : History.t) :
  scheduled (timers s) = [] -> oneTimer (schedule b op s).
Proof. fields s; intros ->; unfold schedule; simpl; by eexists. Qed.

Lemma oneTimer_idle (s : History.t) :
  oneTimer s -> pendingBatch s = None -> scheduled (timers s) = [].
Proof. by fields s. Qed.

Lemma oneTimer_setHistory (h : HistoryState) (s : History.t) :
  oneTimer s -> oneTimer (setHistory h s).
Proof. by fields s. Qed.

Lemma oneTimer_pushHistory (op : string) (options : option Options) (s : History.t) :
  oneTimer s -> oneTimer (pushHistory op options s).
Proof.
  intros Hone. unfold pushHistory.
  destruct (batchKey options) as [b|].
  - destruct (pendingBatch s) as [pending|] eqn:Hp.
    + destruct (_ && _).
      * apply oneTimer_schedule. simpl.
        unfold oneTimer in Hone. rewrite Hp in Hone. destruct Hone as [due ->].
        by rewrite HistoryFacts.filter_own_handle.
      * apply oneTimer_schedule.
        apply oneTimer_idle; [by apply oneTimer_commitBatch|].
        apply commitBatch_pending.
    + apply oneTimer_schedule. by apply oneTimer_idle.
  - apply oneTimer_setHistory.
    destruct (pendingBatch s); [by apply oneTimer_commitBatch | done].
Qed.

Lemma oneTimer_setDocument (d : Document.t) (s : History.t) :
  oneTimer s -> oneTimer (setDocument d s).
Proof. by fields s. Qed.

Lemma oneTimer_undo (s : History.t) : oneTimer s -> oneTimer (undo s).
Proof.
  intros Hone. unfold undo.
  set (s' := match pendingBatch s with Some _ => commitBatch s | None => s end).
  assert (Hs' : oneTimer s').
  { subst s'. destruct (pendingBatch s); [by apply oneTimer_commitBatch | done]. }
  destruct (_ <=? 0); [done|].
  destruct (at_ _ _); [|done].
  by apply oneTimer_setHistory, oneTimer_setDocument.
Qed.

Lemma oneTimer_redo (s : History.t) : oneTimer s -> oneTimer (redo s).
Proof.
  intros Hone. unfold redo.
  destruct (_ <=? _); [done|]. destruct (at_ _ _); [|done].
  by apply oneTimer_setHistory, oneTimer_setDocument.
Qed.

Lemma oneTimer_elapse (ms : Z) (s : History.t) : oneTimer s -> oneTimer (elapse ms s).
Proof.
  fields s.
  - intros [due ->]. unfold elapse. simpl.
    destruct (due <=? c + ms); simpl; [|by eexists].
    unfold commitBatch. simpl.
    by rewrite !HistoryFacts.filter_own_handle.
  - intros ->. reflexivity.
Qed.

Lemma oneTimer_step (s : History.t) (e : Event) : oneTimer s -> oneTimer (step s e).
Proof.
  destruct e; simpl.
  - by fields s.
  - apply oneTimer_pushHistory.
  - apply oneTimer_commitBatch.
  - apply oneTimer_undo.
  - apply oneTimer_redo.
  - apply oneTimer_elapse.
Qed.

(** X13 — At most one timer.  After any sequence of edits, commits,
    flushes, undos, redos and lapses of time from the initial store, no
    timer is scheduled while no batch is open, and while a batch is open
    exactly one timer is scheduled, the one whose handle the batch holds. *)
Theorem at_most_one_timer (events : list Event) (e : EditorState.t) :
  oneTimer (run events (init e))
  /\ (length (scheduled (timers (run events (init e)))) <= 1)%nat.
Proof.
  assert (Hrun : forall s, oneTimer s -> oneTimer (run events s)).
  { unfold run. induction events as [|ev events IH]; intros s Hs; [done|].
    simpl. apply IH. by apply oneTimer_step. }
  assert (Hone : oneTimer (run events (init e))) by (by apply Hrun).
  split; [exact Hone|].
  unfold oneTimer in Hone.
  destruct (pendingBatch (run events (init e))).
  - destruct Hone as [due ->]. simpl. lia.
  - rewrite Hone. simpl. lia.
Qed.

Lemma pointer_on_last {A} (l : list A) :
  -1 <= Z.of_nat (length l) - 1 < Z.of_nat (length l).
Proof. lia. Qed.

Lemma pointerInRange_commitBatch (s : History.t) :
  pointerInRange s -> pointerInRange (commitBatch s).
Proof. fields s; [|done]. intros _. apply pointer_on_last. Qed.

Lemma pointerInRange_schedule (b op : string) (s : History.t) :
  pointerInRange s -> pointerInRange (schedule b op s).
Proof. by fields s. Qed.

Lemma pointerInRange_pushHistory (op : string) (options : option Options)
    (s : History.t) :
  pointerInRange s -> pointerInRange (pushHistory op options s).
Proof.
  intros Hin. unfold pushHistory.
  destruct (batchKey options) as [b|].
  - destruct (pendingBatch s) as [pending|] eqn:Hp.
    + destruct (_ && _).
      * apply pointerInRange_schedule. by fields s.
      * by apply pointerInRange_schedule, pointerInRange_commitBatch.
    + by apply pointerInRange_schedule.
  - unfold pointerInRange. simpl. apply pointer_on_last.
Qed.

Lemma at_in_range {A} (l : list A) (i : Z) :
  0 <= i < Z.of_nat (length l) -> is_Some (at_ l i).
Proof.
  intros Hi. unfold at_. destruct (Z.ltb_spec i 0); [lia|].
  apply lookup_lt_is_Some. lia.
Qed.

Lemma pointerInRange_undo (s : History.t) :
  pointerInRange s -> pointerInRange (undo s).
Proof.
  intros Hin. unfold undo.
  set (s' := match pendingBatch s with Some _ => commitBatch s | None => s end).
  assert (Hs' : pointerInRange s').
  { subst s'. destruct (pendingBatch s); [by apply pointerInRange_commitBatch | done]. }
  destruct (Z.leb_spec (currentIndex (history s)) 0); [done|].
  destruct (at_ _ _); [|done].
  unfold pointerInRange in *. simpl. lia.
Qed.

Lemma pointerInRange_redo (s : History.t) :
  pointerInRange s -> pointerInRange (redo s).
Proof.
  intros Hin. unfold redo.
  destruct (Z.leb_spec (Z.of_nat (length (entries (history s))) - 1)
              (currentIndex (history s))); [done|].
  destruct (at_ _ _); [|done].
  unfold pointerInRange in *. simpl. lia.
Qed.

Lemma pointerInRange_elapse (ms : Z) (s : History.t) :
  pointerInRange s -> pointerInRange (elapse ms s).
Proof.
  intros Hin. unfold elapse.
  assert (Hfire : forall rounds target s0,
            pointerInRange s0 -> pointerInRange (fireDue rounds target s0)).
  { induction rounds as [|rounds IH]; intros target s0 Hs0; [done|].
    simpl. destruct (earliest _) as [[handle due]|]; [|done].
    destruct (due <=? target); [|done].
    apply IH, pointerInRange_commitBatch. exact Hs0. }
  specialize (Hfire (length (scheduled (timers s))) (clock (timers s) + ms) s Hin).
  exact Hfire.
Qed.

Lemma pointerInRange_step (s : History.t) (e : Event) :
  pointerInRange s -> pointerInRange (step s e).
Proof.
  destruct e; simpl.
  - done.
  - apply pointerInRange_pushHistory.
  - apply pointerInRange_commitBatch.
  - apply pointerInRange_undo.
  - apply pointerInRange_redo.
  - apply pointerInRange_elapse.
Qed.

(** X14 — The pointer never leaves the stack.  After any sequence of events
    from the initial store the pointer is on an entry or just before the
    first one; hence whenever [canUndo] (or [canRedo]) answers yes, the
    entry [undo] (or [redo]) reads exists, and neither ever reads an
    undefined entry. *)
Theorem pointer_stays_in_range (events : list Event) (e : EditorState.t) :
  pointerInRange (run events (init e))
  /\ (canUndo (run events (init e)) = true ->
      is_Some (at_ (entries (history (run events (init e))))
                 (currentIndex (history (run events (init e))) - 1)))
  /\ (canRedo (run events (init e)) = true ->
      is_Some (at_ (entries (history (run events (init e))))
                 (currentIndex (history (run events (init e))) + 1))).
Proof.
  assert (Hrun : forall s, pointerInRange s -> pointerInRange (run events s)).
  { unfold run. induction events as [|ev events IH]; intros s Hs; [done|].
    simpl. apply IH. by apply pointerInRange_step. }
  assert (Hin : pointerInRange (run events (init e))).
  { apply Hrun. unfold pointerInRange. simpl. lia. }
  split; [exact Hin|]. unfold pointerInRange, canUndo, canRedo in *.
  split; intros Hcan; apply at_in_range; lia.
Qed.

(** After the four keystrokes of the scenario an undo is possible, and the
    entry it reads exists. *)
Lemma pointer_stays_in_range_witness :
  is_Some
    (at_ (entries (history (run Scenario.editThenCommit (init Sample.two))))
       (currentIndex (history (run Scenario.editThenCommit (init Sample.two)))
        - 1)).
Proof.
  apply (proj1 (proj2 (pointer_stays_in_range Scenario.editThenCommit
                         Sample.two))).
  vm_compute. reflexivity.
Defined.

End HistoryInvariants.

(** ** Undo, redo and commits *)

Module HistoryMore.

Import JS JSFacts History Scenario Keyboard.

Lemma withEntries_same (h : HistoryState) :
  withEntries h (entries h) (currentIndex h) = h.
Proof. by destruct h. Qed.

(** X15 — Undo and redo are inverse of each other away from the ends of the
    stack.  With no batch open and the pointer on an entry that has a
    predecessor, [undo] followed by [redo] puts the pointer back and makes
    the document of that entry the live document; with the pointer on an
    entry that has a successor, [redo] followed by [undo] does the same.
    The history itself is where it was. *)
Theorem undo_redo_inverse e (h : HistoryState) c n :
  (0 < currentIndex h < Z.of_nat (length (entries h)) ->
   exists entry,
     at_ (entries h) (currentIndex h) = Some entry
     /\ redo (undo (idle e h c n))
        = idle (EditorState.withDocument e (entryDocument entry)) h c n)
  /\ (0 <= currentIndex h < Z.of_nat (length (entries h)) - 1 ->
      exists entry,
        at_ (entries h) (currentIndex h) = Some entry
        /\ undo (redo (idle e h c n))
           = idle (EditorState.withDocument e (entryDocument entry)) h c n).
Proof.
  split; intros Hidx.
  - destruct (HistoryInvariants.at_in_range (entries h) (currentIndex h))
      as [entry Hentry]; [lia|].
    destruct (HistoryInvariants.at_in_range (entries h) (currentIndex h - 1))
      as [before Hbefore]; [lia|].
    exists entry. split; [exact Hentry|].
    rewrite (HistoryFacts.undo_restores_previous e h c n before) by (done || lia).
    unfold redo, idle. simpl.
    destruct (Z.leb_spec (Z.of_nat (length (entries h)) - 1) (currentIndex h - 1));
      [lia|].
    replace (currentIndex h - 1 + 1) with (currentIndex h) by lia.
    rewrite Hentry. unfold setHistory, setDocument, withEntries. simpl.
    by destruct h.
  - destruct (HistoryInvariants.at_in_range (entries h) (currentIndex h))
      as [entry Hentry]; [lia|].
    destruct (HistoryInvariants.at_in_range (entries h) (currentIndex h + 1))
      as [next Hnext]; [lia|].
    exists entry. split; [exact Hentry|].
    unfold redo, undo, idle. simpl.
    destruct (Z.leb_spec (Z.of_nat (length (entries h)) - 1) (currentIndex h));
      [lia|].
    rewrite Hnext. simpl.
    destruct (Z.leb_spec (currentIndex h + 1) 0); [lia|].
    replace (currentIndex h + 1 - 1) with (currentIndex h) by lia.
    rewrite Hentry. unfold setHistory, setDocument, withEntries. simpl.
    by destruct h.
Qed.

(** Two entries, the pointer on the second. *)
Lemma undo_redo_inverse_witness :
  document
    (redo (undo (idle Sample.hello
                   {| entries :=
                        [ {| entryDocument := EditorState.document Sample.two;
                             timestamp := 1; entryOperationType := "typing" |};
                          {| entryDocument := EditorState.document Sample.hello;
                             timestamp := 2; entryOperationType := "typing" |} ];
                      currentIndex := 1; maxEntries := 100 |} 5 0)))
  = EditorState.document Sample.hello.
Proof.
  destruct (proj1 (undo_redo_inverse Sample.hello
              {| entries :=
                   [ {| entryDocument := EditorState.document Sample.two;
                        timestamp := 1; entryOperationType := "typing" |};
                     {| entryDocument := EditorState.document Sample.hello;
                        timestamp := 2; entryOperationType := "typing" |} ];
                 currentIndex := 1; maxEntries := 100 |} 5 0))
    as (entry & Hentry & ->).
  - simpl. lia.
  - injection Hentry as <-. reflexivity.
Defined.

(** X16 — A commit discards the redo history.  After a structural
    [pushHistory], in whatever state, and after the flush of an open batch,
    the pointer is on the last entry and [canRedo] answers no; the flush
    keeps the entries up to the old pointer in front of the new entry and
    drops those after it. *)
Theorem commit_clears_redo (op : string) (s : History.t) :
  canRedo (pushHistory op None s) = false
  /\ (is_Some (pendingBatch s) -> canRedo (commitBatch s) = false)
  /\ (is_Some (pendingBatch s) ->
      entries (history (commitBatch s))
      = arraySlice (entries (history s)) 0 (Some (currentIndex (history s) + 1))
          ++ [{| entryDocument := document s;
                 timestamp := clock (timers s);
                 entryOperationType :=
                   default "" (operationType <$> pendingBatch s) |}]).
Proof.
  split; [|split].
  - unfold canRedo, pushHistory. simpl. lia.
  - intros [pending Hp]. unfold canRedo, commitBatch. rewrite Hp. simpl. lia.
  - intros [pending Hp]. unfold commitBatch. rewrite Hp. reflexivity.
Qed.

(** The flush of an open batch after an undo. *)
Lemma commit_clears_redo_witness :
  canRedo
    (commitBatch
       (batchOpen Sample.hello
          {| entries :=
               [ {| entryDocument := EditorState.document Sample.two;
                    timestamp := 1; entryOperationType := "typing" |};
                 {| entryDocument := EditorState.document Sample.hello;
                    timestamp := 2; entryOperationType := "typing" |} ];
             currentIndex := 0; maxEntries := 100 |}
          "b1" "typing" 0 500 5 1))
  = false.
Proof.
  refine (proj1 (proj2 (commit_clears_redo "typing" _)) _).
  simpl. by eexists.
Defined.

(** X17 — The limit on the number of entries.  A structural [pushHistory]
    never leaves more than [maxEntries] entries when there were no more
    before, dropping the oldest entry of a full stack; the flush of a batch
    appends its entry without looking at [maxEntries], so a full stack whose
    pointer is on the last entry holds one entry more than the limit
    afterwards. *)
Theorem maxEntries_respected_by_structural_commits (op : string) (s : History.t) :
  (Z.of_nat (length (entries (history s))) <= maxEntries (history s) ->
   Z.of_nat (length (entries (history (pushHistory op None s))))
   <= maxEntries (history (pushHistory op None s)))
  /\ (is_Some (pendingBatch s) ->
      currentIndex (history s) = Z.of_nat (length (entries (history s))) - 1 ->
      length (entries (history (commitBatch s)))
      = S (length (entries (history s)))).
Proof.
  split.
  - intros Hmax. unfold pushHistory. simpl.
    set (kept := arraySlice (entries (history s)) 0
                   (Some (currentIndex (history s) + 1))).
    assert (Hkept : (length kept <= length (entries (history s)))%nat).
    { subst kept. unfold arraySlice. rewrite length_take, length_drop. lia. }
    match goal with
    | |- context [?a <? ?b] => destruct (Z.ltb_spec a b) as [Hfull|Hroom]
    end.
    + destruct kept as [|first kept']; simpl in *; [lia|].
      rewrite length_app in *. simpl in *. lia.
    + exact Hroom.
  - intros [pending Hp] Hlast. unfold commitBatch. rewrite Hp. simpl.
    rewrite length_app. simpl.
    replace (currentIndex (history s) + 1)
      with (Z.of_nat (length (entries (history s)))) by lia.
    rewrite arraySlice_prefix, firstn_all. lia.
Qed.

(** A stack of one entry with limit one: a structural commit keeps one
    entry. *)
Lemma maxEntries_respected_by_structural_commits_witness :
  Z.of_nat
    (length (entries (history
       (pushHistory "delete" None
          (idle Sample.hello
             {| entries :=
                  [ {| entryDocument := EditorState.document Sample.two;
                       timestamp := 1; entryOperationType := "typing" |} ];
                currentIndex := 0; maxEntries := 1 |} 5 0)))))
  <= 1.
Proof.
  refine (proj1 (maxEntries_respected_by_structural_commits "delete"
            (idle Sample.hello
               {| entries :=
                    [ {| entryDocument := EditorState.document Sample.two;
                         timestamp := 1; entryOperationType := "typing" |} ];
                  currentIndex := 0; maxEntries := 1 |} 5 0)) _).
  simpl. lia.
Defined.

(** X18 — A structural commit while a batch is open records one entry, not
    two.  [pushHistory] reads the history before it flushes the batch and
    writes its own entry after the entries it read, so the entry of the
    flushed batch is overwritten: the history is the one the same commit
    leaves when no batch is open, the batch is closed and its timer is
    cleared. *)
Theorem structural_commit_overwrites_flush e (h : HistoryState)
    (b op op' : string) (k : nat) (due c : Z) (n : nat) :
  pushHistory op' None (batchOpen e h b op k due c n)
  = pushHistory op' None (idle e h c n)
  /\ length (entries (history (pushHistory op' None (batchOpen e h b op k due c n))))
     = length (entries (history (pushHistory op' None (idle e h c n))))
  /\ Forall (fun entry => entry ∈ entries h \/ entryOperationType entry = op')
       (entries (history (pushHistory op' None (batchOpen e h b op k due c n)))).
Proof.
  assert (Heq : pushHistory op' None (batchOpen e h b op k due c n)
                = pushHistory op' None (idle e h c n)).
  { unfold pushHistory, batchOpen, idle, commitBatch, setHistory,
      setPendingBatch, setTimers, clearTimeout, document. simpl.
    rewrite HistoryFacts.filter_own_handle. reflexivity. }
  split; [exact Heq|]. split; [by rewrite Heq|].
  rewrite Heq. unfold pushHistory, idle. simpl.
  set (kept := arraySlice (entries h) 0 (Some (currentIndex h + 1))).
  assert (Hkept : Forall (fun entry => entry ∈ entries h
                                       \/ entryOperationType entry = op') kept).
  { apply Forall_forall. intros x Hx. left. subst kept. unfold arraySlice in Hx.
    by apply subseteq_take, subseteq_drop in Hx. }
  assert (Hall : Forall (fun entry => entry ∈ entries h
                                      \/ entryOperationType entry = op')
                   (kept ++ [{| entryDocument := EditorState.document e;
                                timestamp := c;
                                entryOperationType := op' |}])).
  { apply Forall_app. split; [exact Hkept|]. constructor; [by right | constructor]. }
  destruct (_ <? _); [|exact Hall].
  destruct (kept ++ _) as [|x l]; [constructor|].
  simpl. by apply Forall_cons in Hall as [_ Hall].
Qed.

(** X19 — Undo while a batch is open.  When the pointer is on the first
    entry or before it, [undo] only flushes the batch; otherwise it flushes
    the batch and then restores the entry before the pointer with the
    history it read on entry, so the entry of the batch is not in the
    history afterwards and the text typed in the batch is in no entry.  The
    Cmd+Z handler does nothing at all in the first case, the batch staying
    open. *)
Theorem undo_while_batch_open e (h : HistoryState)
    (b op : string) (k : nat) (due c : Z) (n : nat) :
  (currentIndex h <= 0 ->
     undo (batchOpen e h b op k due c n)
     = idle e (flushed h (EditorState.document e) c op) c n
     /\ onUndoKey (batchOpen e h b op k due c n) = batchOpen e h b op k due c n)
  /\ (forall entry,
        0 < currentIndex h ->
        at_ (entries h) (currentIndex h - 1) = Some entry ->
        undo (batchOpen e h b op k due c n)
        = idle (EditorState.withDocument e (entryDocument entry))
            (withEntries h (entries h) (currentIndex h - 1)) c n
        /\ undo (batchOpen e h b op k due c n) = undo (idle e h c n)).
Proof.
  split.
  - intros Hidx. split.
    + unfold undo, batchOpen, idle, flushed, commitBatch, setHistory,
        setPendingBatch, setTimers, clearTimeout, document. simpl.
      destruct (Z.leb_spec (currentIndex h) 0); [|lia].
      by rewrite HistoryFacts.filter_own_handle.
    + unfold onUndoKey, canUndo, batchOpen. simpl.
      destruct (Z.ltb_spec 0 (currentIndex h)); [lia | reflexivity].
  - intros entry Hidx Hentry.
    assert (Hundo : undo (batchOpen e h b op k due c n)
                    = idle (EditorState.withDocument e (entryDocument entry))
                        (withEntries h (entries h) (currentIndex h - 1)) c n).
    { unfold undo, batchOpen, idle, commitBatch, setHistory,
        setPendingBatch, setTimers, clearTimeout, document. simpl.
      destruct (Z.leb_spec (currentIndex h) 0); [lia|].
      rewrite Hentry. unfold setHistory, setDocument. simpl.
      by rewrite HistoryFacts.filter_own_handle. }
    split; [exact Hundo|].
    rewrite Hundo. symmetry. by apply HistoryFacts.undo_restores_previous.
Qed.

(** Undo during the first typing burst: the batch is flushed, nothing is
    restored. *)
Lemma undo_while_batch_open_witness :
  onUndoKey (batchOpen Sample.hello
               {| entries := []; currentIndex := -1; maxEntries := 100 |}
               "b1" "typing" 0 500 5 1)
  = batchOpen Sample.hello
      {| entries := []; currentIndex := -1; maxEntries := 100 |}
      "b1" "typing" 0 500 5 1.
Proof.
  refine (proj2 (proj1 (undo_while_batch_open Sample.hello
                          {| entries := []; currentIndex := -1; maxEntries := 100 |}
                          "b1" "typing" 0 500 5 1) _)).
  simpl. lia.
Defined.

(** A burst goes on: the batch stays open and its deadline stays within the
    quiet interval of the clock. *)
Lemma burst_continues (b : string) (keys : list ((EditorState.t -> EditorState.t) * Z)) :
  truthy b = true ->
  Forall (fun key => 0 <= snd key < BATCH_TIMEOUT) keys ->
  forall e h k due c n,
    due <= c + BATCH_TIMEOUT ->
    exists k' due',
      run (burst b keys) (batchOpen e h b "typing" k due c n)
      = batchOpen (edited keys e) h b "typing" k' due'
          (c + duration keys) (n + length keys)
      /\ due' <= c + duration keys + BATCH_TIMEOUT.
Proof.
  intros Hb Hkeys. induction Hkeys as [|[edit gap] keys Hgap _ IH];
    intros e h k due c n Hdue.
  - exists k, due. simpl. rewrite Z.add_0_r, Nat.add_0_r. done.
  - simpl in Hgap. unfold run in *.
    change (burst b ((edit, gap) :: keys))
      with (Edit edit :: typing b :: Elapse gap :: burst b keys).
    cbn [fold_left].
    rewrite HistoryFacts.step_edit_batchOpen, HistoryFacts.step_typing_same by done.
    rewrite HistoryFacts.step_elapse_quiet by lia.
    destruct (IH (edit e) h n (c + BATCH_TIMEOUT) (c + gap) (S n)) as (k' & due' & -> & Hd');
      [lia|].
    exists k', due'. split; [|simpl; lia].
    unfold edited, duration. simpl. f_equal; lia.
Qed.

(** X20 — One entry per typing burst.  Any number of keystrokes on one
    block, each followed by its commit and by less than the quiet interval,
    push no entry while the burst lasts; when the quiet interval has elapsed
    after the burst, exactly one entry has been pushed after the entries up
    to the pointer, and it is the snapshot of the document after the last
    keystroke. *)
Theorem burst_commits_one_entry (b : string)
    (key : (EditorState.t -> EditorState.t) * Z)
    (keys : list ((EditorState.t -> EditorState.t) * Z))
    e (h : HistoryState) (c : Z) (n : nat) (quiet : Z) :
  truthy b = true ->
  Forall (fun key => 0 <= snd key < BATCH_TIMEOUT) (key :: keys) ->
  BATCH_TIMEOUT <= quiet ->
  history (run (burst b (key :: keys)) (idle e h c n)) = h
  /\ exists time,
       run (burst b (key :: keys) ++ [Elapse quiet]) (idle e h c n)
       = idle (edited (key :: keys) e)
           (flushed h (EditorState.document (edited (key :: keys) e)) time "typing")
           (c + duration (key :: keys) + quiet) (n + length (key :: keys)).
Proof.
  intros Hb Hkeys Hquiet. destruct key as [edit gap].
  apply Forall_cons in Hkeys as [Hgap Hkeys]. simpl in Hgap.
  assert (Hfirst : run (burst b ((edit, gap) :: keys)) (idle e h c n)
                   = run (burst b keys)
                       (batchOpen (edit e) h b "typing" n (c + BATCH_TIMEOUT)
                          (c + gap) (S n))).
  { unfold run.
    change (burst b ((edit, gap) :: keys))
      with (Edit edit :: typing b :: Elapse gap :: burst b keys).
    cbn [fold_left].
    rewrite HistoryFacts.step_edit_idle, HistoryFacts.step_typing_idle by done.
    by rewrite HistoryFacts.step_elapse_quiet by lia. }
  destruct (burst_continues b keys Hb Hkeys (edit e) h n (c + BATCH_TIMEOUT)
              (c + gap) (S n)) as (k' & due' & Hrun & Hd'); [lia|].
  split.
  - rewrite Hfirst, Hrun. reflexivity.
  - exists (Z.max (c + gap + duration keys) due').
    assert (Happ : run (burst b ((edit, gap) :: keys) ++ [Elapse quiet])
                     (idle e h c n)
                   = step (run (burst b ((edit, gap) :: keys)) (idle e h c n))
                       (Elapse quiet)).
    { unfold run. by rewrite fold_left_app. }
    rewrite Happ, Hfirst, Hrun.
    rewrite HistoryFacts.step_elapse_deadline by lia.
    unfold edited, duration. simpl. f_equal; lia.
Qed.

(** Three keystrokes on "b1", then quiet. *)
Lemma burst_commits_one_entry_witness :
  length
    (entries (history
       (run (burst "b1" [(keystroke "b1" "a", 100); (keystroke "b1" "ab", 100);
                         (keystroke "b1" "abc", 100)]
             ++ [Elapse 500])
          (init Sample.two))))
  = 1%nat.
Proof.
  assert (Hkeys : Forall (fun key : (EditorState.t -> EditorState.t) * Z =>
                            0 <= snd key < BATCH_TIMEOUT)
                    [(keystroke "b1" "a", 100); (keystroke "b1" "ab", 100);
                     (keystroke "b1" "abc", 100)]).
  { unfold BATCH_TIMEOUT. repeat constructor; simpl; lia. }
  assert (Hquiet : BATCH_TIMEOUT <= 500) by (unfold BATCH_TIMEOUT; lia).
  destruct (proj2 (burst_commits_one_entry "b1" (keystroke "b1" "a", 100)
                     [(keystroke "b1" "ab", 100); (keystroke "b1" "abc", 100)]
                     Sample.two
                     {| entries := []; currentIndex := -1; maxEntries := 100 |}
                     0 0 500 eq_refl Hkeys Hquiet))
    as (time & Hrun).
  change (init Sample.two)
    with (idle Sample.two
            {| entries := []; currentIndex := -1; maxEntries := 100 |} 0 0).
  rewrite Hrun. reflexivity.
Defined.

End HistoryMore.

(** ** The Immer store and the spread store *)

Module Refinement.

Import EditorState.

(** X21 — The two ways the store is written do the same.  On a root order
    without duplicate every action of the Immer variant (assignments to a
    draft, [push], [splice], [delete]) returns the state and the value that
    the action of the spread variant ([slice], [filter], rest properties)
    returns; [updateBlockContent], [createBlock] and [splitBlock] agree on
    every state. *)
Theorem store_variants_agree (env : Env) (state : EditorState.t)
    (blockId : BlockId) (content : list RichText.t)
    (afterBlockId : option BlockId) (type : BlockType) (offset : Z) :
  ImmerStore.updateBlockContent env blockId content state
    = Store.updateBlockContent env blockId content state
  /\ ImmerStore.createBlock env afterBlockId type state
     = Store.createBlock env afterBlockId type state
  /\ ImmerStore.splitBlock env blockId offset state
     = Store.splitBlock env blockId offset state
  /\ (NoDup (Document.rootBlockIds (document state)) ->
      ImmerStore.deleteBlock env blockId state
        = Store.deleteBlock env blockId state
      /\ ImmerStore.mergeBlockWithPrevious env blockId state
         = Store.mergeBlockWithPrevious env blockId state).
Proof.
  split; [apply Variants.updateBlockContent_agree|].
  split; [apply Variants.createBlock_agree|].
  split; [apply Variants.splitBlock_agree|].
  intros Hnd. split.
  - by apply Variants.deleteBlock_agree.
  - by apply Variants.mergeBlockWithPrevious_agree.
Qed.

(** Deleting the second of two paragraphs, in both variants. *)
Lemma store_variants_agree_witness :
  ImmerStore.deleteBlock Sample.env0 "b2" Sample.two
  = Store.deleteBlock Sample.env0 "b2" Sample.two.
Proof.
  refine (proj1 (proj2 (proj2 (proj2
    (store_variants_agree Sample.env0 Sample.two "b2" [] None paragraph 0))) _)).
  apply (bool_decide_unpack _). by vm_compute.
Defined.

(** With a duplicate in the root order the two variants differ: the spread
    variant removes every occurrence, the Immer variant the first one. *)
Lemma store_variants_differ_on_duplicates :
  Document.rootBlockIds
    (documentOf (Store.deleteBlock Sample.env0 "b1"
                   (Sample.state ["b1"; "b2"; "b1"]
                      [Sample.block "b1" "paragraph" "x" [];
                       Sample.block "b2" "paragraph" "y" []])))
  = ["b2"]
  /\ Document.rootBlockIds
       (documentOf (ImmerStore.deleteBlock Sample.env0 "b1"
                      (Sample.state ["b1"; "b2"; "b1"]
                         [Sample.block "b1" "paragraph" "x" [];
                          Sample.block "b2" "paragraph" "y" []])))
     = ["b2"; "b1"].
Proof. split; reflexivity. Qed.

End Refinement.
